(** * ATF Showcase: list / filter / paginate pipeline

    A shallow embedding of the client-side controllers of the showcase
    (pagination window, search and date gates, entry-form validation, the
    admin list orchestrator with its delete and upload paths) together with
    the properties stated about them.

    JavaScript values are modelled as follows.
    - Strings are sequences of UTF-16 code units ([JsString]); [length] is
      the JS [.length].
    - Page numbers and counts are integers ([Z]); the result of [parseInt]
      is an [option Z], [None] standing for [NaN].
    - Every class is a record of its fields; a method is a function from the
      record (and its arguments) to the updated record and the list of the
      observable actions it performed, in program order.
    - An [await] splits a method in two: the part that runs up to the
      request, and the continuation that runs when the promise settles. *)

From Stdlib Require Import ZArith List Bool Lia String Ascii QArith Lqa.
Import ListNotations.

Close Scope Q_scope.
Open Scope Z_scope.

(* ================================================================== *)
(** * JavaScript strings *)
(* ================================================================== *)

Module Js.

(** A string is its sequence of UTF-16 code units. *)
Definition JsString := list Z.

(** Source-text literals: every character of the literals used by the
    program is ASCII, so its code unit is its ASCII code. *)
Definition lit (s : string) : JsString :=
  map (fun a => Z.of_N (N_of_ascii a)) (list_ascii_of_string s).

Definition empty : JsString := [].

Fixpoint eqb (a b : JsString) : bool :=
  match a, b with
  | [], [] => true
  | x :: a', y :: b' => (x =? y) && eqb a' b'
  | _, _ => false
  end.

Definition len (s : JsString) : Z := Z.of_nat (List.length s).

(** ECMAScript [WhiteSpace] and [LineTerminator] code points, the set
    stripped by [String.prototype.trim] and skipped by [parseInt]. *)
Definition isWhiteSpace (c : Z) : bool :=
  (c =? 9) || (c =? 10) || (c =? 11) || (c =? 12) || (c =? 13) ||
  (c =? 32) || (c =? 160) || (c =? 5760) ||
  ((8192 <=? c) && (c <=? 8202)) ||
  (c =? 8232) || (c =? 8233) || (c =? 8239) || (c =? 8287) ||
  (c =? 12288) || (c =? 65279).

Fixpoint trimStart (s : JsString) : JsString :=
  match s with
  | c :: s' => if isWhiteSpace c then trimStart s' else s
  | [] => []
  end.

Definition trimEnd (s : JsString) : JsString := rev (trimStart (rev s)).

Definition trim (s : JsString) : JsString := trimEnd (trimStart s).

Fixpoint startsWith (s prefix : JsString) : bool :=
  match prefix, s with
  | [], _ => true
  | p :: prefix', c :: s' => (c =? p) && startsWith s' prefix'
  | _ :: _, [] => false
  end.

Fixpoint includes (s needle : JsString) : bool :=
  startsWith s needle ||
  match s with
  | [] => false
  | _ :: s' => includes s' needle
  end.

(** [x || d] on a possibly missing string: [undefined] and the empty
    string are both falsy. *)
Definition orElse (x : option JsString) (d : JsString) : JsString :=
  match x with
  | Some (c :: s) => c :: s
  | _ => d
  end.

(** ** Numbers and strings *)

Definition isDigit (c : Z) : bool := (48 <=? c) && (c <=? 57).

(** Decimal digits of a non-negative integer, most significant first. *)
Fixpoint digitsOf (fuel : nat) (n : Z) (acc : JsString) : JsString :=
  match fuel with
  | O => acc
  | S fuel' =>
      let acc' := (48 + n mod 10) :: acc in
      if n / 10 =? 0 then acc' else digitsOf fuel' (n / 10) acc'
  end.

(** [String(n)] for an integer [n] (the form taken by [${n}] in a
    template literal). *)
Definition numberToString (n : Z) : JsString :=
  if n <? 0 then 45 :: digitsOf (S (Z.to_nat (Z.log2 (- n)))) (- n) []
  else digitsOf (S (Z.to_nat (Z.log2 n))) n [].

(** The digit-accumulation loop of [parseInt]: consumes the longest
    prefix of decimal digits. [None] when no digit was read yet. *)
Fixpoint readDigits (s : JsString) (acc : option Z) : option Z :=
  match s with
  | c :: s' =>
      if isDigit c
      then readDigits s' (Some (10 * match acc with Some a => a | None => 0 end + (c - 48)))
      else acc
  | [] => acc
  end.

(** [parseInt(s, 10)]: leading white space is skipped, one optional sign
    is read, then the longest run of decimal digits; [None] is [NaN]. *)
Definition parseInt10 (s : JsString) : option Z :=
  match trimStart s with
  | 45 :: rest => option_map Z.opp (readDigits rest None)
  | 43 :: rest => readDigits rest None
  | rest => readDigits rest None
  end.

(** [Math.ceil(a / b)] for integers [a] and positive [b]. *)
Definition ceilDiv (a b : Z) : Z := - ((- a) / b).

End Js.

Import Js.

(* ================================================================== *)
(** * Pagination controller (user/js/components/Pagination.js) *)
(* ================================================================== *)

Module Pagination.

(** An element of the page-number window: a page or the ['...'] marker. *)
Inductive PageItem : Type :=
| PageNum (n : Z)
| Ellipsis.

(** What a method of the controller does to the outside world. *)
Inductive Action : Type :=
| CallOnPageChange (page : Z)          (* this.onPageChange(page) *)
| ClearContainer                       (* container.innerHTML = '' *)
| RenderControls (window : list PageItem). (* container.innerHTML = html *)

Record t : Type := mk {
  container : bool;        (* the container element was found *)
  currentPage : Z;
  totalPages : Z;
  totalItems : Z;
  itemsPerPage : Z;
  onPageChange : bool      (* a page-change callback is registered *)
}.

Definition setCurrentPage (p : t) (n : Z) : t :=
  mk (container p) n (totalPages p) (totalItems p) (itemsPerPage p) (onPageChange p).

(** [for (let i = lo; i <= hi; i++) pages.push(i)], the loop counter
    running at most [fuel] times. *)
Fixpoint pushLoop (fuel : nat) (i hi : Z) (pages : list PageItem) : list PageItem :=
  match fuel with
  | O => pages
  | S fuel' =>
      if i <=? hi then pushLoop fuel' (i + 1) hi (pages ++ [PageNum i]) else pages
  end.

(** The loop with the number of iterations it needs. *)
Definition pushRange (lo hi : Z) (pages : list PageItem) : list PageItem :=
  pushLoop (Z.to_nat (hi - lo + 1)) lo hi pages.

Definition maxVisible : Z := 7.

Definition getPageNumbers (p : t) : list PageItem :=
  let pages : list PageItem := [] in
  if totalPages p <=? maxVisible then
    pushRange 1 (totalPages p) pages
  else
    let pages := pages ++ [PageNum 1] in
    if currentPage p <=? 4 then
      let pages := pushRange 2 5 pages in
      let pages := pages ++ [Ellipsis] in
      pages ++ [PageNum (totalPages p)]
    else if totalPages p - 3 <=? currentPage p then
      let pages := pages ++ [Ellipsis] in
      pushRange (totalPages p - 4) (totalPages p) pages
    else
      let pages := pages ++ [Ellipsis] in
      let pages := pushRange (currentPage p - 1) (currentPage p + 1) pages in
      let pages := pages ++ [Ellipsis] in
      pages ++ [PageNum (totalPages p)].

Definition render (p : t) : list Action :=
  if negb (container p) then []
  else if totalPages p <=? 1 then [ClearContainer]
  else [RenderControls (getPageNumbers p)].

Definition update (p : t) (cp tp ti : Z) : t * list Action :=
  let p' := mk (container p) cp tp ti (itemsPerPage p) (onPageChange p) in
  (p', render p').

(** [handlePageClick(page)]: [page] is the [data-page] attribute of the
    clicked button. *)
Definition handlePageClick (p : t) (page : JsString) : t * list Action :=
  let newPage : option Z :=
    if Js.eqb page (lit "prev") then Some (Z.max 1 (currentPage p - 1))
    else if Js.eqb page (lit "next") then Some (Z.min (totalPages p) (currentPage p + 1))
    else parseInt10 page in
  match newPage with
  | Some n =>
      if negb (n =? currentPage p) && (1 <=? n) && (n <=? totalPages p) then
        let p' := setCurrentPage p n in
        (p', (if onPageChange p' then [CallOnPageChange (currentPage p')] else [])
               ++ render p')
      else (p, [])
  | None => (p, [])
  end.

(** The guarded assignment that ends [handlePageClick], on its own. *)
Definition commitPage (p : t) (n : Z) : t * list Action :=
  if negb (n =? currentPage p) && (1 <=? n) && (n <=? totalPages p) then
    (setCurrentPage p n,
     (if onPageChange p then [CallOnPageChange n] else []) ++ render (setCurrentPage p n))
  else (p, []).

Definition goToPage (p : t) (page : Z) : t * list Action :=
  if (1 <=? page) && (page <=? totalPages p) then
    let p' := setCurrentPage p page in
    (p', render p' ++ (if onPageChange p' then [CallOnPageChange (currentPage p')] else []))
  else (p, []).

(** The [data-page] attribute written for a page-number button. *)
Definition pageAttr (n : Z) : JsString := numberToString n.

(** The pages [lo], [lo+1], ..., [hi] as window items. *)
Definition pagesFromTo (lo hi : Z) : list PageItem :=
  map (fun k => PageNum (lo + Z.of_nat k)) (seq 0 (Z.to_nat (hi - lo + 1))).

(** How many times the page-change callback was invoked. *)
Definition callbackCount (acts : list Action) : nat :=
  List.length (filter (fun a => match a with CallOnPageChange _ => true | _ => false end) acts).

End Pagination.

(* ================================================================== *)
(** * The browser platform *)
(* ================================================================== *)

(** The validators call two built-ins of the browser, the [URL] and [Date]
    constructors, and read the clock. They are taken as given. *)
Record Platform : Type := mkPlatform {
  (** [new URL(s).hostname]; [None] when the constructor throws. *)
  urlHostname : JsString -> option JsString;
  (** [new Date(s).getTime()]; [None] when the date is invalid ([NaN]). *)
  dateParse : JsString -> option Z;
  (** Time value of [new Date()] after [setHours(23, 59, 59, 999)]. *)
  endOfToday : Z
}.

Inductive ToastKind : Type := ToastInfo | ToastSuccess | ToastError.

(* ================================================================== *)
(** * Form validators (admin/js/validators.js) *)
(* ================================================================== *)

Module Validators.

(** The object returned by a validator: [{ valid, message?, url? }]. *)
Record Result : Type := mkResult {
  valid : bool;
  message : option JsString;
  url : option JsString
}.

Definition pass : Result := mkResult true None None.
Definition fail (msg : JsString) : Result := mkResult false (Some msg) None.
Definition passUrl (u : JsString) : Result := mkResult true None (Some u).

(** [!value || value.trim() === ''] *)
Definition isBlank (value : JsString) : bool :=
  Js.eqb value Js.empty || Js.eqb (trim value) Js.empty.

(** [a-z] under the [i] flag: the ASCII letters. *)
Definition isLetter (c : Z) : bool :=
  ((97 <=? c) && (c <=? 122)) || ((65 <=? c) && (c <=? 90)).

(** [/\.[a-z]{2,}$/i] matched at the start of [s]: a dot, then letters
    only up to the end of the string, at least two of them. *)
Definition tldMatchHere (s : JsString) : bool :=
  match s with
  | c :: rest => (c =? 46) && (2 <=? len rest) && forallb isLetter rest
  | [] => false
  end.

(** [tldRegex.test(s)]: the pattern is tried at every position. *)
Fixpoint tldRegexTest (s : JsString) : bool :=
  tldMatchHere s ||
  match s with
  | [] => false
  | _ :: s' => tldRegexTest s'
  end.

Section WithPlatform.
Variable pf : Platform.

Definition validateUrl (url : JsString) : Result :=
  if isBlank url then fail (lit "URL is required")
  else
    let formattedUrl := trim url in
    let formattedUrl :=
      if negb (startsWith formattedUrl (lit "http://")) &&
         negb (startsWith formattedUrl (lit "https://"))
      then lit "https://" ++ formattedUrl
      else formattedUrl in
    match urlHostname pf formattedUrl with
    | Some hostname =>
        if Js.eqb hostname Js.empty then fail (lit "Invalid URL format")
        else if negb (tldRegexTest hostname)
        then fail (lit "URL must have a valid domain extension")
        else passUrl formattedUrl
    | None => fail (lit "Invalid URL format")
    end.

Definition validateDate (dateString : JsString) : Result :=
  if isBlank dateString then pass
  else
    match dateParse pf dateString with
    | None => fail (lit "Invalid date format")
    | Some date =>
        if endOfToday pf <? date then fail (lit "Date cannot be in the future")
        else pass
    end.

End WithPlatform.

Definition validateRequired (value fieldName : JsString) : Result :=
  if isBlank value then fail (fieldName ++ lit " is required") else pass.

Definition validateLength (value : JsString) (minLength maxLength : Z)
           (fieldName : JsString) : Result :=
  let trimmedValue := trim value in
  if len trimmedValue <? minLength then
    fail (fieldName ++ lit " must be at least " ++ numberToString minLength
                    ++ lit " characters long")
  else if maxLength <? len trimmedValue then
    fail (fieldName ++ lit " must not exceed " ++ numberToString maxLength
                    ++ lit " characters")
  else pass.

Definition validateWebsiteName (name : JsString) : Result :=
  let requiredResult := validateRequired name (lit "Website name") in
  if negb (valid requiredResult) then requiredResult
  else
    let lengthResult := validateLength name 2 100 (lit "Website name") in
    if negb (valid lengthResult) then lengthResult else pass.

Definition validateDescription (description : JsString) : Result :=
  let requiredResult := validateRequired description (lit "Description") in
  if negb (valid requiredResult) then requiredResult
  else
    let lengthResult := validateLength description 10 1000 (lit "Description") in
    if negb (valid lengthResult) then lengthResult else pass.

(** A selected file: its MIME type and its size in bytes. *)
Record File : Type := mkFile { fileType : JsString; fileSize : Z }.

Definition allowedTypes : list JsString :=
  [lit "image/jpeg"; lit "image/jpg"; lit "image/png"; lit "image/gif"; lit "image/webp"].

Definition maxSize : Z := 5 * 1024 * 1024.

Definition validateImageFile (file : option File) : Result :=
  match file with
  | None => pass
  | Some f =>
      if negb (existsb (Js.eqb (fileType f)) allowedTypes) then
        fail (lit "Invalid file type. Only JPEG, PNG, GIF, and WebP images are allowed")
      else if maxSize <? fileSize f then
        fail (lit "Image file size must not exceed 5MB")
      else pass
  end.

(** The fields read from the add-entry and edit-entry forms. *)
Record EntryForm : Type := mkEntryForm {
  name : JsString;
  category : JsString;
  formUrl : JsString;
  description : JsString;
  imageFile : option File
}.

Definition withUrl (d : EntryForm) (u : JsString) : EntryForm :=
  mkEntryForm (name d) (category d) u (description d) (imageFile d).

Record FieldError : Type := mkFieldError { field : JsString; errMessage : JsString }.

Record FormResult : Type := mkFormResult {
  formValid : bool;
  errors : list FieldError;
  data : EntryForm
}.

Definition pushError (errs : list FieldError) (fld : JsString) (r : Result) : list FieldError :=
  if negb (valid r) then errs ++ [mkFieldError fld (orElse (message r) Js.empty)] else errs.

Definition validateEntryForm (pf : Platform) (formData : EntryForm) : FormResult :=
  let errors : list FieldError := [] in
  let nameResult := validateWebsiteName (name formData) in
  let errors := pushError errors (lit "name") nameResult in
  let categoryResult := validateRequired (category formData) (lit "Category") in
  let errors := pushError errors (lit "category") categoryResult in
  let urlResult := validateUrl pf (formUrl formData) in
  let errors := pushError errors (lit "url") urlResult in
  let descriptionResult := validateDescription (description formData) in
  let errors := pushError errors (lit "description") descriptionResult in
  let errors :=
    match imageFile formData with
    | Some f => pushError errors (lit "image") (validateImageFile (Some f))
    | None => errors
    end in
  mkFormResult
    (Nat.eqb (List.length errors) 0)
    errors
    (if valid urlResult
     then withUrl formData (orElse (url urlResult) Js.empty)
     else formData).

(** Search validation (admin: at least three characters). *)
Definition validateSearchQuery (query : JsString) : Result :=
  if isBlank query then pass
  else
    let trimmedQuery := trim query in
    if len trimmedQuery <? 3 then
      fail (lit "Search query must be at least 3 characters long")
    else if 100 <? len trimmedQuery then
      fail (lit "Search query must not exceed 100 characters")
    else pass.

End Validators.

(* ================================================================== *)
(** * Filter controllers *)
(* ================================================================== *)

(** The filter values held by both filter components. *)
Record FilterValues : Type := mkFilterValues {
  search : JsString;
  date : JsString;
  category : JsString
}.

Definition emptyFilters : FilterValues := mkFilterValues Js.empty Js.empty Js.empty.

(** ** Public surface (user/js/components/Filters.js) *)

Module Filters.

Inductive Action : Type :=
| CallOnFiltersChange (f : FilterValues)     (* this.onFiltersChange({...}) *)
| DispatchFiltersChange (f : FilterValues).  (* CustomEvent 'filtersChange' *)

Record t : Type := mk {
  filters : FilterValues;
  onFiltersChange : bool    (* a filter-change callback is registered *)
}.

Definition notifyFiltersChange (c : t) : list Action :=
  (if onFiltersChange c then [CallOnFiltersChange (filters c)] else [])
  ++ [DispatchFiltersChange (filters c)].

Definition handleSearchChange (c : t) (value : JsString) : t * list Action :=
  if (2 <=? len value) || (len value =? 0) then
    let c' := mk (mkFilterValues (trim value) (date (filters c)) (category (filters c)))
                 (onFiltersChange c) in
    (c', notifyFiltersChange c')
  else (c, []).

End Filters.

(** ** Admin surface (admin/js/components/Filters.js) *)

Module AdminFilters.

Inductive Action : Type :=
| CallOnFiltersChange (f : FilterValues)        (* this.onFiltersChange({...}) *)
| DispatchAdminFiltersChange (f : FilterValues) (* CustomEvent 'adminFiltersChange' *)
| ShowToast (msg : JsString) (kind : ToastKind).

Record t : Type := mk {
  filters : FilterValues;
  onFiltersChange : bool;          (* a filter-change callback is registered *)
  searchInput : bool;              (* the search input element was found *)
  searchError : option JsString    (* text of the inline error under the input *)
}.

Definition setFilters (c : t) (f : FilterValues) : t :=
  mk f (onFiltersChange c) (searchInput c) (searchError c).

Definition showSearchError (c : t) (msg : JsString) : t :=
  if negb (searchInput c) then c
  else mk (filters c) (onFiltersChange c) (searchInput c) (Some msg).

Definition clearSearchError (c : t) : t :=
  if negb (searchInput c) then c
  else mk (filters c) (onFiltersChange c) (searchInput c) None.

Definition notifyFiltersChange (c : t) : list Action :=
  (if onFiltersChange c then [CallOnFiltersChange (filters c)] else [])
  ++ [DispatchAdminFiltersChange (filters c)].

Definition handleSearchChange (c : t) (value : JsString) : t * list Action :=
  let validation := Validators.validateSearchQuery value in
  if negb (Validators.valid validation) then
    (showSearchError c (orElse (Validators.message validation) Js.empty), [])
  else
    let c := clearSearchError c in
    let c := setFilters c (mkFilterValues (trim value) (date (filters c))
                                          (category (filters c))) in
    (c, notifyFiltersChange c).

Definition handleDateChange (pf : Platform) (c : t) (value : JsString) : t * list Action :=
  let validation := Validators.validateDate pf value in
  if negb (Validators.valid validation) then
    (c, [ShowToast (orElse (Validators.message validation) Js.empty) ToastError])
  else
    let c := setFilters c (mkFilterValues (search (filters c)) value
                                          (category (filters c))) in
    (c, notifyFiltersChange c).

Definition handleCategoryChange (c : t) (value : JsString) : t * list Action :=
  let c := setFilters c (mkFilterValues (search (filters c)) (date (filters c)) value) in
  (c, notifyFiltersChange c).

Definition clearAllFilters (c : t) : t * list Action :=
  let c := setFilters c emptyFilters in
  let c := clearSearchError c in
  (c, notifyFiltersChange c).

(** The request parameters derived from the filters; empty values are
    left out. *)
Record APIParams : Type := mkAPIParams {
  pSearch : option JsString;
  pStartDate : option JsString;
  pEndDate : option JsString;
  pCategory : option JsString
}.

Definition truthy (s : JsString) : option JsString :=
  match s with [] => None | _ => Some s end.

Definition getAPIParams (c : t) : APIParams :=
  mkAPIParams (truthy (search (filters c)))
              (truthy (date (filters c)))
              (truthy (date (filters c)))
              (truthy (category (filters c))).

End AdminFilters.

(* ================================================================== *)
(** * Remote data client (admin API layer) *)
(* ================================================================== *)

Module AdminAPI.

(** The backend envelope [{ success, message, data? }]. *)
Record Response (A : Type) : Type := mkResponse {
  success : bool;
  message : option JsString;
  data : option A
}.
Arguments mkResponse {A}.
Arguments success {A}.
Arguments message {A}.
Arguments data {A}.

(** How the promise returned by a request settles: with the parsed
    response, or rejected with an [Error] carrying a message. *)
Inductive Settled (A : Type) : Type :=
| Resolved (r : Response A)
| Rejected (errorMessage : JsString).
Arguments Resolved {A}.
Arguments Rejected {A}.

Definition handleError (errorMessage defaultMessage : JsString) : JsString :=
  if includes errorMessage (lit "APP_SCRIPT_URL") then
    lit "Backend not configured. Please contact administrator."
  else if includes errorMessage (lit "Failed to fetch") then
    lit "Network error. Please check your connection."
  else if includes errorMessage (lit "Session expired") then
    lit "Session expired. Please login again."
  else orElse (Some errorMessage) defaultMessage.

(** The [progress] listener installed by [uploadFile(file, onProgress)]:
    the value it hands to [onProgress], if any. *)
Definition uploadProgressListener (lengthComputable : bool) (loaded total : Q)
  : option Q :=
  if lengthComputable then Some ((loaded / total) * 100)%Q else None.

End AdminAPI.

(* ================================================================== *)
(** * Delete confirmation modal (admin modals) *)
(* ================================================================== *)

Module DeleteModal.

(** The closure handed to [openWithCallback], by the request it makes
    when called. *)
Inductive Callback : Type :=
| DeleteEntryCallback (sheetName : JsString) (serial : Z) (imageFileId : JsString)
| DeleteCategoryCallback (categoryName : JsString).

Record t : Type := mk {
  isOpen : bool;
  modalMessage : JsString;          (* text of the modal body paragraph *)
  deleteCallback : option Callback
}.

Definition initial : t := mk false Js.empty None.

Definition openWithCallback (m : t) (msg : JsString) (cb : Callback) : t :=
  mk true msg (Some cb).

Definition close (m : t) : t := mk false (modalMessage m) (deleteCallback m).

End DeleteModal.

(* ================================================================== *)
(** * Admin list orchestrator (admin application) *)
(* ================================================================== *)

Module AdminApp.

Import AdminAPI.

Record Entry : Type := mkEntry {
  sheetName : JsString;
  serial : Z;
  name : JsString;
  imageFileId : option JsString
}.

Record ListParams : Type := mkListParams {
  page : Z;
  size : Z;
  filterParams : AdminFilters.APIParams
}.

(** [response.data] of the list endpoint. *)
Record ListData : Type := mkListData {
  dataEntries : option (list Entry);
  dataTotal : option Z
}.

Inductive View : Type := Dashboard | WebList | AddEntry | AddCategory.

Inductive Action : Type :=
| SetIsLoading (b : bool)                         (* this.isLoading = b *)
| ShowWebLoading (b : bool)
| GetEntries (params : ListParams)                (* adminAPI.getEntries(params) *)
| RenderWebEntries (es : list Entry)
| UpdatePagination (cp tp total : Z)              (* webPagination.update(...) *)
| ShowWebEmptyState (b : bool)
| ShowToast (msg : JsString) (kind : ToastKind)
| DispatchAdminFiltersChange (f : FilterValues)
| OpenDeleteModal (msg : JsString)
| CloseDeleteModal
| DeleteEntry (sheet : JsString) (serial : Z) (imageFileId : JsString)
| DeleteCategory (categoryName : JsString)
| LoadDashboardStats                              (* this.loadDashboardStats() *)
| LoadCategories                                  (* this.loadCategories() *)
| RenderCategoriesList.

Record t : Type := mk {
  currentView : View;
  currentPage : Z;
  isLoading : bool;
  entries : list Entry;
  totalEntries : Z;
  webFilters : AdminFilters.t;
  deleteModal : DeleteModal.t
}.

(** The state built by the constructor and [initComponents]. *)
Definition initial : t :=
  mk Dashboard 1 false [] 0
     (AdminFilters.mk emptyFilters true true None)
     DeleteModal.initial.

Definition setCurrentPage (a : t) (p : Z) : t :=
  mk (currentView a) p (isLoading a) (entries a) (totalEntries a)
     (webFilters a) (deleteModal a).
Definition setIsLoading (a : t) (b : bool) : t :=
  mk (currentView a) (currentPage a) b (entries a) (totalEntries a)
     (webFilters a) (deleteModal a).
Definition setResult (a : t) (es : list Entry) (total : Z) : t :=
  mk (currentView a) (currentPage a) (isLoading a) es total
     (webFilters a) (deleteModal a).
Definition setWebFilters (a : t) (f : AdminFilters.t) : t :=
  mk (currentView a) (currentPage a) (isLoading a) (entries a) (totalEntries a)
     f (deleteModal a).
Definition setDeleteModal (a : t) (m : DeleteModal.t) : t :=
  mk (currentView a) (currentPage a) (isLoading a) (entries a) (totalEntries a)
     (webFilters a) m.
Definition setCurrentView (a : t) (v : View) : t :=
  mk v (currentPage a) (isLoading a) (entries a) (totalEntries a)
     (webFilters a) (deleteModal a).

(** The application together with the requests it has issued and that
    have not settled yet, and everything it has done so far. *)
Record World : Type := mkWorld {
  app : t;
  pendingLists : list ListParams;                  (* getEntries promises of loadEntries *)
  pendingDeletes : list (JsString * Z * JsString); (* deleteEntry promises *)
  log : list Action
}.

Definition initialWorld : World := mkWorld initial [] [] [].

Definition withApp (w : World) (a : t) : World :=
  mkWorld a (pendingLists w) (pendingDeletes w) (log w).
Definition emit (w : World) (acts : list Action) : World :=
  mkWorld (app w) (pendingLists w) (pendingDeletes w) (log w ++ acts).

(** ** loadEntries *)

(** [loadEntries()] up to its [await]. *)
Definition loadEntries (w : World) : World :=
  if isLoading (app w) then w
  else
    let a := setIsLoading (app w) true in
    let params := mkListParams (currentPage a) 12
                               (AdminFilters.getAPIParams (webFilters a)) in
    mkWorld a (pendingLists w ++ [params]) (pendingDeletes w)
            (log w ++ [SetIsLoading true; ShowWebLoading true; GetEntries params]).

(** The [catch] block of [loadEntries]. *)
Definition loadEntriesCatch (a : t) (errorMessage : JsString) : t * list Action :=
  (a, [ShowToast (handleError errorMessage (lit "Failed to load websites")) ToastError]).

(** Message of the [TypeError] raised by reading a property of
    [undefined]. *)
Definition typeErrorMessage : JsString :=
  lit "Cannot read properties of undefined (reading 'entries')".

(** [loadEntries()] from its [await] on, once the promise has settled:
    the [try] body, the [catch] block, then the [finally] block. *)
Definition loadEntriesSettled (a : t) (r : Settled ListData) : t * list Action :=
  let '(a, acts) :=
    match r with
    | Resolved response =>
        if success response then
          match data response with
          | Some d =>
              let es := match dataEntries d with Some es => es | None => [] end in
              let total := match dataTotal d with Some n => n | None => 0 end in
              let a := setResult a es total in
              let totalPages := ceilDiv (totalEntries a) 12 in
              (a, [RenderWebEntries (entries a);
                   UpdatePagination (currentPage a) totalPages (totalEntries a);
                   ShowWebEmptyState (Nat.eqb (List.length (entries a)) 0)])
          | None => loadEntriesCatch a typeErrorMessage
          end
        else
          loadEntriesCatch a (orElse (message response) (lit "Failed to load entries"))
    | Rejected errorMessage => loadEntriesCatch a errorMessage
    end in
  (setIsLoading a false, acts ++ [SetIsLoading false; ShowWebLoading false]).

(** ** Triggers *)

Definition handleWebFiltersChange (w : World) : World :=
  loadEntries (withApp w (setCurrentPage (app w) 1)).

Definition handleWebPageChange (w : World) (p : Z) : World :=
  loadEntries (withApp w (setCurrentPage (app w) p)).

Definition switchView (w : World) (v : View) : World :=
  let w := withApp w (setCurrentView (app w) v) in
  match v with
  | WebList => loadEntries w
  | Dashboard => emit w [LoadDashboardStats]
  | AddCategory => emit w [RenderCategoriesList]
  | AddEntry => w
  end.

Definition refreshCurrentView (w : World) : World :=
  let w := match currentView (app w) with
           | Dashboard => emit w [LoadDashboardStats]
           | WebList => loadEntries w
           | AddCategory => emit w [LoadCategories; RenderCategoriesList]
           | AddEntry => w
           end in
  emit w [ShowToast (lit "Data refreshed") ToastSuccess].

(** What the filter component did, seen from the application: its
    callback is [handleWebFiltersChange]. *)
Fixpoint relayFilterActions (w : World) (acts : list AdminFilters.Action) : World :=
  match acts with
  | [] => w
  | AdminFilters.CallOnFiltersChange _ :: rest =>
      relayFilterActions (handleWebFiltersChange w) rest
  | AdminFilters.DispatchAdminFiltersChange f :: rest =>
      relayFilterActions (emit w [DispatchAdminFiltersChange f]) rest
  | AdminFilters.ShowToast msg kind :: rest =>
      relayFilterActions (emit w [ShowToast msg kind]) rest
  end.

Definition onFilters (w : World) (r : AdminFilters.t * list AdminFilters.Action) : World :=
  relayFilterActions (withApp w (setWebFilters (app w) (fst r))) (snd r).

(** ** Delete *)

(** Code unit of the double quote. *)
Definition quote : Z := 34.

Definition deleteMessage (entryName : JsString) : JsString :=
  lit "Are you sure you want to delete " ++ [quote] ++ entryName ++ [quote]
      ++ lit "? This action cannot be undone.".

Definition findEntry (es : list Entry) (sheet : JsString) (ser : Z) : option Entry :=
  find (fun e => Js.eqb (sheetName e) sheet && (serial e =? ser)) es.

Definition handleDeleteEntry (w : World) (sheet : JsString) (ser : Z) (img : JsString)
  : World :=
  match findEntry (entries (app w)) sheet ser with
  | None => w
  | Some entry =>
      let msg := deleteMessage (name entry) in
      let m := DeleteModal.openWithCallback (deleteModal (app w)) msg
                 (DeleteModal.DeleteEntryCallback sheet ser img) in
      emit (withApp w (setDeleteModal (app w) m)) [OpenDeleteModal msg]
  end.

(** The arguments written into a card's delete button. *)
Definition cardDeleteArgs (e : Entry) : JsString * Z * JsString :=
  (sheetName e, serial e, orElse (imageFileId e) Js.empty).

(** Click on the confirm button: the stored callback runs up to its
    [await], then the modal closes. *)
Definition confirmDelete (w : World) : World :=
  let w :=
    match DeleteModal.deleteCallback (deleteModal (app w)) with
    | Some (DeleteModal.DeleteEntryCallback sheet ser img) =>
        mkWorld (app w) (pendingLists w) (pendingDeletes w ++ [(sheet, ser, img)])
                (log w ++ [DeleteEntry sheet ser img])
    | Some (DeleteModal.DeleteCategoryCallback c) => emit w [DeleteCategory c]
    | None => w
    end in
  emit (withApp w (setDeleteModal (app w) (DeleteModal.close (deleteModal (app w)))))
       [CloseDeleteModal].

(** Close button, cancel button, backdrop click or Escape. *)
Definition dismissDelete (w : World) : World :=
  emit (withApp w (setDeleteModal (app w) (DeleteModal.close (deleteModal (app w)))))
       [CloseDeleteModal].

(** The delete callback from its [await] on. *)
Definition deleteSettled (w : World) (r : Settled unit) : World :=
  match r with
  | Resolved response =>
      if success response then
        loadEntries (emit w [ShowToast (lit "Entry deleted successfully!") ToastSuccess])
      else
        emit w [ShowToast (handleError (orElse (message response)
                                               (lit "Failed to delete entry"))
                                       (lit "Failed to delete entry")) ToastError]
  | Rejected errorMessage =>
      emit w [ShowToast (handleError errorMessage (lit "Failed to delete entry"))
                        ToastError]
  end.

(** ** Events *)

Inductive Event : Type :=
| SearchCommitted (value : JsString)   (* debounce elapsed or Enter pressed *)
| DateChanged (value : JsString)
| CategoryChanged (value : JsString)
| FiltersCleared
| PageChanged (p : Z)                  (* page-change callback of the pagination *)
| ViewSwitched (v : View)
| RefreshClicked
| ListSettled (i : nat) (r : Settled ListData)   (* i-th pending list request settles *)
| DeleteClicked (sheet : JsString) (ser : Z) (img : JsString)
| DeleteConfirmed
| DeleteDismissed
| DeleteSettled (i : nat) (r : Settled unit).    (* i-th pending delete settles *)

(** Removes the [i]-th element. *)
Fixpoint removeNth {A : Type} (i : nat) (l : list A) : list A :=
  match l, i with
  | [], _ => []
  | _ :: l', O => l'
  | x :: l', S i' => x :: removeNth i' l'
  end.

Definition step (pf : Platform) (w : World) (ev : Event) : World :=
  match ev with
  | SearchCommitted value =>
      onFilters w (AdminFilters.handleSearchChange (webFilters (app w)) value)
  | DateChanged value =>
      onFilters w (AdminFilters.handleDateChange pf (webFilters (app w)) value)
  | CategoryChanged value =>
      onFilters w (AdminFilters.handleCategoryChange (webFilters (app w)) value)
  | FiltersCleared =>
      onFilters w (AdminFilters.clearAllFilters (webFilters (app w)))
  | PageChanged p => handleWebPageChange w p
  | ViewSwitched v => switchView w v
  | RefreshClicked => refreshCurrentView w
  | ListSettled i r =>
      match nth_error (pendingLists w) i with
      | None => w
      | Some _ =>
          let '(a, acts) := loadEntriesSettled (app w) r in
          mkWorld a (removeNth i (pendingLists w)) (pendingDeletes w) (log w ++ acts)
      end
  | DeleteClicked sheet ser img => handleDeleteEntry w sheet ser img
  | DeleteConfirmed => confirmDelete w
  | DeleteDismissed => dismissDelete w
  | DeleteSettled i r =>
      match nth_error (pendingDeletes w) i with
      | None => w
      | Some _ =>
          deleteSettled
            (mkWorld (app w) (pendingLists w) (removeNth i (pendingDeletes w)) (log w)) r
      end
  end.

Definition run (pf : Platform) (w : World) (evs : list Event) : World :=
  fold_left (step pf) evs w.

(** ** Observations on the log *)

Definition isGetEntries (a : Action) : bool :=
  match a with GetEntries _ => true | _ => false end.
Definition isDeleteEntry (a : Action) : bool :=
  match a with DeleteEntry _ _ _ => true | _ => false end.
Definition isErrorToast (a : Action) : bool :=
  match a with ShowToast _ ToastError => true | _ => false end.
Definition isDeleteConfirmed (ev : Event) : bool :=
  match ev with DeleteConfirmed => true | _ => false end.

Definition count {A : Type} (f : A -> bool) (l : list A) : nat :=
  List.length (filter f l).

End AdminApp.

(* ================================================================== *)
(** * Entry submit and the upload progress display *)
(* ================================================================== *)

Module EntrySubmit.

Import Validators.

Inductive Action : Type :=
| ShowFieldErrors (errs : list FieldError)
| ShowUploadProgress (b : bool)
| SetProgress (percent : Q)              (* progressFill.style.width = `${progress}%` *)
| CreateEntry (fields : EntryForm)       (* adminAPI.createEntry(apiFormData) *)
| UpdateEntry (sheetName rowSerial : JsString) (fields : EntryForm)
                                         (* adminAPI.updateEntry(apiFormData) *)
| ShowToast (msg : JsString) (kind : ToastKind)
| ResetAddEntryForm
| SwitchToWebList
| CloseEditModal
| RefreshCurrentView
| ShowImagePreview
| ClearFileInput.

(** The [data] object built from the submitted form: the four text fields,
    and [imageFile] only for a chosen file of positive size. *)
Definition attachedImage (image : option File) : option File :=
  match image with
  | Some f => if 0 <? fileSize f then Some f else None
  | None => None
  end.

Definition readEntryForm (form : EntryForm) : EntryForm :=
  mkEntryForm (name form) (category form) (formUrl form) (description form)
              (attachedImage (imageFile form)).

(** [simulateUploadProgress(callback)]: the ticks of the interval timer.
    [draws] are the successive values of [Math.random()], one per tick,
    and [progress] the value of the local variable before the tick. The
    result lists the percentages written to the progress bar and tells
    whether the timer was cleared and the callback scheduled. The sums
    are exact rationals where JavaScript rounds to a double; rounding
    keeps a sum of non-negative terms non-decreasing, and the cap is the
    constant 90 itself. *)
Fixpoint simulateUploadProgress (draws : list Q) (progress : Q) : list Q * bool :=
  match draws with
  | [] => ([], false)
  | r :: rest =>
      let progress := (progress + r * 15)%Q in
      if Qle_bool 90 progress then ([90%Q], true)
      else
        let '(shown, finished) := simulateUploadProgress rest progress in
        (progress :: shown, finished)
  end.

(** [handleAddEntry(e)] followed by the timer ticks it starts; [form] holds
    the fields of the submitted form. The list ends with the create
    request once the callback has run. *)
Definition handleAddEntry (pf : Platform) (form : EntryForm) (draws : list Q)
  : list Action :=
  let data := readEntryForm form in
  let validation := validateEntryForm pf data in
  if negb (formValid validation) then [ShowFieldErrors (errors validation)]
  else
    let apiFormData := Validators.data validation in
    ShowUploadProgress true ::
    match imageFile data with
    | Some _ =>
        let '(shown, finished) := simulateUploadProgress draws 0 in
        map SetProgress shown ++ (if finished then [CreateEntry apiFormData] else [])
    | None => [CreateEntry apiFormData]
    end.

(** [completeAddEntry] from its [await] on. *)
Definition completeAddEntrySettled (r : AdminAPI.Settled unit) : list Action :=
  match r with
  | AdminAPI.Resolved response =>
      if AdminAPI.success response then
        [ShowToast (lit "Entry added successfully!") ToastSuccess;
         ResetAddEntryForm; ShowUploadProgress false; SwitchToWebList]
      else
        [ShowToast (AdminAPI.handleError
                      (orElse (AdminAPI.message response) (lit "Failed to add entry"))
                      (lit "Failed to add entry")) ToastError]
  | AdminAPI.Rejected errorMessage =>
      [ShowToast (AdminAPI.handleError errorMessage (lit "Failed to add entry"))
                 ToastError]
  end ++ [ShowUploadProgress false].

(** [EditEntryModal.handleSubmit()] followed by the timer ticks; the
    request carries the fields as read from the form. *)
Definition handleSubmit (pf : Platform) (sheetName rowSerial : JsString)
           (form : EntryForm) (draws : list Q) : list Action :=
  let data := readEntryForm form in
  let validation := validateEntryForm pf data in
  if negb (formValid validation) then [ShowFieldErrors (errors validation)]
  else
    ShowUploadProgress true ::
    match imageFile data with
    | Some _ =>
        let '(shown, finished) := simulateUploadProgress draws 0 in
        map SetProgress shown
            ++ (if finished then [UpdateEntry sheetName rowSerial data] else [])
    | None => [UpdateEntry sheetName rowSerial data]
    end.

(** [completeUpdate] from its [await] on. *)
Definition completeUpdateSettled (r : AdminAPI.Settled unit) : list Action :=
  match r with
  | AdminAPI.Resolved response =>
      if AdminAPI.success response then
        [ShowToast (lit "Entry updated successfully!") ToastSuccess;
         CloseEditModal; RefreshCurrentView]
      else
        [ShowToast (AdminAPI.handleError
                      (orElse (AdminAPI.message response) (lit "Failed to update entry"))
                      (lit "Failed to update entry")) ToastError]
  | AdminAPI.Rejected errorMessage =>
      [ShowToast (AdminAPI.handleError errorMessage (lit "Failed to update entry"))
                 ToastError]
  end ++ [ShowUploadProgress false].

(** [handleImagePreview(e, previewId)]: a file was chosen in the input. *)
Definition handleImagePreview (file : option File) : list Action :=
  match file with
  | None => []
  | Some f =>
      let validation := validateImageFile (Some f) in
      if negb (valid validation) then
        [ShowToast (orElse (message validation) Js.empty) ToastError; ClearFileInput]
      else [ShowImagePreview]
  end.

Definition isRequest (a : Action) : bool :=
  match a with
  | CreateEntry _ | UpdateEntry _ _ _ => true
  | _ => false
  end.

Definition count_requests (acts : list Action) : nat :=
  List.length (filter isRequest acts).

(** The percentages written to the progress bar, in order. *)
Fixpoint progressValues (acts : list Action) : list Q :=
  match acts with
  | [] => []
  | SetProgress q :: rest => q :: progressValues rest
  | _ :: rest => progressValues rest
  end.

(** Each value is at least the one before it. *)
Fixpoint nonDecreasing (lo : Q) (l : list Q) : Prop :=
  match l with
  | [] => True
  | q :: rest => (lo <= q)%Q /\ nonDecreasing q rest
  end.

End EntrySubmit.

(* ================================================================== *)
(** * A reference platform *)
(* ================================================================== *)

(** A small stand-in for the browser built-ins, used to run the
    controllers on concrete inputs: [http(s)] URLs with an ASCII host
    name, ISO calendar dates ([YYYY-MM-DD], midnight UTC), and a fixed
    clock. *)
Module RefPlatform.

Definition isHostChar (c : Z) : bool :=
  Validators.isLetter c || isDigit c || (c =? 45) || (c =? 46).

Definition toLowerAscii (c : Z) : Z :=
  if (65 <=? c) && (c <=? 90) then c + 32 else c.

(** The host: everything up to the first of [/ ? # :]. *)
Fixpoint takeHost (s : JsString) : JsString :=
  match s with
  | [] => []
  | c :: s' =>
      if (c =? 47) || (c =? 63) || (c =? 35) || (c =? 58) then []
      else c :: takeHost s'
  end.

Definition hostname (s : JsString) : option JsString :=
  let afterScheme :=
    if startsWith s (lit "https://") then Some (skipn 8 s)
    else if startsWith s (lit "http://") then Some (skipn 7 s)
    else None in
  match afterScheme with
  | None => None
  | Some rest =>
      let h := takeHost rest in
      if Js.eqb h Js.empty || negb (forallb isHostChar h) then None
      else Some (map toLowerAscii h)
  end.

(** Days from 1970-01-01 to the given civil date. *)
Definition daysFromCivil (y m d : Z) : Z :=
  let y := if m <=? 2 then y - 1 else y in
  let era := y / 400 in
  let yoe := y - era * 400 in
  let doy := (153 * (m + (if 2 <? m then -3 else 9)) + 2) / 5 + d - 1 in
  let doe := yoe * 365 + yoe / 4 - yoe / 100 + doy in
  era * 146097 + doe - 719468.

Definition msPerDay : Z := 86400000.

Definition isoDate (s : JsString) : option Z :=
  match s with
  | [y1; y2; y3; y4; 45; m1; m2; 45; d1; d2] =>
      if forallb isDigit [y1; y2; y3; y4; m1; m2; d1; d2] then
        let y := 1000 * (y1 - 48) + 100 * (y2 - 48) + 10 * (y3 - 48) + (y4 - 48) in
        let m := 10 * (m1 - 48) + (m2 - 48) in
        let d := 10 * (d1 - 48) + (d2 - 48) in
        if (1 <=? m) && (m <=? 12) && (1 <=? d) && (d <=? 31)
        then Some (daysFromCivil y m d * msPerDay)
        else None
      else None
  | _ => None
  end.

(** The clock reads some time on 2025-06-15. *)
Definition today : Z := daysFromCivil 2025 6 15 * msPerDay + (msPerDay - 1).

Definition platform : Platform := mkPlatform hostname isoDate today.

End RefPlatform.

(* ================================================================== *)
(** * Sample inputs *)
(* ================================================================== *)

Module Samples.

(** A query of 101 characters. *)
Definition longQuery : JsString := repeat 97 101.

Definition adminFilters : AdminFilters.t :=
  AdminFilters.mk emptyFilters true true None.

Definition publicFilters : Filters.t := Filters.mk emptyFilters true.

Definition photo : Validators.File := Validators.mkFile (lit "image/png") 2048.

(** A form that passes validation, with a bare host name as its URL. *)
Definition googleForm (image : option Validators.File) : Validators.EntryForm :=
  Validators.mkEntryForm (lit "Google") (lit "Search") (lit "google.com")
                         (lit "A well known search engine") image.

Definition notAUrlForm : Validators.EntryForm :=
  Validators.mkEntryForm (lit "Google") (lit "Search") (lit "not a url")
                         (lit "A well known search engine") None.

(** Twelve ticks that each draw one half. *)
Definition halves : list Q := repeat (1 # 2)%Q 12.

Definition entry1 : AdminApp.Entry :=
  AdminApp.mkEntry (lit "Search") 1 (lit "Google") (Some (lit "file-1")).

Definition listOf (es : list AdminApp.Entry) (total : Z)
  : AdminAPI.Settled AdminApp.ListData :=
  AdminAPI.Resolved
    (AdminAPI.mkResponse true None
       (Some (AdminApp.mkListData (Some es) (Some total)))).

Definition deleted : AdminAPI.Settled unit :=
  AdminAPI.Resolved (AdminAPI.mkResponse true None None).

End Samples.

(* ================================================================== *)
(** * Vocabulary of the specification *)
(* ================================================================== *)

Module Spec.

(** The URL rule in the words of the specification: trim, then prefix
    [https://] unless a scheme is present. *)
Definition normalizeUrl (u : JsString) : JsString :=
  let t := trim u in
  if startsWith t (lit "http://") || startsWith t (lit "https://")
  then t else lit "https://" ++ t.

(** The host name ends with a dot followed by at least two letters. *)
Definition EndsWithDotLetters (h : JsString) : Prop :=
  exists pre suf,
    h = pre ++ 46 :: suf /\ 2 <= len suf /\
    Forall (fun c => Validators.isLetter c = true) suf.

(** The three messages with which the URL field is refused. *)
Definition InvalidUrlMessage (m : JsString) : Prop :=
  m = lit "URL is required" \/ m = lit "Invalid URL format" \/
  m = lit "URL must have a valid domain extension".

(** The admin controller took the query: the trimmed query is in the
    filter state and the change was notified. *)
Definition AdminCommitted (c : AdminFilters.t) (s : JsString) : Prop :=
  let r := AdminFilters.handleSearchChange c s in
  AdminFilters.filters (fst r) =
    mkFilterValues (trim s) (date (AdminFilters.filters c))
                   (category (AdminFilters.filters c)) /\
  snd r = AdminFilters.notifyFiltersChange (fst r) /\
  In (AdminFilters.DispatchAdminFiltersChange (AdminFilters.filters (fst r))) (snd r) /\
  (AdminFilters.onFiltersChange c = true ->
   In (AdminFilters.CallOnFiltersChange (AdminFilters.filters (fst r))) (snd r)).

(** The admin controller refused the query with message [msg]: filter
    state untouched, nothing notified, the message shown inline. *)
Definition AdminRejected (c : AdminFilters.t) (s msg : JsString) : Prop :=
  let r := AdminFilters.handleSearchChange c s in
  AdminFilters.filters (fst r) = AdminFilters.filters c /\
  snd r = [] /\
  (AdminFilters.searchInput c = true -> AdminFilters.searchError (fst r) = Some msg).

(** The public controller took the query. *)
Definition PublicCommitted (c : Filters.t) (s : JsString) : Prop :=
  let r := Filters.handleSearchChange c s in
  Filters.filters (fst r) =
    mkFilterValues (trim s) (date (Filters.filters c)) (category (Filters.filters c)) /\
  snd r = Filters.notifyFiltersChange (fst r) /\
  In (Filters.DispatchFiltersChange (Filters.filters (fst r))) (snd r) /\
  (Filters.onFiltersChange c = true ->
   In (Filters.CallOnFiltersChange (Filters.filters (fst r))) (snd r)).

(** The public controller ignored the query. *)
Definition PublicRejected (c : Filters.t) (s : JsString) : Prop :=
  Filters.handleSearchChange c s = (c, []).

(** A list fetch failed: the promise was rejected, or the backend
    answered [success: false]. *)
Definition FailedFetch {A : Type} (r : AdminAPI.Settled A) : Prop :=
  match r with
  | AdminAPI.Rejected _ => True
  | AdminAPI.Resolved response => AdminAPI.success response = false
  end.

(** [acc] is a run of decimal digits of value [v]. *)
Definition DigitsValue (acc : JsString) (v : Z) : Prop :=
  forall a, readDigits acc (Some a) = Some (a * 10 ^ len acc + v).

End Spec.

(** ** Vocabulary for the fetch guard *)

Module Guard.

Import AdminApp.

(** Number of list requests issued so far. *)
Definition fetches (w : World) : nat := count isGetEntries (log w).

(** Number of delete requests issued so far. *)
Definition deletions (w : World) : nat := count isDeleteEntry (log w).

(** The loading flag tells whether a list request is in flight, and
    there is never more than one. *)
Definition Invariant (w : World) : Prop :=
  if isLoading (app w) then List.length (pendingLists w) = 1%nat
  else pendingLists w = [].

(** A transition that may call [loadEntries] but does not settle a
    request: while loading it issues nothing; when idle it issues at
    most one request and raises the flag with it. *)
Definition Calm (w w' : World) : Prop :=
  (isLoading (app w) = true ->
     isLoading (app w') = true /\ pendingLists w' = pendingLists w /\
     fetches w' = fetches w) /\
  (isLoading (app w) = false ->
     (isLoading (app w') = false /\ pendingLists w' = pendingLists w /\
      fetches w' = fetches w) \/
     (isLoading (app w') = true /\
      (exists p, pendingLists w' = pendingLists w ++ [p]) /\
      fetches w' = S (fetches w))).

(** The result set held by the orchestrator. *)
Definition results (w : World) : list Entry * Z :=
  (entries (app w), totalEntries (app w)).

Definition isListSettled (ev : Event) : bool :=
  match ev with ListSettled _ _ => true | _ => false end.

End Guard.

(* ================================================================== *)
(** * Pagination controller: rendering and page size *)
(* ================================================================== *)

Module PaginationView.

Import Pagination.

(** What [generatePaginationHTML()] puts into the container. *)
Record Controls : Type := mkControls {
  prevDisabled : bool;
  buttons : list (PageItem * bool);   (* each window item, with its [active] mark *)
  nextDisabled : bool;
  startItem : Z;
  endItem : Z;
  shownTotal : Z
}.

Definition isActive (p : t) (item : PageItem) : bool :=
  match item with
  | PageNum n => n =? currentPage p
  | Ellipsis => false
  end.

Definition generatePaginationHTML (p : t) : Controls :=
  let prevDisabled := currentPage p =? 1 in
  let pageNumbers := getPageNumbers p in
  let nextDisabled := currentPage p =? totalPages p in
  let startItem := (currentPage p - 1) * itemsPerPage p + 1 in
  let endItem := Z.min (currentPage p * itemsPerPage p) (totalItems p) in
  mkControls prevDisabled (map (fun item => (item, isActive p item)) pageNumbers)
             nextDisabled startItem endItem (totalItems p).

(** A JavaScript number that is an integer, an infinity or [NaN]. *)
Inductive Num : Type :=
| Int (z : Z)
| PosInf
| NegInf
| NaN.

(** [Math.ceil(a / b)] for integers [a] and [b], [b] possibly zero. *)
Definition ceilQuotient (a b : Z) : Num :=
  if b =? 0 then
    if 0 <? a then PosInf else if a <? 0 then NegInf else NaN
  else Int (ceilDiv a b).

(** [setItemsPerPage(itemsPerPage)]. The result is [None] in the one case
    where the new current page is not an integer (the page size is zero
    and the item count negative, so that [maxPage] is [-Infinity]). *)
Definition setItemsPerPage (p : t) (newSize : Z) : option (t * list Action) :=
  let p := mk (container p) (currentPage p) (totalPages p) (totalItems p) newSize
              (onPageChange p) in
  let maxPage := ceilQuotient (totalItems p) (itemsPerPage p) in
  let withPage (n : Z) := let p' := setCurrentPage p n in Some (p', render p') in
  match maxPage with
  | Int m =>
      if m <? currentPage p then withPage (if m =? 0 then 1 else m)
      else Some (p, render p)
  | PosInf => Some (p, render p)
  | NaN => Some (p, render p)
  | NegInf => None
  end.

(** [reset()] *)
Definition reset (p : t) : t * list Action :=
  let p' := mk (container p) 1 1 0 (itemsPerPage p) (onPageChange p) in
  (p', render p').

(** The window reads as a page list with gaps: a number not preceded by
    the marker is the successor of the number before it, and the marker
    stands for at least two skipped pages. [prev] is the number before
    the first item. *)
Fixpoint wellSpaced (prev : Z) (l : list PageItem) : bool :=
  match l with
  | [] => true
  | PageNum n :: rest => (n =? prev + 1) && wellSpaced n rest
  | Ellipsis :: PageNum n :: rest => (prev + 3 <=? n) && wellSpaced n rest
  | Ellipsis :: _ => false
  end.

(** The last page number of a window ([dflt] if it has none). *)
Fixpoint lastPage (dflt : Z) (l : list PageItem) : Z :=
  match l with
  | [] => dflt
  | PageNum n :: rest => lastPage n rest
  | Ellipsis :: rest => lastPage dflt rest
  end.


End PaginationView.

(* ================================================================== *)
(** * Category form (admin validators, admin application) *)
(* ================================================================== *)

Module CategoryForms.

Import Validators.

(** The class [[a-zA-Z0-9\s\-_]]; [\s] is the white space set of [trim]. *)
Definition isCategoryChar (c : Z) : bool :=
  ((97 <=? c) && (c <=? 122)) || ((65 <=? c) && (c <=? 90)) || isDigit c ||
  isWhiteSpace c || (c =? 45) || (c =? 95).

(** [/^[a-zA-Z0-9\s\-_]+$/.test(s)] *)
Definition validPatternTest (s : JsString) : bool :=
  match s with
  | [] => false
  | _ :: _ => forallb isCategoryChar s
  end.

Definition validateCategoryName (name : JsString) : Result :=
  let requiredResult := validateRequired name (lit "Category name") in
  if negb (valid requiredResult) then requiredResult
  else
    let lengthResult := validateLength name 2 50 (lit "Category name") in
    if negb (valid lengthResult) then lengthResult
    else if negb (validPatternTest (trim name)) then
      fail (lit "Category name can only contain letters, numbers, spaces, hyphens, and underscores")
    else pass.

Record CategoryFormResult : Type := mkCategoryFormResult {
  categoryFormValid : bool;
  categoryErrors : list FieldError
}.

(** [validateCategoryForm(formData)], [name] being [formData.name]. *)
Definition validateCategoryForm (name : JsString) : CategoryFormResult :=
  let errors := pushError [] (lit "name") (validateCategoryName name) in
  mkCategoryFormResult (Nat.eqb (List.length errors) 0) errors.

Inductive Action : Type :=
| ShowFieldErrors (errs : list FieldError)
| CreateCategory (name : JsString)                    (* adminAPI.createCategory(name) *)
| UpdateCategory (originalName newName : JsString).   (* adminAPI.updateCategory(...) *)

(** [handleAddCategory(e)] up to its [await]; [name] is the value of the
    form field. *)
Definition handleAddCategory (name : JsString) : list Action :=
  let validation := validateCategoryForm name in
  if negb (categoryFormValid validation) then
    [ShowFieldErrors (categoryErrors validation)]
  else [CreateCategory name].

(** [handleEditCategory(categoryName)] with the answer given to the
    prompt ([None] when it was cancelled), up to the [await] of
    [updateCategory]. *)
Definition handleEditCategory (categoryName : JsString) (answer : option JsString)
  : list Action :=
  match answer with
  | Some newName =>
      if negb (Js.eqb newName Js.empty) && negb (Js.eqb newName categoryName)
      then [UpdateCategory categoryName newName]
      else []
  | None => []
  end.

End CategoryForms.

(* ================================================================== *)
(** * URL check of the API layer *)
(* ================================================================== *)

Module ApiUrl.

(** [AdminAPI.validateUrl(url)]: the returned string, or [None] when
    [Error('Invalid URL format')] is thrown. *)
Definition validateUrl (pf : Platform) (url : JsString) : option JsString :=
  match url with
  | [] => Some Js.empty
  | _ :: _ =>
      let url :=
        if negb (startsWith url (lit "http://")) && negb (startsWith url (lit "https://"))
        then lit "https://" ++ url
        else url in
      match urlHostname pf url with
      | Some _ => Some url
      | None => None
      end
  end.

End ApiUrl.

(* ================================================================== *)
(** * The admin filter panel: observers and inputs *)
(* ================================================================== *)

Module AdminFiltersPanel.

Import AdminFilters.

(** [a || b] on strings. *)
Definition jsOr (a b : JsString) : JsString :=
  match a with
  | [] => b
  | _ :: _ => a
  end.

Definition hasActiveFilters (c : t) : JsString :=
  jsOr (search (filters c)) (jsOr (date (filters c)) (category (filters c))).

(** [if (value) count++] *)
Definition countIf (value : JsString) (count : Z) : Z :=
  match value with
  | [] => count
  | _ :: _ => count + 1
  end.

Definition getActiveFiltersCount (c : t) : Z :=
  let count := 0 in
  let count := countIf (search (filters c)) count in
  let count := countIf (date (filters c)) count in
  let count := countIf (category (filters c)) count in
  count.

(** [validateFilters()]: the messages collected. *)
Definition validateFilters (pf : Platform) (c : t) : list JsString :=
  let errors : list JsString := [] in
  let errors :=
    match search (filters c) with
    | [] => errors
    | _ :: _ =>
        let searchValidation := Validators.validateSearchQuery (search (filters c)) in
        if negb (Validators.valid searchValidation)
        then errors ++ [orElse (Validators.message searchValidation) Js.empty]
        else errors
    end in
  let errors :=
    match date (filters c) with
    | [] => errors
    | _ :: _ =>
        let dateValidation := Validators.validateDate pf (date (filters c)) in
        if negb (Validators.valid dateValidation)
        then errors ++ [orElse (Validators.message dateValidation) Js.empty]
        else errors
    end in
  errors.

(** What the user does to the panel: the search box fires (debounce
    elapsed or Enter), a date or a category is chosen, the clear button
    is clicked. *)
Inductive Input : Type :=
| SearchInput (value : JsString)
| DateInput (value : JsString)
| CategoryInput (value : JsString)
| ClearClick.

Definition handle (pf : Platform) (c : t) (i : Input) : t * list Action :=
  match i with
  | SearchInput value => handleSearchChange c value
  | DateInput value => handleDateChange pf c value
  | CategoryInput value => handleCategoryChange c value
  | ClearClick => clearAllFilters c
  end.

Fixpoint handleAll (pf : Platform) (c : t) (inputs : list Input) : t * list Action :=
  match inputs with
  | [] => (c, [])
  | i :: rest =>
      let '(c1, acts1) := handle pf c i in
      let '(c2, acts2) := handleAll pf c1 rest in
      (c2, acts1 ++ acts2)
  end.

(** The state built by the constructor. *)
Definition initial (callback input : bool) : t := mk emptyFilters callback input None.

(** Filter values that went through the checks of the handlers. *)
Definition Accepted (pf : Platform) (f : FilterValues) : Prop :=
  trim (search f) = search f /\
  (search f = [] \/ 3 <= len (search f) <= 100) /\
  Validators.valid (Validators.validateDate pf (date f)) = true.

(** The filter values carried by a notification. *)
Definition notified (a : Action) : option FilterValues :=
  match a with
  | CallOnFiltersChange f => Some f
  | DispatchAdminFiltersChange f => Some f
  | ShowToast _ _ => None
  end.

End AdminFiltersPanel.

(* ================================================================== *)
(** * Observations on the runs of the admin application *)
(* ================================================================== *)

Module Trace.

Import AdminApp.

(** Parameters of a list request that went through the filter checks. *)
Definition AcceptedParams (p : ListParams) : Prop :=
  size p = 12 /\
  AdminFilters.pStartDate (filterParams p) = AdminFilters.pEndDate (filterParams p) /\
  match AdminFilters.pSearch (filterParams p) with
  | None => True
  | Some s => trim s = s /\ 3 <= len s <= 100
  end.

Definition AcceptedRequest (a : Action) : Prop :=
  match a with
  | GetEntries p => AcceptedParams p
  | _ => True
  end.

(** The request the orchestrator builds from its present state. *)
Definition currentParams (w : World) : ListParams :=
  mkListParams (currentPage (app w)) 12 (AdminFilters.getAPIParams (webFilters (app w))).









(** The delete request that the run [evs] logs right after [pre] was put
    before the user first. The run splits at a click on a delete button
    with the arguments of the request and at a later click on the
    confirm button. The click found the entry [e] with that sheet and
    serial number among the loaded entries, as [entries.find] does, and
    opened the modal with the message naming [e]; the modal still held
    that message when the confirm button was clicked; the request is the
    first action of that click. *)
Definition Prompted (pf : Platform) (evs : list Event) (pre : list Action)
           (sheet : JsString) (ser : Z) (img : JsString) : Prop :=
  exists (evs1 evs2 evs3 : list Event) (e : Entry) (mid : list Action),
    evs = evs1 ++ DeleteClicked sheet ser img :: evs2 ++ DeleteConfirmed :: evs3 /\
    findEntry (entries (app (run pf initialWorld evs1))) sheet ser = Some e /\
    In e (entries (app (run pf initialWorld evs1))) /\
    sheetName e = sheet /\ serial e = ser /\
    pre = log (run pf initialWorld evs1)
            ++ OpenDeleteModal (deleteMessage (name e)) :: mid /\
    DeleteModal.modalMessage
      (deleteModal
         (app (run pf initialWorld (evs1 ++ DeleteClicked sheet ser img :: evs2)))) =
      deleteMessage (name e) /\
    log (run pf initialWorld (evs1 ++ DeleteClicked sheet ser img :: evs2)) = pre.

(** An action that neither asks for a list with other parameters than
    the present filters give, nor deletes. *)
Definition QuietAction (w : World) (a : Action) : Prop :=
  match a with
  | GetEntries p =>
      size p = 12 /\
      filterParams p = AdminFilters.getAPIParams (webFilters (app w))
  | DeleteEntry _ _ _ => False
  | _ => True
  end.

(** A transition that leaves the filter panel and the delete modal as
    they are and adds quiet actions only. *)
Definition Quiet (w w' : World) : Prop :=
  webFilters (app w') = webFilters (app w) /\
  deleteModal (app w') = deleteModal (app w) /\
  exists acts, log w' = log w ++ acts /\ Forall (QuietAction w) acts.

(** The loaded list and its total are those of the answer. *)
Definition answered (es : list Entry) (total : Z) : AdminAPI.Settled ListData :=
  AdminAPI.Resolved
    (AdminAPI.mkResponse true None (Some (mkListData (Some es) (Some total)))).

End Trace.

(* ================================================================== *)
(** * Requests and session of the admin API layer *)
(* ================================================================== *)

Module AdminRequests.

Import AdminAPI.

(** The fields of the API object after [init()], and the two entries of
    the session storage. *)
Record Session : Type := mkSession {
  baseUrl : option JsString;        (* AppConfig.get('APP_SCRIPT_URL') *)
  token : option JsString;          (* this.token *)
  adminToken : option JsString;     (* sessionStorage 'adminToken' *)
  tokenExpires : option JsString    (* sessionStorage 'tokenExpires' *)
}.

(** Truthiness of a value that is a string, [null] or [undefined]. *)
Definition isSet (x : option JsString) : bool :=
  match x with
  | Some (_ :: _) => true
  | _ => false
  end.

(** [this.token = sessionStorage.getItem('adminToken')] of [init()]. *)
Definition init (s : Session) : Session :=
  mkSession (baseUrl s) (adminToken s) (adminToken s) (tokenExpires s).

Definition setToken (s : Session) (tok : JsString) : Session :=
  mkSession (baseUrl s) (Some tok) (Some tok) (tokenExpires s).

Definition clearToken (s : Session) : Session :=
  mkSession (baseUrl s) None None None.

Section WithClock.
Variable pf : Platform.
(** Time value of [new Date()]. *)
Variable now : Z.

(** [isTokenExpired()]; a comparison with an invalid date is false. *)
Definition isTokenExpired (s : Session) : bool :=
  if negb (isSet (tokenExpires s)) then true
  else
    match dateParse pf (orElse (tokenExpires s) Js.empty) with
    | Some expires => expires <? now
    | None => false
    end.

(** [AdminAPI.isAuthenticated()] *)
Definition isAuthenticated (s : Session) : bool :=
  isSet (token s) && negb (isTokenExpired s).

(** [AdminApp.isAuthenticated()], which reads the storage itself. *)
Definition appIsAuthenticated (s : Session) : bool :=
  if negb (isSet (adminToken s)) || negb (isSet (tokenExpires s)) then false
  else
    match dateParse pf (orElse (tokenExpires s) Js.empty) with
    | Some expires => now <? expires
    | None => false
    end.

End WithClock.

(** The calls of the API object. *)
Inductive Call : Type :=
| Login
| VerifyToken (tok : JsString)
| Logout
| GetCategories
| CreateCategory
| UpdateCategory
| DeleteCategory
| GetEntries
| CreateEntry
| UpdateEntry
| DeleteEntry.

Definition Headers : Type := list (JsString * JsString).

(** The [options] object a call hands to [request]; its body is left
    out. [None] is an absent key. *)
Record Options : Type := mkOptions {
  optMethod : option JsString;
  optHeaders : option Headers
}.

Definition optionsOf (c : Call) : Options :=
  match c with
  | Login => mkOptions (Some (lit "POST")) None
  | VerifyToken tok =>
      mkOptions (Some (lit "POST")) (Some [(lit "Authorization", lit "Bearer " ++ tok)])
  | Logout => mkOptions (Some (lit "POST")) None
  | GetCategories => mkOptions None None
  | CreateCategory => mkOptions (Some (lit "POST")) None
  | UpdateCategory => mkOptions (Some (lit "POST")) None
  | DeleteCategory => mkOptions (Some (lit "POST")) None
  | GetEntries => mkOptions None None
  | CreateEntry => mkOptions (Some (lit "POST")) (Some [])
  | UpdateEntry => mkOptions (Some (lit "POST")) (Some [])
  | DeleteEntry => mkOptions (Some (lit "POST")) None
  end.

(** The path of a call, without the query string of the list call. *)
Definition endpointOf (c : Call) : JsString :=
  match c with
  | Login => lit "/auth/login"
  | VerifyToken _ => lit "/auth/verify"
  | Logout => lit "/auth/logout"
  | GetCategories => lit "/categories/list"
  | CreateCategory => lit "/categories/create"
  | UpdateCategory => lit "/categories/update"
  | DeleteCategory => lit "/categories/delete"
  | GetEntries => lit "/entries/list"
  | CreateEntry => lit "/entries/create"
  | UpdateEntry => lit "/entries/update"
  | DeleteEntry => lit "/entries/delete"
  end.

(** What is handed to [fetch]. *)
Record Sent : Type := mkSent {
  sentUrl : JsString;
  sentMethod : JsString;
  sentHeaders : Headers
}.

(** [defaultOptions.headers], with the authorization entry added when a
    token is held. *)
Definition defaultHeaders (s : Session) : Headers :=
  (lit "Content-Type", lit "application/json") ::
  (if isSet (token s)
   then [(lit "Authorization", lit "Bearer " ++ orElse (token s) Js.empty)]
   else []).

(** [{ ...defaultOptions, ...options }]: a key of [options] replaces the
    default as a whole. *)
Definition finalOptions (s : Session) (options : Options) : JsString * Headers :=
  (match optMethod options with Some m => m | None => lit "GET" end,
   match optHeaders options with Some h => h | None => defaultHeaders s end).

(** What the network did with the request: [fetch] rejected, or a
    response arrived, whose body [response.json()] parsed or refused. *)
Inductive FetchResult (A : Type) : Type :=
| NetworkError (errorMessage : JsString)
| Answer (status : Z) (json : JsString + Response A).
Arguments NetworkError {A}.
Arguments Answer {A}.

(** [response.ok] *)
Definition isOk (status : Z) : bool := (200 <=? status) && (status <=? 299).

Record Outcome (A : Type) : Type := mkOutcome {
  session : Session;
  sent : option Sent;
  redirected : bool;            (* window.location.href = '../user/' *)
  settled : Settled A
}.
Arguments mkOutcome {A}.
Arguments session {A}.
Arguments sent {A}.
Arguments redirected {A}.
Arguments settled {A}.

(** [request(endpoint, options)], [net] telling what the network does. *)
Definition request {A : Type} (s : Session) (endpoint : JsString) (options : Options)
           (net : FetchResult A) : Outcome A :=
  if negb (isSet (baseUrl s)) then
    mkOutcome s None false
              (Rejected (lit "API not configured. Please check your configuration."))
  else
    let url := orElse (baseUrl s) Js.empty ++ endpoint in
    let '(method, headers) := finalOptions s options in
    let sent := Some (mkSent url method headers) in
    match net with
    | NetworkError errorMessage => mkOutcome s sent false (Rejected errorMessage)
    | Answer status json =>
        if status =? 401 then
          mkOutcome (clearToken s) sent true
                    (Rejected (lit "Session expired. Please login again."))
        else if negb (isOk status) then
          mkOutcome s sent false
                    (Rejected (lit "HTTP error! status: " ++ numberToString status))
        else
          match json with
          | inl errorMessage => mkOutcome s sent false (Rejected errorMessage)
          | inr response => mkOutcome s sent false (Resolved response)
          end
    end.

(** A call of the API object. [logout()] returns the promise of its
    request from inside a [try] whose [finally] clears the token: the
    request, suspended at its first [await], resumes after that. *)
Definition call {A : Type} (s : Session) (c : Call) (net : FetchResult A) : Outcome A :=
  match c with
  | Logout => request (clearToken s) (endpointOf c) (optionsOf c) net
  | _ => request s (endpointOf c) (optionsOf c) net
  end.

(** The text a caller shows for a settled request that failed, as the
    handlers of the application do. *)
Definition shownError {A : Type} (r : Settled A) (defaultMessage : JsString)
  : option JsString :=
  match r with
  | Rejected errorMessage => Some (handleError errorMessage defaultMessage)
  | Resolved response =>
      if success response then None
      else Some (handleError (orElse (message response) defaultMessage) defaultMessage)
  end.

(** The value stored under a header name, if any. *)
Definition header (name : JsString) (h : Headers) : option JsString :=
  option_map snd (find (fun kv => Js.eqb (fst kv) name) h).

End AdminRequests.

(* ================================================================== *)
(** * Configuration manager *)
(* ================================================================== *)

Module Config.

(** The [config] object, as the list of its assignments, the latest
    first. Keys that name a member of [Object.prototype] are outside the
    model; the program reads none. *)
Definition Table : Type := list (JsString * JsString).

(** [this.config[key] = value] *)
Definition set (key value : JsString) (config : Table) : Table := (key, value) :: config.

(** [get(key)]; [None] is [undefined]. *)
Definition get (key : JsString) (config : Table) : option JsString :=
  option_map snd (find (fun kv => Js.eqb (fst kv) key) config).

(** [s.split(sep)] for a separator of one code unit. *)
Fixpoint split (sep : Z) (s : JsString) : list JsString :=
  match s with
  | [] => [[]]
  | c :: s' =>
      if c =? sep then [] :: split sep s'
      else
        match split sep s' with
        | piece :: pieces => (c :: piece) :: pieces
        | [] => [[c]]
        end
  end.

(** [parts.join(sep)] *)
Fixpoint join (sep : Z) (parts : list JsString) : JsString :=
  match parts with
  | [] => []
  | [piece] => piece
  | piece :: rest => piece ++ sep :: join sep rest
  end.

Definition nonEmpty (s : JsString) : bool :=
  match s with
  | [] => false
  | _ :: _ => true
  end.

(** The body of the loop over the lines of the file. *)
Definition parseLine (config : Table) (line : JsString) : Table :=
  let trimmed := trim line in
  if nonEmpty trimmed && negb (startsWith trimmed (lit "#")) then
    match split 61 trimmed with
    | key :: valueParts =>
        if nonEmpty key && (0 <? Z.of_nat (List.length valueParts))
        then set (trim key) (trim (join 61 valueParts)) config
        else config
    | [] => config
    end
  else config.

Definition defaults : Table :=
  [(lit "APP_SCRIPT_URL", Js.empty);
   (lit "DRIVE_FOLDER_ID", Js.empty);
   (lit "PRIMARY_COLOR", lit "#0B5FFF");
   (lit "SECONDARY_COLOR", lit "#FFFFFF");
   (lit "BACKGROUND_COLOR", lit "#F8FAFC")].

(** What fetching the configuration file gave: the text of a response
    with [ok] set, or a failure (the fetch was rejected, the status was
    not in the 200 range, or the body could not be read). *)
Inductive Fetched : Type :=
| ConfigText (text : JsString)
| ConfigFailure.

(** [load()], first call. *)
Definition load (f : Fetched) : Table :=
  match f with
  | ConfigText text => fold_left parseLine (split 10 text) []
  | ConfigFailure => defaults
  end.

(** The session of the API object initialised from a configuration. *)
Definition sessionOf (config : Table) (adminToken tokenExpires : option JsString)
  : AdminRequests.Session :=
  AdminRequests.init
    (AdminRequests.mkSession (get (lit "APP_SCRIPT_URL") config) None
                             adminToken tokenExpires).

End Config.

(* ================================================================== *)
(** * The public filter panel: the other handlers *)
(* ================================================================== *)

Module PublicFilters.

Import Filters.

Definition handleDateChange (c : t) (value : JsString) : t * list Action :=
  let c' := mk (mkFilterValues (search (filters c)) value (category (filters c)))
               (onFiltersChange c) in
  (c', notifyFiltersChange c').

Definition handleCategoryChange (c : t) (value : JsString) : t * list Action :=
  let c' := mk (mkFilterValues (search (filters c)) (date (filters c)) value)
               (onFiltersChange c) in
  (c', notifyFiltersChange c').

Definition clearAllFilters (c : t) : t * list Action :=
  let c' := mk emptyFilters (onFiltersChange c) in
  (c', notifyFiltersChange c').

(** The argument of [setFilters]: an object with some of the three keys. *)
Record Partial : Type := mkPartial {
  newSearch : option JsString;
  newDate : option JsString;
  newCategory : option JsString
}.

(** [{ ...this.filters, ...filters }] *)
Definition merge (f : FilterValues) (p : Partial) : FilterValues :=
  mkFilterValues
    (match newSearch p with Some v => v | None => search f end)
    (match newDate p with Some v => v | None => date f end)
    (match newCategory p with Some v => v | None => category f end).

Definition setFilters (c : t) (p : Partial) : t * list Action :=
  let c' := mk (merge (filters c) p) (onFiltersChange c) in
  (c', notifyFiltersChange c').

Definition getAPIParams (c : t) : AdminFilters.APIParams :=
  AdminFilters.mkAPIParams (AdminFilters.truthy (search (filters c)))
                           (AdminFilters.truthy (date (filters c)))
                           (AdminFilters.truthy (date (filters c)))
                           (AdminFilters.truthy (category (filters c))).

(** [hasActiveFilters()], as a truth value. *)
Definition hasActiveFilters (c : t) : bool :=
  match search (filters c), date (filters c), category (filters c) with
  | [], [], [] => false
  | _, _, _ => true
  end.

End PublicFilters.

(* ================================================================== *)
(** * The public application *)
(* ================================================================== *)

Module UserApp.

(** The data of a card, as far as the application looks at it. *)
Record Card : Type := mkCard {
  serial : Z;
  name : JsString
}.

Record ListData : Type := mkListData {
  dataEntries : option (list Card);
  dataTotal : option Z
}.

(** [UserAPI.handleError(error, defaultMessage)] *)
Definition handleError (errorMessage defaultMessage : JsString) : JsString :=
  if includes errorMessage (lit "APP_SCRIPT_URL") then
    lit "Backend not configured. Please contact administrator."
  else if includes errorMessage (lit "Failed to fetch") then
    lit "Network error. Please check your connection."
  else orElse (Some errorMessage) defaultMessage.

Inductive Action : Type :=
| ShowLoading (b : bool)
| GetPublicEntries (params : AdminApp.ListParams)   (* userAPI.getPublicEntries(params) *)
| RenderEntries (es : list Card)
| Paginate (a : Pagination.Action)                  (* done by the pagination component *)
| ShowEmptyState (b : bool)
| ShowError (msg : JsString)
| ScrollToCards
| DispatchFiltersChange (f : FilterValues).

Record t : Type := mk {
  currentPage : Z;
  isLoading : bool;
  entries : list Card;
  totalEntries : Z;
  filters : Filters.t;
  pagination : Pagination.t
}.

(** The state built by the constructor and [initComponents]. *)
Definition initial : t :=
  mk 1 false [] 0 (Filters.mk emptyFilters true) (Pagination.mk true 1 1 0 12 true).

Definition setCurrentPage (a : t) (p : Z) : t :=
  mk p (isLoading a) (entries a) (totalEntries a) (filters a) (pagination a).
Definition setIsLoading (a : t) (b : bool) : t :=
  mk (currentPage a) b (entries a) (totalEntries a) (filters a) (pagination a).
Definition setResult (a : t) (es : list Card) (total : Z) : t :=
  mk (currentPage a) (isLoading a) es total (filters a) (pagination a).
Definition setFilters (a : t) (f : Filters.t) : t :=
  mk (currentPage a) (isLoading a) (entries a) (totalEntries a) f (pagination a).
Definition setPagination (a : t) (p : Pagination.t) : t :=
  mk (currentPage a) (isLoading a) (entries a) (totalEntries a) (filters a) p.

Record World : Type := mkWorld {
  app : t;
  pending : list AdminApp.ListParams;   (* getPublicEntries promises not settled yet *)
  log : list Action
}.

Definition initialWorld : World := mkWorld initial [] [].

Definition withApp (w : World) (a : t) : World := mkWorld a (pending w) (log w).
Definition emit (w : World) (acts : list Action) : World :=
  mkWorld (app w) (pending w) (log w ++ acts).

(** [loadEntries()] up to its [await]. *)
Definition loadEntries (w : World) : World :=
  if isLoading (app w) then w
  else
    let a := setIsLoading (app w) true in
    let params := AdminApp.mkListParams (currentPage a) 12
                                        (PublicFilters.getAPIParams (filters a)) in
    mkWorld a (pending w ++ [params])
            (log w ++ [ShowLoading true; GetPublicEntries params]).

(** [loadEntries()] from its [await] on. *)
Definition loadEntriesSettled (a : t) (r : AdminAPI.Settled ListData) : t * list Action :=
  let failed (a : t) (errorMessage : JsString) : t * list Action :=
    (a, [ShowError (handleError errorMessage (lit "Failed to load websites"))]) in
  let '(a, acts) :=
    match r with
    | AdminAPI.Resolved response =>
        if AdminAPI.success response then
          match AdminAPI.data response with
          | Some d =>
              let es := match dataEntries d with Some es => es | None => [] end in
              let total := match dataTotal d with Some n => n | None => 0 end in
              let a := setResult a es total in
              let totalPages := ceilDiv (totalEntries a) 12 in
              let '(p, pacts) :=
                Pagination.update (pagination a) (currentPage a) totalPages
                                  (totalEntries a) in
              (setPagination a p,
               [RenderEntries (entries a)] ++ map Paginate pacts
                 ++ [ShowEmptyState (Nat.eqb (List.length (entries a)) 0)])
          | None => failed a AdminApp.typeErrorMessage
          end
        else
          failed a (orElse (AdminAPI.message response) (lit "Failed to load entries"))
    | AdminAPI.Rejected errorMessage => failed a errorMessage
    end in
  (setIsLoading a false, acts ++ [ShowLoading false]).

Definition handleFiltersChange (w : World) : World :=
  loadEntries (withApp w (setCurrentPage (app w) 1)).

Definition handlePageChange (w : World) (page : Z) : World :=
  emit (loadEntries (withApp w (setCurrentPage (app w) page))) [ScrollToCards].

Definition refresh (w : World) : World :=
  loadEntries (withApp w (setCurrentPage (app w) 1)).

(** What the pagination component did, seen from the application: its
    callback is [handlePageChange]. *)
Fixpoint relayPagination (w : World) (acts : list Pagination.Action) : World :=
  match acts with
  | [] => w
  | Pagination.CallOnPageChange page :: rest =>
      relayPagination (handlePageChange w page) rest
  | a :: rest => relayPagination (emit w [Paginate a]) rest
  end.

(** A click on a button of the pagination controls. *)
Definition clickPage (w : World) (attr : JsString) : World :=
  let '(p, acts) := Pagination.handlePageClick (pagination (app w)) attr in
  relayPagination (withApp w (setPagination (app w) p)) acts.

(** What the filter panel did, seen from the application. *)
Fixpoint relayFilters (w : World) (acts : list Filters.Action) : World :=
  match acts with
  | [] => w
  | Filters.CallOnFiltersChange _ :: rest => relayFilters (handleFiltersChange w) rest
  | Filters.DispatchFiltersChange f :: rest =>
      relayFilters (emit w [DispatchFiltersChange f]) rest
  end.

Definition onFilters (w : World) (r : Filters.t * list Filters.Action) : World :=
  relayFilters (withApp w (setFilters (app w) (fst r))) (snd r).

(** The entries of a [URLSearchParams] object. *)
Definition UrlParams : Type := list (JsString * JsString).


Definition get (params : UrlParams) (key : JsString) : option JsString :=
  option_map snd (find (fun kv => Js.eqb (fst kv) key) params).




Inductive Event : Type :=
| PageButtonClicked (attr : JsString)
| SearchTyped (value : JsString)
| DateChosen (value : JsString)
| CategoryChosen (value : JsString)
| FiltersCleared
| Refreshed
| ListSettled (i : nat) (r : AdminAPI.Settled ListData).

Definition step (w : World) (ev : Event) : World :=
  match ev with
  | PageButtonClicked attr => clickPage w attr
  | SearchTyped value => onFilters w (Filters.handleSearchChange (filters (app w)) value)
  | DateChosen value => onFilters w (PublicFilters.handleDateChange (filters (app w)) value)
  | CategoryChosen value =>
      onFilters w (PublicFilters.handleCategoryChange (filters (app w)) value)
  | FiltersCleared => onFilters w (PublicFilters.clearAllFilters (filters (app w)))
  | Refreshed => refresh w
  | ListSettled i r =>
      match nth_error (pending w) i with
      | None => w
      | Some _ =>
          let '(a, acts) := loadEntriesSettled (app w) r in
          mkWorld a (AdminApp.removeNth i (pending w)) (log w ++ acts)
      end
  end.

Definition run (w : World) (evs : list Event) : World := fold_left step evs w.

(** The list requests among some actions. *)
Fixpoint requests (acts : list Action) : list AdminApp.ListParams :=
  match acts with
  | [] => []
  | GetPublicEntries p :: rest => p :: requests rest
  | _ :: rest => requests rest
  end.

(** The answer of the backend to a list request. *)
Definition answered (es : list Card) (total : Z) : AdminAPI.Settled ListData :=
  AdminAPI.Resolved
    (AdminAPI.mkResponse true None (Some (mkListData (Some es) (Some total)))).

End UserApp.

(* ================================================================== *)
(** * Card lists, chart labels and chart data *)
(* ================================================================== *)

Module CardFactory.

Section Nodes.
(** The data of a card and the element its [render()] creates. *)
Variable Data : Type.
Variable Node : Type.
Variable render : Data -> Node.

(** [renderCards(container, cards)]: the children of the container
    afterwards. *)
Definition renderCards (children : list Node) (cards : list Data) : list Node :=
  fold_left (fun children card => children ++ [render card]) cards [].

(** [existingCards[index].replaceWith(newCard)]: the element at a
    position of the container gives way to another. *)
Fixpoint replaceAt (index : nat) (node : Node) (children : list Node) : list Node :=
  match children, index with
  | [], _ => []
  | _ :: rest, O => node :: rest
  | c :: rest, S index' => c :: replaceAt index' node rest
  end.

(** The [forEach] of [updateCards], from position [index] on;
    [existing] is the number of elements in the snapshot taken at the
    start. *)
Fixpoint updateFrom (existing index : nat) (children : list Node) (cards : list Data)
  : list Node :=
  match cards with
  | [] => children
  | card :: rest =>
      let children :=
        if Nat.ltb index existing
        then replaceAt index (render card) children
        else children ++ [render card] in
      updateFrom existing (S index) children rest
  end.

(** [updateCards(container, cards)]: the excess elements are removed,
    then the cards replace the elements in place or are appended. *)
Definition updateCards (children : list Node) (cards : list Data) : list Node :=
  let existing := List.length children in
  let children :=
    if Nat.ltb (List.length cards) existing
    then firstn (List.length cards) children
    else children in
  updateFrom existing 0 children cards.

End Nodes.

End CardFactory.

Module CategoryChart.

(** [text.substring(0, n)] *)
Definition substring0 (text : JsString) (n : Z) : JsString :=
  firstn (Z.to_nat n) text.

Definition truncateText (text : JsString) (maxLength : Z) : JsString :=
  if len text <=? maxLength then text
  else substring0 text (maxLength - 3) ++ lit "...".

(** An entry of the chart data: [{ name, count }]. *)
Definition Counts : Type := list (JsString * Z).

(** [counts[category] = (counts[category] || 0) + 1] on the object used
    as a map, its keys in the order of their first assignment. Keys that
    name a member of [Object.prototype] are outside the model, and so is
    the place that keys which are array indices take in the order. *)
Fixpoint increment (category : JsString) (counts : Counts) : Counts :=
  match counts with
  | [] => [(category, 0 + 1)]
  | (name, count) :: rest =>
      if Js.eqb name category then (name, count + 1) :: rest
      else (name, count) :: increment category rest
  end.

(** [entry.category || 'Uncategorized'] *)
Definition categoryOf (category : option JsString) : JsString :=
  orElse category (lit "Uncategorized").

(** [updateCategoryChart(entries)]: the data handed to the chart, from
    the [category] fields of the entries. *)
Definition updateCategoryChart (categories : list (option JsString)) : Counts :=
  fold_left (fun counts category => increment (categoryOf category) counts) categories [].

(** The member names of [Object.prototype]. *)
Definition inheritedNames : list JsString :=
  [lit "constructor"; lit "hasOwnProperty"; lit "isPrototypeOf";
   lit "propertyIsEnumerable"; lit "toLocaleString"; lit "toString"; lit "valueOf";
   lit "__proto__"; lit "__defineGetter__"; lit "__defineSetter__";
   lit "__lookupGetter__"; lit "__lookupSetter__"].

(** How many of the entries fall into a category. *)
Definition occurrences (name : JsString) (categories : list (option JsString)) : Z :=
  Z.of_nat (List.length (filter (fun c => Js.eqb (categoryOf c) name) categories)).

Definition total (counts : Counts) : Z := fold_right Z.add 0 (map snd counts).

End CategoryChart.

(* ================================================================== *)
(** * Observations on the runs of the public application *)
(* ================================================================== *)

Module PublicTrace.

Import UserApp.

(** Parameters of a list request as the public application builds them. *)
Definition SentParams (p : AdminApp.ListParams) : Prop :=
  AdminApp.size p = 12 /\
  AdminFilters.pStartDate (AdminApp.filterParams p) =
    AdminFilters.pEndDate (AdminApp.filterParams p) /\
  match AdminFilters.pSearch (AdminApp.filterParams p) with
  | None => True
  | Some s => s <> [] /\ trim s = s
  end.

(** What holds between two events: the loading flag tells whether a
    request is in flight, of which there is at most one; the stored
    search text is trimmed; the pagination component keeps its page size
    and its callback; the page of the application is the page of the
    component, or 1; every request sent had parameters of the kind
    above. *)
Definition Steady (w : World) : Prop :=
  (if isLoading (app w) then List.length (pending w) = 1%nat else pending w = []) /\
  trim (search (Filters.filters (filters (app w)))) =
    search (Filters.filters (filters (app w))) /\
  Pagination.itemsPerPage (pagination (app w)) = 12 /\
  Pagination.onPageChange (pagination (app w)) = true /\
  (currentPage (app w) = Pagination.currentPage (pagination (app w)) \/
   currentPage (app w) = 1) /\
  Forall SentParams (requests (log w)).

End PublicTrace.

(* ================================================================== *)
(** * The search box and its debounce timer *)
(* ================================================================== *)

Module SearchBox.

(** The search input of a filter panel: the text it holds and, while a
    timeout is pending, the time at which it is due. *)
Record t : Type := mk {
  text : JsString;
  due : option Z;
  searchDebounceTime : Z
}.

(** The state built by the constructor when no debounce time is given. *)
Definition initial : t := mk Js.empty None 250.

(** A call of [handleSearchChange], by what made it. *)
Inductive Call : Type :=
| ByTimer (now : Z) (value : JsString)
| ByEnter (value : JsString).

Inductive Event : Type :=
| Typed (now : Z) (value : JsString)   (* input event: the box now holds [value] *)
| Elapsed (now : Z)                    (* the timers due at [now] are run *)
| EnterPressed
| ClearClicked.                        (* [clearAllFilters] empties the box *)

Definition step (b : t) (ev : Event) : t * list Call :=
  match ev with
  | Typed now value =>
      (mk value (Some (now + searchDebounceTime b)) (searchDebounceTime b), [])
  | Elapsed now =>
      match due b with
      | Some d =>
          if d <=? now
          then (mk (text b) None (searchDebounceTime b), [ByTimer now (text b)])
          else (b, [])
      | None => (b, [])
      end
  | EnterPressed => (mk (text b) None (searchDebounceTime b), [ByEnter (text b)])
  | ClearClicked => (mk Js.empty (due b) (searchDebounceTime b), [])
  end.

Fixpoint run (b : t) (evs : list Event) : t * list Call :=
  match evs with
  | [] => (b, [])
  | ev :: rest =>
      let '(b1, calls1) := step b ev in
      let '(b2, calls2) := run b1 rest in
      (b2, calls1 ++ calls2)
  end.

Definition isTyped (ev : Event) : bool :=
  match ev with Typed _ _ => true | _ => false end.
Definition isElapsed (ev : Event) : bool :=
  match ev with Elapsed _ => true | _ => false end.
Definition isByTimer (c : Call) : bool :=
  match c with ByTimer _ _ => true | _ => false end.

(** The keystrokes of a burst, as events. *)
Definition burst (keys : list (Z * JsString)) : list Event :=
  map (fun k => Typed (fst k) (snd k)) keys.

End SearchBox.

(* ================================================================== *)
(** * Login form of the public page *)
(* ================================================================== *)

Module LoginModal.

(** [String(x)] for a value that is a string or [undefined], as
    [sessionStorage.setItem] stores it. *)
Definition stored (x : option JsString) : JsString :=
  match x with
  | Some v => v
  | None => lit "undefined"
  end.

(** The fields [token] and [expiresAt] of [response.data]. *)
Record LoginData : Type := mkLoginData {
  dataToken : option JsString;
  expiresAt : option JsString
}.

Inductive Action : Type :=
| ShowToast (msg : JsString) (kind : ToastKind)
| RedirectToAdmin.            (* window.location.href = '../admin/', after 1500 ms *)

(** The submit handler from its [await] on: the session storage
    afterwards, and what is shown. *)
Definition loginSettled (s : AdminRequests.Session)
           (r : AdminAPI.Settled LoginData) : AdminRequests.Session * list Action :=
  match r with
  | AdminAPI.Resolved response =>
      if AdminAPI.success response then
        match AdminAPI.data response with
        | Some d =>
            (AdminRequests.mkSession (AdminRequests.baseUrl s) (AdminRequests.token s)
                                     (Some (stored (dataToken d)))
                                     (Some (stored (expiresAt d))),
             [ShowToast (lit "Login successful! Redirecting...") ToastSuccess;
              RedirectToAdmin])
        | None =>
            (s, [ShowToast (UserApp.handleError
                              (lit "Cannot read properties of undefined (reading 'token')")
                              (lit "Login failed")) ToastError])
        end
      else
        (s, [ShowToast (orElse (AdminAPI.message response) (lit "Login failed"))
                       ToastError])
  | AdminAPI.Rejected errorMessage =>
      (s, [ShowToast (UserApp.handleError errorMessage (lit "Login failed")) ToastError])
  end.

End LoginModal.

(* ================================================================== *)
(** * Properties *)
(* ================================================================== *)

(** ** Facts about strings *)

Lemma eqb_eq (a b : JsString) : Js.eqb a b = true <-> a = b.
Proof.
  revert b; induction a as [|x a IH]; intros [|y b]; simpl; split; intro H;
    try reflexivity; try discriminate.
  - apply andb_true_iff in H as [Hx Hr]. apply Z.eqb_eq in Hx.
    apply IH in Hr. now subst.
  - injection H as -> ->. rewrite Z.eqb_refl. simpl. now apply IH.
Qed.

Lemma eqb_refl (a : JsString) : Js.eqb a a = true.
Proof. now apply eqb_eq. Qed.

Lemma eqb_neq (a b : JsString) : Js.eqb a b = false <-> a <> b.
Proof.
  split.
  - intros H E. apply eqb_eq in E. congruence.
  - intro H. destruct (Js.eqb a b) eqn:E; [|reflexivity].
    apply eqb_eq in E. contradiction.
Qed.

Lemma len_nonneg (s : JsString) : 0 <= len s.
Proof. unfold len. lia. Qed.

Lemma len_nil_iff (s : JsString) : len s = 0 <-> s = [].
Proof.
  unfold len. destruct s; simpl; split; intro H; try reflexivity;
    try discriminate; lia.
Qed.

Lemma trimStart_length (s : JsString) : (List.length (trimStart s) <= List.length s)%nat.
Proof.
  induction s as [|c s IH]; simpl; [lia|].
  destruct (isWhiteSpace c); simpl; lia.
Qed.

Lemma trim_len_le (s : JsString) : len (trim s) <= len s.
Proof.
  unfold trim, trimEnd, len.
  pose proof (trimStart_length (rev (trimStart s))) as H1.
  pose proof (trimStart_length s) as H2.
  rewrite length_rev in *. lia.
Qed.

Lemma trim_nil : trim [] = [].
Proof. reflexivity. Qed.

(* ------------------------------------------------------------------ *)
(** ** Pagination window *)
(* ------------------------------------------------------------------ *)

Section PaginationWindow.
Import Pagination.

(** The counting loop appends the pages [i .. hi] one by one. *)
Lemma pushLoop_spec (fuel : nat) : forall i hi pages,
  Z.to_nat (hi - i + 1) = fuel ->
  pushLoop fuel i hi pages = pages ++ pagesFromTo i hi.
Proof.
  induction fuel as [|fuel IH]; intros i hi pages Hf.
  - simpl. unfold pagesFromTo. rewrite Hf. simpl. now rewrite app_nil_r.
  - simpl. destruct (i <=? hi) eqn:Hle; [|apply Z.leb_gt in Hle; lia].
    apply Z.leb_le in Hle.
    rewrite IH by lia.
    unfold pagesFromTo. rewrite Hf.
    replace (Z.to_nat (hi - (i + 1) + 1)) with fuel by lia.
    rewrite <- app_assoc. f_equal. cbn [seq map app].
    rewrite Z.add_0_r. f_equal.
    rewrite <- seq_shift, map_map.
    apply map_ext. intro k. f_equal. lia.
Qed.

(** More fuel than the loop needs changes nothing: the loop stops on its
    own condition. *)
Lemma pushLoop_enough_fuel (extra : nat) : forall fuel i hi pages,
  Z.to_nat (hi - i + 1) = fuel ->
  pushLoop (fuel + extra) i hi pages = pushLoop fuel i hi pages.
Proof.
  intros fuel; induction fuel as [|fuel IH]; intros i hi pages Hf.
  - simpl. destruct extra; simpl; [reflexivity|].
    destruct (i <=? hi) eqn:Hle; [apply Z.leb_le in Hle; lia|reflexivity].
  - simpl. destruct (i <=? hi); [|reflexivity]. apply IH. lia.
Qed.

Lemma pushRange_spec (lo hi : Z) (pages : list PageItem) :
  pushRange lo hi pages = pages ++ pagesFromTo lo hi.
Proof. unfold pushRange. now apply pushLoop_spec. Qed.


Lemma pagesFromTo_len (lo hi : Z) (k : nat) :
  hi - lo + 1 = Z.of_nat k ->
  pagesFromTo lo hi = map (fun j => PageNum (lo + Z.of_nat j)) (seq 0 k).
Proof. intro H. unfold pagesFromTo. rewrite H, Nat2Z.id. reflexivity. Qed.

(** C1. For 1 <= currentPage <= totalPages the page-number window is:
    every page 1..totalPages when totalPages <= 7; otherwise
    [1,2,3,4,5,...,last] when currentPage <= 4,
    [1,...,last-4,last-3,last-2,last-1,last] when currentPage >= last-3,
    and [1,...,current-1,current,current+1,...,last] in between.
    For ten pages: page 1 gives [1,2,3,4,5,...,10], page 10 gives
    [1,...,6,7,8,9,10] and page 5 gives [1,...,4,5,6,...,10]. *)
Theorem getPageNumbers_window (p : Pagination.t) :
  1 <= currentPage p <= totalPages p ->
  let cp := currentPage p in
  let tp := totalPages p in
  (tp <= 7 -> getPageNumbers p = pagesFromTo 1 tp) /\
  (7 < tp -> cp <= 4 ->
     getPageNumbers p =
     [PageNum 1; PageNum 2; PageNum 3; PageNum 4; PageNum 5; Ellipsis; PageNum tp]) /\
  (7 < tp -> tp - 3 <= cp ->
     getPageNumbers p =
     [PageNum 1; Ellipsis; PageNum (tp - 4); PageNum (tp - 3); PageNum (tp - 2);
      PageNum (tp - 1); PageNum tp]) /\
  (7 < tp -> 4 < cp -> cp < tp - 3 ->
     getPageNumbers p =
     [PageNum 1; Ellipsis; PageNum (cp - 1); PageNum cp; PageNum (cp + 1);
      Ellipsis; PageNum tp]) /\
  (tp = 10 -> cp = 1 ->
     getPageNumbers p =
     [PageNum 1; PageNum 2; PageNum 3; PageNum 4; PageNum 5; Ellipsis; PageNum 10]) /\
  (tp = 10 -> cp = 10 ->
     getPageNumbers p =
     [PageNum 1; Ellipsis; PageNum 6; PageNum 7; PageNum 8; PageNum 9; PageNum 10]) /\
  (tp = 10 -> cp = 5 ->
     getPageNumbers p =
     [PageNum 1; Ellipsis; PageNum 4; PageNum 5; PageNum 6; Ellipsis; PageNum 10]).
Proof.
  intros Hrange cp tp.
  assert (Hall : tp <= 7 -> getPageNumbers p = pagesFromTo 1 tp).
  { intro H. unfold getPageNumbers, maxVisible. fold tp.
    apply Z.leb_le in H. rewrite H. now rewrite pushRange_spec. }
  assert (Hstart : 7 < tp -> cp <= 4 ->
     getPageNumbers p =
     [PageNum 1; PageNum 2; PageNum 3; PageNum 4; PageNum 5; Ellipsis; PageNum tp]).
  { intros H7 H4. unfold getPageNumbers, maxVisible. fold tp cp.
    apply Z.leb_gt in H7. rewrite H7.
    apply Z.leb_le in H4. rewrite H4. reflexivity. }
  assert (Hend : 7 < tp -> tp - 3 <= cp ->
     getPageNumbers p =
     [PageNum 1; Ellipsis; PageNum (tp - 4); PageNum (tp - 3); PageNum (tp - 2);
      PageNum (tp - 1); PageNum tp]).
  { intros H7 H3. unfold getPageNumbers, maxVisible. fold tp cp.
    assert (Hcp : 4 < cp) by lia.
    apply Z.leb_gt in H7, Hcp. rewrite H7, Hcp.
    apply Z.leb_le in H3. rewrite H3.
    rewrite pushRange_spec, (pagesFromTo_len _ _ 5) by lia.
    cbn [seq map app Z.of_nat Pos.of_succ_nat Pos.succ].
    repeat (f_equal; try lia). }
  assert (Hmid : 7 < tp -> 4 < cp -> cp < tp - 3 ->
     getPageNumbers p =
     [PageNum 1; Ellipsis; PageNum (cp - 1); PageNum cp; PageNum (cp + 1);
      Ellipsis; PageNum tp]).
  { intros H7 H4 H3. unfold getPageNumbers, maxVisible. fold tp cp.
    apply Z.leb_gt in H7, H4, H3. rewrite H7, H4, H3.
    rewrite pushRange_spec, (pagesFromTo_len _ _ 3) by lia.
    cbn [seq map app Z.of_nat Pos.of_succ_nat Pos.succ].
    repeat (f_equal; try lia). }
  repeat split; try assumption.
  - intros Ht Hc. rewrite Hstart by lia. now rewrite Ht.
  - intros Ht Hc. rewrite Hend by lia. rewrite Ht. reflexivity.
  - intros Ht Hc. rewrite Hmid by lia. rewrite Ht, Hc. reflexivity.
Qed.

Lemma getPageNumbers_window_witness :
  1 <= 5 <= 10 /\
  getPageNumbers (Pagination.mk true 5 10 115 12 true) =
  [PageNum 1; Ellipsis; PageNum 4; PageNum 5; PageNum 6; Ellipsis; PageNum 10].
Proof.
  split; [lia|].
  apply (getPageNumbers_window (Pagination.mk true 5 10 115 12 true)); simpl; lia.
Defined.

End PaginationWindow.

(* ------------------------------------------------------------------ *)
(** ** Numbers printed into attributes are read back by [parseInt] *)
(* ------------------------------------------------------------------ *)

Section DecimalRoundTrip.

Import Spec.

Lemma DigitsValue_nil : DigitsValue [] 0.
Proof. intro a. simpl. f_equal. unfold len. simpl. lia. Qed.

Lemma isDigit_of_mod (n : Z) : isDigit (48 + n mod 10) = true.
Proof.
  unfold isDigit. pose proof (Z.mod_pos_bound n 10 ltac:(lia)).
  apply andb_true_iff. split; apply Z.leb_le; lia.
Qed.

Lemma len_cons (c : Z) (s : JsString) : len (c :: s) = len s + 1.
Proof. unfold len. simpl List.length. lia. Qed.

Lemma DigitsValue_cons (n : Z) (acc : JsString) (v : Z) :
  DigitsValue acc v ->
  DigitsValue ((48 + n mod 10) :: acc) (n mod 10 * 10 ^ len acc + v).
Proof.
  intros H a. cbn [readDigits]. rewrite isDigit_of_mod, H, len_cons.
  f_equal. rewrite Z.pow_add_r by (pose proof (len_nonneg acc); lia). lia.
Qed.

Lemma readDigits_fresh_cons (n : Z) (acc : JsString) (v : Z) :
  DigitsValue acc v ->
  readDigits ((48 + n mod 10) :: acc) None = Some (n mod 10 * 10 ^ len acc + v).
Proof.
  intro H. cbn [readDigits]. rewrite isDigit_of_mod, H. f_equal. lia.
Qed.

Lemma readDigits_digitsOf (fuel : nat) : forall n acc v,
  0 <= n -> n < 2 ^ Z.of_nat fuel -> fuel <> O ->
  DigitsValue acc v ->
  readDigits (digitsOf fuel n acc) None = Some (n * 10 ^ len acc + v).
Proof.
  induction fuel as [|fuel IH]; intros n acc v Hn Hlt Hf Hacc; [contradiction|].
  cbn [digitsOf].
  pose proof (Z.div_mod n 10 ltac:(lia)) as Hdm.
  destruct (n / 10 =? 0) eqn:Hq.
  - apply Z.eqb_eq in Hq. rewrite readDigits_fresh_cons with (v := v) by assumption.
    f_equal. nia.
  - apply Z.eqb_neq in Hq.
    assert (Hq0 : 0 < n / 10).
    { pose proof (Z.div_pos n 10 Hn ltac:(lia)). lia. }
    assert (Hq2 : n / 10 < 2 ^ Z.of_nat fuel).
    { rewrite Nat2Z.inj_succ, Z.pow_succ_r in Hlt by lia.
      apply Z.div_lt_upper_bound; lia. }
    assert (Hfuel : fuel <> O).
    { intros ->. simpl in Hq2. lia. }
    rewrite (IH (n / 10) _ (n mod 10 * 10 ^ len acc + v)); try assumption; try lia.
    + f_equal. rewrite len_cons.
      rewrite Z.pow_add_r by (pose proof (len_nonneg acc); lia). nia.
    + now apply DigitsValue_cons.
Qed.

Lemma digitsOf_head (fuel : nat) : forall n acc,
  (fuel <> O \/ exists d r, acc = d :: r /\ isDigit d = true) ->
  exists d r, digitsOf fuel n acc = d :: r /\ isDigit d = true.
Proof.
  induction fuel as [|fuel IH]; intros n acc [Hf|Hacc]; try contradiction.
  - exact Hacc.
  - cbn [digitsOf]. destruct (n / 10 =? 0).
    + eexists _, _. split; [reflexivity|apply isDigit_of_mod].
    + apply IH. right. eexists _, _. split; [reflexivity|apply isDigit_of_mod].
  - cbn [digitsOf]. destruct (n / 10 =? 0).
    + eexists _, _. split; [reflexivity|apply isDigit_of_mod].
    + apply IH. right. eexists _, _. split; [reflexivity|apply isDigit_of_mod].
Qed.

Lemma log2_fuel (n : Z) : 0 <= n -> n < 2 ^ Z.of_nat (S (Z.to_nat (Z.log2 n))).
Proof.
  intro Hn. rewrite Nat2Z.inj_succ, Z2Nat.id by apply Z.log2_nonneg.
  destruct (Z.eq_dec n 0) as [->|Hz]; [simpl; lia|].
  apply Z.log2_spec. lia.
Qed.

Lemma digit_not_space_or_sign (d : Z) :
  isDigit d = true -> isWhiteSpace d = false /\ d <> 45 /\ d <> 43.
Proof.
  unfold isDigit. intro H. apply andb_true_iff in H as [H1 H2].
  apply Z.leb_le in H1, H2.
  assert (Hd : d = 48 \/ d = 49 \/ d = 50 \/ d = 51 \/ d = 52 \/ d = 53 \/
               d = 54 \/ d = 55 \/ d = 56 \/ d = 57) by lia.
  repeat (destruct Hd as [->|Hd]; [repeat split; (reflexivity || lia)|]).
  subst d. repeat split; (reflexivity || lia).
Qed.

Lemma parseInt10_digits (s : JsString) (d : Z) (r : JsString) :
  s = d :: r -> isDigit d = true -> parseInt10 s = readDigits s None.
Proof.
  intros -> Hd. destruct (digit_not_space_or_sign d Hd) as (Hw & H45 & H43).
  unfold parseInt10. cbn [trimStart]. rewrite Hw.
  destruct d as [|q|q]; try reflexivity.
  do 6 (destruct q as [q|q|]; try reflexivity); lia.
Qed.

(** [parseInt(String(n), 10) === n] for every integer [n]. *)
Lemma parseInt10_numberToString (n : Z) : parseInt10 (numberToString n) = Some n.
Proof.
  unfold numberToString. destruct (n <? 0) eqn:Hneg.
  - apply Z.ltb_lt in Hneg. unfold parseInt10. cbn [trimStart isWhiteSpace].
    replace (isWhiteSpace 45) with false by reflexivity.
    rewrite readDigits_digitsOf with (v := 0);
      [ | lia | apply log2_fuel; lia | discriminate | apply DigitsValue_nil ].
    simpl. f_equal. unfold len. simpl. lia.
  - apply Z.ltb_ge in Hneg.
    destruct (digitsOf_head (S (Z.to_nat (Z.log2 n))) n []) as (d & r & Heq & Hd);
      [left; discriminate|].
    rewrite (parseInt10_digits _ d r Heq Hd).
    rewrite readDigits_digitsOf with (v := 0);
      [ | lia | apply log2_fuel; lia | discriminate | apply DigitsValue_nil ].
    f_equal. unfold len. simpl. lia.
Qed.

End DecimalRoundTrip.

(* ------------------------------------------------------------------ *)
(** ** Clicks on the pagination controls *)
(* ------------------------------------------------------------------ *)

Section PaginationClicks.
Import Pagination.

Lemma callbackCount_render (p : Pagination.t) : callbackCount (render p) = 0%nat.
Proof.
  unfold render. destruct (negb (container p)); [reflexivity|].
  destruct (totalPages p <=? 1); reflexivity.
Qed.

Lemma handlePageClick_prev (p : Pagination.t) :
  handlePageClick p (lit "prev") = commitPage p (Z.max 1 (currentPage p - 1)).
Proof. reflexivity. Qed.

Lemma handlePageClick_next (p : Pagination.t) :
  handlePageClick p (lit "next") =
  commitPage p (Z.min (totalPages p) (currentPage p + 1)).
Proof. reflexivity. Qed.

Lemma handlePageClick_number (p : Pagination.t) (page : JsString) (n : Z) :
  parseInt10 page = Some n -> handlePageClick p page = commitPage p n.
Proof.
  intro H. unfold handlePageClick.
  destruct (Js.eqb page (lit "prev")) eqn:E1.
  { apply eqb_eq in E1. subst page. discriminate H. }
  destruct (Js.eqb page (lit "next")) eqn:E2.
  { apply eqb_eq in E2. subst page. discriminate H. }
  rewrite H. reflexivity.
Qed.

Lemma commitPage_moves (p : Pagination.t) (n : Z) :
  n <> currentPage p -> 1 <= n <= totalPages p ->
  currentPage (fst (commitPage p n)) = n /\
  (onPageChange p = true ->
   callbackCount (snd (commitPage p n)) = 1%nat /\
   In (CallOnPageChange n) (snd (commitPage p n))).
Proof.
  intros Hne [H1 H2]. unfold commitPage.
  apply Z.eqb_neq in Hne. apply Z.leb_le in H1, H2. rewrite Hne, H1, H2.
  cbn [negb andb fst snd]. split; [reflexivity|].
  intros ->. split; [|now left].
  unfold callbackCount. cbn [app filter List.length].
  f_equal. apply callbackCount_render.
Qed.

Lemma commitPage_stays (p : Pagination.t) (n : Z) :
  n = currentPage p \/ n < 1 \/ totalPages p < n ->
  commitPage p n = (p, []).
Proof.
  intros H. unfold commitPage.
  destruct (n =? currentPage p) eqn:E; [reflexivity|]. apply Z.eqb_neq in E.
  destruct (1 <=? n) eqn:E1; [|reflexivity]. apply Z.leb_le in E1.
  destruct (n <=? totalPages p) eqn:E2; [|reflexivity]. apply Z.leb_le in E2.
  lia.
Qed.

Lemma commitPage_cases (p : Pagination.t) (n : Z) :
  (n <> currentPage p /\ 1 <= n <= totalPages p) \/
  (n = currentPage p \/ n < 1 \/ totalPages p < n).
Proof. lia. Qed.

(** Whatever was clicked, the page either stays (and nothing happens) or
    moves into [1, totalPages] with one callback carrying the new page. *)
Lemma handlePageClick_outcome (p : Pagination.t) (page : JsString) :
  handlePageClick p page = (p, []) \/
  (currentPage (fst (handlePageClick p page)) <> currentPage p /\
   1 <= currentPage (fst (handlePageClick p page)) <= totalPages p /\
   (onPageChange p = true ->
    callbackCount (snd (handlePageClick p page)) = 1%nat /\
    In (CallOnPageChange (currentPage (fst (handlePageClick p page))))
       (snd (handlePageClick p page)))).
Proof.
  assert (Hc : forall n, commitPage p n = (p, []) \/
    (currentPage (fst (commitPage p n)) <> currentPage p /\
     1 <= currentPage (fst (commitPage p n)) <= totalPages p /\
     (onPageChange p = true ->
      callbackCount (snd (commitPage p n)) = 1%nat /\
      In (CallOnPageChange (currentPage (fst (commitPage p n))))
         (snd (commitPage p n))))).
  { intro n. destruct (commitPage_cases p n) as [[Hne Hr]|Hs].
    - right. destruct (commitPage_moves p n Hne Hr) as [Hcp Hcb].
      rewrite !Hcp. auto.
    - left. now apply commitPage_stays. }
  destruct (Js.eqb page (lit "prev")) eqn:E1.
  { apply eqb_eq in E1. subst page. rewrite handlePageClick_prev. apply Hc. }
  destruct (Js.eqb page (lit "next")) eqn:E2.
  { apply eqb_eq in E2. subst page. rewrite handlePageClick_next. apply Hc. }
  destruct (parseInt10 page) as [n|] eqn:E3.
  - rewrite (handlePageClick_number p page n E3). apply Hc.
  - left. unfold handlePageClick. rewrite E1, E2, E3. reflexivity.
Qed.

(** C8 (as the code has it). In a state with
    1 <= currentPage <= totalPages, 'previous' moves to
    max(1, currentPage-1) and 'next' to min(totalPages, currentPage+1);
    in any state they move there only when that target lies in
    [1, totalPages], and otherwise change nothing. A click on a page
    number below 1 or above totalPages changes nothing; a click on the
    current page changes nothing and fires no callback; any click that
    changes the page fires the registered callback exactly once, with
    the new page. *)
Theorem handlePageClick_clamped (p : Pagination.t) :
  let cp := currentPage p in
  let tp := totalPages p in
  (* previous and next in a well-formed state *)
  (1 <= cp <= tp ->
     currentPage (fst (handlePageClick p (lit "prev"))) = Z.max 1 (cp - 1) /\
     currentPage (fst (handlePageClick p (lit "next"))) = Z.min tp (cp + 1)) /\
  (* previous and next in any state *)
  (currentPage (fst (handlePageClick p (lit "prev"))) =
     if Z.max 1 (cp - 1) <=? tp then Z.max 1 (cp - 1) else cp) /\
  (currentPage (fst (handlePageClick p (lit "next"))) =
     if 1 <=? Z.min tp (cp + 1) then Z.min tp (cp + 1) else cp) /\
  (* page numbers out of range, and the current page *)
  (forall page n, parseInt10 page = Some n -> n < 1 \/ tp < n ->
     handlePageClick p page = (p, [])) /\
  (forall n, n < 1 \/ tp < n -> handlePageClick p (pageAttr n) = (p, [])) /\
  (forall page, parseInt10 page = Some cp -> handlePageClick p page = (p, [])) /\
  handlePageClick p (pageAttr cp) = (p, []) /\
  (* every click: nothing at all, or one callback with the new page *)
  (forall page,
     let r := handlePageClick p page in
     (currentPage (fst r) = cp -> r = (p, [])) /\
     (currentPage (fst r) <> cp ->
        1 <= currentPage (fst r) <= tp /\
        (onPageChange p = true ->
           callbackCount (snd r) = 1%nat /\
           In (CallOnPageChange (currentPage (fst r))) (snd r)))).
Proof.
  intros cp tp.
  assert (Hprev : currentPage (fst (handlePageClick p (lit "prev"))) =
     if Z.max 1 (cp - 1) <=? tp then Z.max 1 (cp - 1) else cp).
  { rewrite handlePageClick_prev. fold cp.
    destruct (commitPage_cases p (Z.max 1 (cp - 1))) as [[Hne Hr]|Hs].
    - destruct (commitPage_moves p _ Hne Hr) as [-> _].
      fold tp in Hr. destruct Hr as [_ Hr]. apply Z.leb_le in Hr. now rewrite Hr.
    - rewrite (commitPage_stays p _ Hs). cbn [fst]. fold cp tp in Hs |- *.
      destruct (Z.max 1 (cp - 1) <=? tp) eqn:E; [|reflexivity].
      apply Z.leb_le in E. lia. }
  assert (Hnext : currentPage (fst (handlePageClick p (lit "next"))) =
     if 1 <=? Z.min tp (cp + 1) then Z.min tp (cp + 1) else cp).
  { rewrite handlePageClick_next. fold cp tp.
    destruct (commitPage_cases p (Z.min tp (cp + 1))) as [[Hne Hr]|Hs].
    - destruct (commitPage_moves p _ Hne Hr) as [-> _].
      destruct Hr as [Hr _]. apply Z.leb_le in Hr. now rewrite Hr.
    - rewrite (commitPage_stays p _ Hs). cbn [fst]. fold cp tp in Hs |- *.
      destruct (1 <=? Z.min tp (cp + 1)) eqn:E; [|reflexivity].
      apply Z.leb_le in E. lia. }
  split; [|split; [exact Hprev|split; [exact Hnext|]]].
  { intros Hwf. rewrite Hprev, Hnext.
    replace (Z.max 1 (cp - 1) <=? tp) with true by (symmetry; apply Z.leb_le; lia).
    replace (1 <=? Z.min tp (cp + 1)) with true by (symmetry; apply Z.leb_le; lia).
    split; reflexivity. }
  split; [|split; [|split; [|split]]].
  - intros page n Hp Hout. rewrite (handlePageClick_number p page n Hp).
    apply commitPage_stays. fold tp. lia.
  - intros n Hout. unfold pageAttr.
    rewrite (handlePageClick_number p _ n (parseInt10_numberToString n)).
    apply commitPage_stays. fold tp. lia.
  - intros page Hp. rewrite (handlePageClick_number p page cp Hp).
    apply commitPage_stays. now left.
  - unfold pageAttr.
    rewrite (handlePageClick_number p _ cp (parseInt10_numberToString cp)).
    apply commitPage_stays. now left.
  - intros page r. subst r.
    destruct (handlePageClick_outcome p page) as [Hs|(Hne & Hr & Hcb)].
    + rewrite Hs. cbn [fst snd]. split; [reflexivity|]. intro H. now elim H.
    + split; [intro H; now elim Hne|]. intros _. split; assumption.
Qed.

Lemma handlePageClick_clamped_witness :
  1 <= 3 <= 10 /\
  currentPage (fst (handlePageClick (Pagination.mk true 3 10 115 12 true) (lit "prev"))) = 2 /\
  currentPage (fst (handlePageClick (Pagination.mk true 3 10 115 12 true) (lit "next"))) = 4.
Proof.
  split; [lia|].
  apply (handlePageClick_clamped (Pagination.mk true 3 10 115 12 true)).
  simpl. lia.
Defined.

(** C8 as stated fails where the current page lies beyond the last one.
    The orchestrator hands its own page to [update] together with the new
    page count, so after the list has shrunk the controller can be on
    page 4 of 2; there 'previous' does not move to max(1, 4-1) = 3 but
    stays on page 4, and nothing fires. *)
Lemma handlePageClick_prev_beyond_last :
  let p := fst (update (Pagination.mk true 4 4 40 12 true) 4 2 13) in
  currentPage p = 4 /\ totalPages p = 2 /\
  handlePageClick p (lit "prev") = (p, []) /\
  currentPage (fst (handlePageClick p (lit "prev"))) <> Z.max 1 (currentPage p - 1).
Proof.
  split; [reflexivity|]. split; [reflexivity|]. split; [reflexivity|].
  vm_compute. discriminate.
Qed.

End PaginationClicks.

(* ------------------------------------------------------------------ *)
(** ** Length rules on the search query *)
(* ------------------------------------------------------------------ *)

Section SearchRule.
Import Validators Spec.

Lemma isBlank_true_iff (s : JsString) : isBlank s = true <-> trim s = [].
Proof.
  unfold isBlank, Js.empty. rewrite orb_true_iff, !eqb_eq. split.
  - intros [->| H]; [reflexivity|assumption].
  - intro H. now right.
Qed.

Lemma isBlank_false_iff (s : JsString) : isBlank s = false <-> trim s <> [].
Proof.
  split.
  - intros H E. apply isBlank_true_iff in E. congruence.
  - intro H. destruct (isBlank s) eqn:E; [|reflexivity].
    apply isBlank_true_iff in E. contradiction.
Qed.

Lemma validateSearchQuery_blank (s : JsString) :
  trim s = [] -> validateSearchQuery s = pass.
Proof.
  intro H. unfold validateSearchQuery.
  apply isBlank_true_iff in H. now rewrite H.
Qed.

Lemma validateSearchQuery_short (s : JsString) :
  trim s <> [] -> len (trim s) < 3 ->
  validateSearchQuery s = fail (lit "Search query must be at least 3 characters long").
Proof.
  intros H Hl. unfold validateSearchQuery.
  apply isBlank_false_iff in H. rewrite H.
  apply Z.ltb_lt in Hl. now rewrite Hl.
Qed.

Lemma validateSearchQuery_long (s : JsString) :
  100 < len (trim s) ->
  validateSearchQuery s = fail (lit "Search query must not exceed 100 characters").
Proof.
  intros Hl. unfold validateSearchQuery.
  assert (H : trim s <> []).
  { intro E. rewrite E in Hl. unfold len in Hl. simpl in Hl. lia. }
  apply isBlank_false_iff in H. rewrite H.
  replace (len (trim s) <? 3) with false by (symmetry; apply Z.ltb_ge; lia).
  apply Z.ltb_lt in Hl. now rewrite Hl.
Qed.

Lemma validateSearchQuery_ok (s : JsString) :
  3 <= len (trim s) <= 100 -> validateSearchQuery s = pass.
Proof.
  intros [H3 H100]. unfold validateSearchQuery.
  destruct (isBlank s); [reflexivity|].
  replace (len (trim s) <? 3) with false by (symmetry; apply Z.ltb_ge; lia).
  replace (100 <? len (trim s)) with false by (symmetry; apply Z.ltb_ge; lia).
  reflexivity.
Qed.

Lemma admin_search_passes (c : AdminFilters.t) (s : JsString) :
  validateSearchQuery s = pass -> AdminCommitted c s.
Proof.
  intro H. unfold AdminCommitted, AdminFilters.handleSearchChange.
  rewrite H. cbn [valid pass negb fst snd].
  unfold AdminFilters.notifyFiltersChange, AdminFilters.setFilters,
    AdminFilters.clearSearchError.
  destruct c as [f cb si se]. destruct si, cb; cbn;
    repeat split; auto; try discriminate.
Qed.

Lemma admin_search_fails (c : AdminFilters.t) (s msg : JsString) :
  validateSearchQuery s = fail msg -> msg <> [] ->
  AdminFilters.handleSearchChange c s = (AdminFilters.showSearchError c msg, []) /\
  AdminRejected c s msg.
Proof.
  intros H Hm.
  assert (E : AdminFilters.handleSearchChange c s =
              (AdminFilters.showSearchError c msg, [])).
  { unfold AdminFilters.handleSearchChange. rewrite H. cbn [valid fail negb message].
    destruct msg; [contradiction|reflexivity]. }
  split; [exact E|]. unfold AdminRejected. rewrite E. cbn [fst snd].
  unfold AdminFilters.showSearchError.
  destruct (AdminFilters.searchInput c); cbn; repeat split; auto; discriminate.
Qed.

Lemma public_search_passes (c : Filters.t) (s : JsString) :
  2 <= len s \/ len s = 0 -> PublicCommitted c s.
Proof.
  intro H. unfold PublicCommitted, Filters.handleSearchChange.
  replace ((2 <=? len s) || (len s =? 0)) with true.
  2:{ symmetry. apply orb_true_iff.
      destruct H as [H|H]; [left; now apply Z.leb_le|right; now apply Z.eqb_eq]. }
  cbn [fst snd]. unfold Filters.notifyFiltersChange.
  destruct c as [f cb]. destruct cb; cbn; repeat split; auto; try discriminate.
Qed.

Lemma public_search_fails (c : Filters.t) (s : JsString) :
  s <> [] -> len s < 2 -> PublicRejected c s.
Proof.
  intros Hne Hl. unfold PublicRejected, Filters.handleSearchChange.
  replace (2 <=? len s) with false by (symmetry; apply Z.leb_gt; lia).
  replace (len s =? 0) with false; [reflexivity|].
  symmetry. apply Z.eqb_neq. intro E. apply len_nil_iff in E. contradiction.
Qed.

(** C2 (as the code has it). The empty string is accepted on both
    surfaces and clears the query. On the admin surface a query that is
    not blank and whose trimmed length is below 3 is rejected: filter
    state unchanged, no notification, inline message shown; a blank
    (white-space only) query is accepted as the empty query. On the
    public surface a non-empty string shorter than 2 is ignored with
    filter state unchanged. A string of length at least 2 (public), or
    of trimmed length between 3 and 100 (admin), is committed to filter
    state, trimmed, and the change is notified. *)
Theorem search_length_rule (ca : AdminFilters.t) (cp : Filters.t) (s : JsString) :
  (s = [] ->
     PublicCommitted cp s /\ AdminCommitted ca s /\
     search (Filters.filters (fst (Filters.handleSearchChange cp s))) = [] /\
     search (AdminFilters.filters (fst (AdminFilters.handleSearchChange ca s))) = []) /\
  (trim s <> [] -> len (trim s) < 3 ->
     AdminRejected ca s (lit "Search query must be at least 3 characters long")) /\
  (trim s = [] ->
     AdminCommitted ca s /\
     search (AdminFilters.filters (fst (AdminFilters.handleSearchChange ca s))) = []) /\
  (s <> [] -> len s < 2 -> PublicRejected cp s) /\
  (2 <= len s -> PublicCommitted cp s) /\
  (3 <= len (trim s) <= 100 -> AdminCommitted ca s).
Proof.
  assert (Hblank : trim s = [] ->
     AdminCommitted ca s /\
     search (AdminFilters.filters (fst (AdminFilters.handleSearchChange ca s))) = []).
  { intro H. pose proof (admin_search_passes ca s (validateSearchQuery_blank s H)) as Hc.
    split; [exact Hc|]. destruct Hc as [-> _]. exact H. }
  split; [|split; [|split; [|split; [|split]]]].
  - intros ->. split; [|split; [|split]].
    + apply public_search_passes. now right.
    + now apply Hblank.
    + pose proof (public_search_passes cp [] (or_intror eq_refl)) as [-> _].
      reflexivity.
    + now apply Hblank.
  - intros Hne Hl.
    apply (admin_search_fails ca s); [now apply validateSearchQuery_short|discriminate].
  - exact Hblank.
  - apply public_search_fails.
  - intro H. apply public_search_passes. now left.
  - intro H. apply admin_search_passes. now apply validateSearchQuery_ok.
Qed.

Lemma search_length_rule_witness :
  3 <= len (trim (lit " web ")) <= 100 /\
  Spec.AdminCommitted Samples.adminFilters (lit " web ") /\
  lit "a" <> [] /\ len (lit "a") < 2 /\
  Spec.PublicRejected Samples.publicFilters (lit "a").
Proof.
  split; [vm_compute; split; discriminate|].
  split; [apply (search_length_rule Samples.adminFilters Samples.publicFilters (lit " web "));
          vm_compute; split; discriminate|].
  split; [discriminate|]. split; [reflexivity|].
  apply (search_length_rule Samples.adminFilters Samples.publicFilters (lit "a"));
    [discriminate|reflexivity].
Defined.

(** C2 as stated fails on the admin surface at two inputs. A single
    space is non-empty with trimmed length 0 < 3, yet it is accepted
    (committed as the empty query, with a notification). A query of 101
    characters meets the minimum of 3, yet it is rejected. *)
Lemma search_length_rule_as_stated_fails :
  (lit " " <> [] /\ len (trim (lit " ")) < 3 /\
   ~ Spec.AdminRejected Samples.adminFilters (lit " ")
       (lit "Search query must be at least 3 characters long") /\
   Spec.AdminCommitted Samples.adminFilters (lit " ")) /\
  (3 <= len (trim Samples.longQuery) /\
   ~ Spec.AdminCommitted Samples.adminFilters Samples.longQuery /\
   snd (AdminFilters.handleSearchChange Samples.adminFilters Samples.longQuery) = []).
Proof.
  split.
  - split; [discriminate|]. split; [reflexivity|]. split.
    + intros (_ & H & _). vm_compute in H. discriminate.
    + apply admin_search_passes. reflexivity.
  - split; [vm_compute; discriminate|]. split; [|reflexivity].
    intros (_ & _ & H & _). vm_compute in H. exact H.
Qed.

End SearchRule.

(* ------------------------------------------------------------------ *)
(** ** Bounds enforced by the admin filters *)
(* ------------------------------------------------------------------ *)

Section AdminFilterBounds.
Import Validators Spec AdminApp.

Variable pf : Platform.

(** A refused query leaves the orchestrator as it was, but for the
    inline message. *)
Lemma step_search_rejected (w : World) (s msg : JsString) :
  AdminFilters.handleSearchChange (webFilters (app w)) s =
    (AdminFilters.showSearchError (webFilters (app w)) msg, []) ->
  let w' := step pf w (SearchCommitted s) in
  AdminFilters.filters (webFilters (app w')) = AdminFilters.filters (webFilters (app w)) /\
  currentPage (app w') = currentPage (app w) /\
  isLoading (app w') = isLoading (app w) /\
  entries (app w') = entries (app w) /\
  log w' = log w /\
  pendingLists w' = pendingLists w.
Proof.
  intros H w'. subst w'. cbn [step]. rewrite H. unfold onFilters. cbn.
  unfold AdminFilters.showSearchError.
  destruct (AdminFilters.searchInput (webFilters (app w))); cbn; auto 10.
Qed.

(** C9. An admin search query whose trimmed length exceeds 100 is
    rejected with 'Search query must not exceed 100 characters': the
    admin filter state is not mutated, nothing is notified and no fetch
    is triggered. *)
Theorem search_query_upper_bound (w : World) (s : JsString) :
  100 < len (trim s) ->
  let msg := lit "Search query must not exceed 100 characters" in
  let w' := step pf w (SearchCommitted s) in
  validateSearchQuery s = fail msg /\
  AdminRejected (webFilters (app w)) s msg /\
  AdminFilters.filters (webFilters (app w')) = AdminFilters.filters (webFilters (app w)) /\
  log w' = log w /\
  pendingLists w' = pendingLists w /\
  count isGetEntries (log w') = count isGetEntries (log w).
Proof.
  intros Hl msg w'.
  pose proof (validateSearchQuery_long s Hl) as Hv.
  destruct (admin_search_fails (webFilters (app w)) s msg Hv ltac:(discriminate))
    as [He Hr].
  destruct (step_search_rejected w s msg He) as (Hf & _ & _ & _ & Hlog & Hp).
  fold w' in Hf, Hlog, Hp.
  repeat (split; [assumption|]). now rewrite Hlog.
Qed.

(** ** Dates *)

Lemma validateDate_blank (s : JsString) : trim s = [] -> validateDate pf s = pass.
Proof.
  intro H. unfold validateDate. apply isBlank_true_iff in H. now rewrite H.
Qed.

Lemma validateDate_unparsed (s : JsString) :
  trim s <> [] -> dateParse pf s = None ->
  validateDate pf s = fail (lit "Invalid date format").
Proof.
  intros H Hp. unfold validateDate. apply isBlank_false_iff in H. now rewrite H, Hp.
Qed.

Lemma validateDate_future (s : JsString) (t : Z) :
  trim s <> [] -> dateParse pf s = Some t -> endOfToday pf < t ->
  validateDate pf s = fail (lit "Date cannot be in the future").
Proof.
  intros H Hp Hf. unfold validateDate. apply isBlank_false_iff in H.
  rewrite H, Hp. apply Z.ltb_lt in Hf. now rewrite Hf.
Qed.

Lemma validateDate_past (s : JsString) (t : Z) :
  dateParse pf s = Some t -> t <= endOfToday pf -> validateDate pf s = pass.
Proof.
  intros Hp Hf. unfold validateDate. destruct (isBlank s); [reflexivity|].
  rewrite Hp. replace (endOfToday pf <? t) with false; [reflexivity|].
  symmetry. apply Z.ltb_ge. lia.
Qed.

(** A refused date leaves the orchestrator as it was; only the toast is
    shown. *)
Lemma step_date_rejected (w : World) (s msg : JsString) :
  validateDate pf s = fail msg -> msg <> [] ->
  let w' := step pf w (DateChanged s) in
  AdminFilters.handleDateChange pf (webFilters (app w)) s =
    (webFilters (app w), [AdminFilters.ShowToast msg ToastError]) /\
  app w' = app w /\
  log w' = log w ++ [ShowToast msg ToastError] /\
  pendingLists w' = pendingLists w /\
  count isGetEntries (log w') = count isGetEntries (log w).
Proof.
  intros H Hm w'. subst w'.
  assert (E : AdminFilters.handleDateChange pf (webFilters (app w)) s =
              (webFilters (app w), [AdminFilters.ShowToast msg ToastError])).
  { unfold AdminFilters.handleDateChange. rewrite H. cbn [valid fail negb message].
    destruct msg; [contradiction|reflexivity]. }
  split; [exact E|]. cbn [step]. rewrite E. unfold onFilters. cbn.
  destruct w as [a pl pd lg]. destruct a. cbn. repeat split.
  unfold count. rewrite filter_app. cbn. now rewrite app_nil_r.
Qed.

(** C10 (as the code has it). Admin date validation accepts the empty
    string and every blank (white-space only) string; it rejects a
    string that is not blank and does not parse as a date, and rejects
    every date strictly later than the end of the current day with
    'Date cannot be in the future'. On rejection the date filter state
    is left unchanged and no fetch is triggered. *)
Theorem date_filter_rule (w : World) (s : JsString) :
  let w' := step pf w (DateChanged s) in
  (s = [] -> validateDate pf s = pass) /\
  (trim s = [] -> validateDate pf s = pass) /\
  (trim s <> [] -> dateParse pf s = None ->
     validateDate pf s = fail (lit "Invalid date format")) /\
  (forall t, trim s <> [] -> dateParse pf s = Some t -> endOfToday pf < t ->
     validateDate pf s = fail (lit "Date cannot be in the future")) /\
  (valid (validateDate pf s) = false ->
     webFilters (app w') = webFilters (app w) /\
     app w' = app w /\
     pendingLists w' = pendingLists w /\
     count isGetEntries (log w') = count isGetEntries (log w) /\
     exists msg, log w' = log w ++ [ShowToast msg ToastError]).
Proof.
  intros w'. split; [|split; [|split; [|split]]].
  - intros ->. now apply validateDate_blank.
  - apply validateDate_blank.
  - apply validateDate_unparsed.
  - intros t. apply validateDate_future.
  - intro Hv.
    assert (Hm : exists msg, validateDate pf s = fail msg /\ msg <> []).
    { unfold validateDate in *. destruct (isBlank s); [discriminate|].
      destruct (dateParse pf s) as [t|].
      - destruct (endOfToday pf <? t); [|discriminate].
        eexists. split; [reflexivity|discriminate].
      - eexists. split; [reflexivity|discriminate]. }
    destruct Hm as (msg & Hmsg & Hne).
    destruct (step_date_rejected w s msg Hmsg Hne) as (_ & Ha & Hlog & Hp & Hc).
    fold w' in Ha, Hlog, Hp, Hc. rewrite Ha.
    repeat (split; [assumption || reflexivity|]). now exists msg.
Qed.

End AdminFilterBounds.

Lemma search_query_upper_bound_witness :
  100 < len (trim Samples.longQuery) /\
  Validators.validateSearchQuery Samples.longQuery =
    Validators.fail (lit "Search query must not exceed 100 characters") /\
  AdminApp.log (AdminApp.step RefPlatform.platform AdminApp.initialWorld
                              (AdminApp.SearchCommitted Samples.longQuery)) =
  AdminApp.log AdminApp.initialWorld.
Proof.
  split; [vm_compute; reflexivity|].
  split; apply (search_query_upper_bound RefPlatform.platform AdminApp.initialWorld
                                         Samples.longQuery); vm_compute; reflexivity.
Defined.

Lemma date_filter_rule_witness :
  trim (lit "2031-01-01") <> [] /\
  dateParse RefPlatform.platform (lit "2031-01-01") = Some 1924992000000 /\
  endOfToday RefPlatform.platform < 1924992000000 /\
  Validators.validateDate RefPlatform.platform (lit "2031-01-01") =
    Validators.fail (lit "Date cannot be in the future").
Proof.
  split; [discriminate|]. split; [reflexivity|]. split; [reflexivity|].
  apply (date_filter_rule RefPlatform.platform AdminApp.initialWorld (lit "2031-01-01"))
    with (t := 1924992000000); [discriminate|reflexivity|reflexivity].
Defined.

(** C10 as stated fails on a blank string: a single space does not parse
    as a date, yet it passes validation, is stored as the date filter and
    triggers a fetch. *)
Lemma date_filter_rule_as_stated_fails :
  let w' := AdminApp.step RefPlatform.platform AdminApp.initialWorld
                          (AdminApp.DateChanged (lit " ")) in
  dateParse RefPlatform.platform (lit " ") = None /\
  Validators.valid (Validators.validateDate RefPlatform.platform (lit " ")) = true /\
  date (AdminFilters.filters (AdminApp.webFilters (AdminApp.app w'))) = lit " " /\
  AdminApp.count AdminApp.isGetEntries (AdminApp.log w') = 1%nat.
Proof. vm_compute. repeat split. Qed.

(* ------------------------------------------------------------------ *)
(** ** URL normalization in entry-form validation *)
(* ------------------------------------------------------------------ *)

Section UrlRule.
Import Validators Spec EntrySubmit.

Variable pf : Platform.

Lemma tldMatchHere_iff (s : JsString) :
  tldMatchHere s = true <->
  exists suf, s = 46 :: suf /\ 2 <= len suf /\ Forall (fun c => isLetter c = true) suf.
Proof.
  destruct s as [|c rest]; simpl.
  - split; [discriminate|]. intros (suf & H & _). discriminate.
  - rewrite !andb_true_iff, Z.eqb_eq, Z.leb_le, forallb_forall. split.
    + intros [[-> Hl] Hf]. exists rest. rewrite Forall_forall. auto.
    + intros (suf & H & Hl & Hf). injection H as -> ->.
      rewrite Forall_forall in Hf. auto.
Qed.

(** The regular expression holds exactly of the host names that end
    with a dot followed by two or more letters. *)
Lemma tldRegexTest_iff (h : JsString) :
  tldRegexTest h = true <-> EndsWithDotLetters h.
Proof.
  unfold EndsWithDotLetters. induction h as [|c h IH].
  - simpl. split; [discriminate|]. intros (pre & suf & H & _).
    destruct pre; discriminate.
  - cbn [tldRegexTest]. rewrite orb_true_iff, IH, tldMatchHere_iff. split.
    + intros [(suf & H & Hl & Hf)|(pre & suf & H & Hl & Hf)].
      * exists [], suf. auto.
      * exists (c :: pre), suf. subst h. auto.
    + intros (pre & suf & H & Hl & Hf). destruct pre as [|c' pre].
      * left. exists suf. auto.
      * right. injection H as -> ->. exists pre, suf. auto.
Qed.

(** The validator computes the normalized URL of the specification. *)
Lemma validateUrl_unfold (u : JsString) :
  validateUrl pf u =
  if isBlank u then fail (lit "URL is required")
  else
    match urlHostname pf (normalizeUrl u) with
    | Some hostname =>
        if Js.eqb hostname Js.empty then fail (lit "Invalid URL format")
        else if negb (tldRegexTest hostname)
        then fail (lit "URL must have a valid domain extension")
        else passUrl (normalizeUrl u)
    | None => fail (lit "Invalid URL format")
    end.
Proof.
  unfold validateUrl, normalizeUrl.
  destruct (isBlank u); [reflexivity|].
  destruct (startsWith (trim u) (lit "http://")),
           (startsWith (trim u) (lit "https://")); reflexivity.
Qed.

Lemma normalizeUrl_blank (u : JsString) :
  isBlank u = true -> normalizeUrl u = lit "https://".
Proof.
  intro H. apply isBlank_true_iff in H. unfold normalizeUrl. rewrite H. reflexivity.
Qed.

Lemma validateUrl_accepts_iff (u : JsString) :
  urlHostname pf (lit "https://") = None ->
  (valid (validateUrl pf u) = true <->
   exists h, urlHostname pf (normalizeUrl u) = Some h /\ EndsWithDotLetters h).
Proof.
  intro Hempty. rewrite validateUrl_unfold.
  destruct (isBlank u) eqn:Hb.
  - rewrite (normalizeUrl_blank u Hb), Hempty. cbn. split; [discriminate|].
    intros (h & H & _). discriminate.
  - destruct (urlHostname pf (normalizeUrl u)) as [h|].
    + destruct (Js.eqb h Js.empty) eqn:He.
      * apply eqb_eq in He. subst h. cbn. split; [discriminate|].
        intros (h & H & Ht). injection H as <-.
        apply tldRegexTest_iff in Ht. discriminate.
      * destruct (tldRegexTest h) eqn:Ht; cbn.
        -- split; [|reflexivity]. intros _. exists h. split; [reflexivity|].
           now apply tldRegexTest_iff.
        -- split; [discriminate|]. intros (h' & H & Ht'). injection H as <-.
           apply tldRegexTest_iff in Ht'. congruence.
    + cbn. split; [discriminate|]. intros (h & H & _). discriminate.
Qed.

Lemma validateUrl_valid_url (u : JsString) :
  valid (validateUrl pf u) = true ->
  validateUrl pf u = passUrl (normalizeUrl u).
Proof.
  rewrite validateUrl_unfold. destruct (isBlank u); [discriminate|].
  destruct (urlHostname pf (normalizeUrl u)) as [h|]; [|discriminate].
  destruct (Js.eqb h Js.empty); [discriminate|].
  destruct (tldRegexTest h); [reflexivity|discriminate].
Qed.

Lemma validateUrl_invalid_message (u : JsString) :
  valid (validateUrl pf u) = false ->
  exists msg, validateUrl pf u = fail msg /\ InvalidUrlMessage msg.
Proof.
  rewrite validateUrl_unfold. unfold InvalidUrlMessage.
  destruct (isBlank u); [eauto|].
  destruct (urlHostname pf (normalizeUrl u)) as [h|]; [|eauto].
  destruct (Js.eqb h Js.empty); [eauto|].
  destruct (tldRegexTest h); cbn [negb]; [discriminate|].
  intros _. eexists. split; [reflexivity|]. auto.
Qed.

(** ** The form *)

Lemma pushError_keeps (errs : list FieldError) (fld : JsString) (r : Result)
      (e : FieldError) :
  In e errs -> In e (pushError errs fld r).
Proof.
  intro H. unfold pushError. destruct (negb (valid r)); [|assumption].
  apply in_or_app. now left.
Qed.

Lemma pushError_adds (errs : list FieldError) (fld msg : JsString) :
  msg <> [] -> In (mkFieldError fld msg) (pushError errs fld (fail msg)).
Proof.
  intro H. unfold pushError. cbn. apply in_or_app. right.
  destruct msg; [contradiction|]. now left.
Qed.

Lemma pushError_nil (errs : list FieldError) (fld : JsString) (r : Result) :
  pushError errs fld r = [] -> errs = [] /\ valid r = true.
Proof.
  unfold pushError. destruct (valid r); cbn; [auto|].
  intro H. apply app_eq_nil in H as [_ H]. discriminate.
Qed.

(** A refused URL puts an error on the [url] field and fails the form. *)
Lemma validateEntryForm_url_error (d : EntryForm) (msg : JsString) :
  validateUrl pf (formUrl d) = fail msg -> msg <> [] ->
  In (mkFieldError (lit "url") msg) (errors (validateEntryForm pf d)) /\
  formValid (validateEntryForm pf d) = false.
Proof.
  intros H Hm.
  assert (Hin : In (mkFieldError (lit "url") msg) (errors (validateEntryForm pf d))).
  { unfold validateEntryForm. cbn [errors]. rewrite H.
    destruct (imageFile d); [apply pushError_keeps|]; apply pushError_keeps;
      now apply pushError_adds. }
  split; [exact Hin|].
  unfold validateEntryForm in *. cbn [errors formValid] in *.
  match goal with |- Nat.eqb (List.length ?l) 0 = false =>
    destruct l; [contradiction|reflexivity] end.
Qed.

(** A form that passes carries the normalized URL in its data. *)
Lemma validateEntryForm_valid_url (d : EntryForm) :
  formValid (validateEntryForm pf d) = true ->
  valid (validateUrl pf (formUrl d)) = true /\
  data (validateEntryForm pf d) = withUrl d (normalizeUrl (formUrl d)).
Proof.
  intro H.
  assert (Hu : valid (validateUrl pf (formUrl d)) = true).
  { unfold validateEntryForm in H. cbn [formValid] in H.
    apply Nat.eqb_eq, length_zero_iff_nil in H.
    destruct (imageFile d).
    - apply pushError_nil in H as [H _]. apply pushError_nil in H as [H _].
      now apply pushError_nil in H as [_ H].
    - apply pushError_nil in H as [H _]. now apply pushError_nil in H as [_ H]. }
  split; [exact Hu|].
  unfold validateEntryForm. cbn [data]. rewrite Hu.
  rewrite (validateUrl_valid_url _ Hu). cbn [url passUrl]. f_equal.
  unfold orElse, Js.empty. destruct (normalizeUrl (formUrl d)); reflexivity.
Qed.

Lemma progress_is_no_request (shown : list Q) :
  filter isRequest (map SetProgress shown) = [].
Proof. induction shown; [reflexivity|assumption]. Qed.

(** A failed form sends nothing. *)
Lemma invalid_form_sends_nothing (d : EntryForm) (sheet ser : JsString) (draws : list Q) :
  formValid (validateEntryForm pf (readEntryForm d)) = false ->
  handleAddEntry pf d draws =
    [ShowFieldErrors (errors (validateEntryForm pf (readEntryForm d)))] /\
  handleSubmit pf sheet ser d draws =
    [ShowFieldErrors (errors (validateEntryForm pf (readEntryForm d)))] /\
  filter isRequest (handleAddEntry pf d draws) = [] /\
  filter isRequest (handleSubmit pf sheet ser d draws) = [].
Proof.
  intro H. unfold handleAddEntry, handleSubmit. rewrite H. cbn. auto.
Qed.

(** Every create request carries the normalized URL of a form that
    passed validation. *)
Lemma create_request_carries_normalized_url (d fields : EntryForm) (draws : list Q) :
  In (CreateEntry fields) (handleAddEntry pf d draws) ->
  formValid (validateEntryForm pf (readEntryForm d)) = true /\
  fields = withUrl (readEntryForm d) (normalizeUrl (formUrl d)).
Proof.
  unfold handleAddEntry.
  destruct (formValid (validateEntryForm pf (readEntryForm d))) eqn:Hv; cbn [negb].
  - intro H. split; [reflexivity|].
    destruct (validateEntryForm_valid_url (readEntryForm d) Hv) as [_ Hd].
    rewrite Hd in H. change (formUrl (readEntryForm d)) with (formUrl d) in H.
    destruct H as [H|H]; [discriminate|].
    destruct (imageFile (readEntryForm d)).
    + destruct (simulateUploadProgress draws 0) as [shown finished].
      apply in_app_or in H as [H|H].
      * apply in_map_iff in H as (q & Hq & _). discriminate.
      * destruct finished; [|contradiction].
        destruct H as [H|[]]. now injection H.
    + destruct H as [H|[]]. now injection H.
  - intros [H|[]]. discriminate.
Qed.

(** The URL rule of the validation and of the add form. Entry-form
    validation trims the URL and prefixes 'https://'
    when the trimmed string starts with neither 'http://' nor
    'https://'; the result is accepted exactly when it parses as a URL
    whose host name ends with a dot followed by at least two letters;
    otherwise validation fails with an invalid-URL error on the url
    field and no create or update request is sent. On the add form
    'google.com' is accepted and submitted as 'https://google.com';
    'not a url' is rejected and no entry is created.

    The URL parser is the browser's: it is assumed to refuse
    'https://' (no host) and 'https://not a url' (space in the host)
    and to read the host 'google.com' from 'https://google.com'. *)
Theorem url_normalization_rule (u : JsString) :
  urlHostname pf (lit "https://") = None ->
  urlHostname pf (lit "https://google.com") = Some (lit "google.com") ->
  urlHostname pf (lit "https://not a url") = None ->
  (* accepted exactly when the normalized URL parses with such a host *)
  (valid (validateUrl pf u) = true <->
   exists h, urlHostname pf (normalizeUrl u) = Some h /\ EndsWithDotLetters h) /\
  (valid (validateUrl pf u) = true ->
   validateUrl pf u = passUrl (normalizeUrl u)) /\
  (* otherwise: an error on the url field, and nothing is sent *)
  (valid (validateUrl pf u) = false ->
   exists msg, validateUrl pf u = fail msg /\ InvalidUrlMessage msg /\
     forall d sheet ser draws, formUrl d = u ->
       In (mkFieldError (lit "url") msg)
          (errors (validateEntryForm pf (readEntryForm d))) /\
       formValid (validateEntryForm pf (readEntryForm d)) = false /\
       handleAddEntry pf d draws =
         [ShowFieldErrors (errors (validateEntryForm pf (readEntryForm d)))] /\
       filter isRequest (handleAddEntry pf d draws) = [] /\
       filter isRequest (handleSubmit pf sheet ser d draws) = []) /\
  (* every create request carries the normalized URL *)
  (forall d fields draws, formUrl d = u ->
     In (CreateEntry fields) (handleAddEntry pf d draws) ->
     formUrl fields = normalizeUrl u) /\
  (* the two examples *)
  (validateUrl pf (lit "google.com") = passUrl (lit "https://google.com") /\
   handleAddEntry pf (Samples.googleForm None) [] =
     [ShowUploadProgress true;
      CreateEntry (withUrl (Samples.googleForm None) (lit "https://google.com"))] /\
   forall d fields draws, formUrl d = lit "google.com" ->
     In (CreateEntry fields) (handleAddEntry pf d draws) ->
     formUrl fields = lit "https://google.com") /\
  (validateUrl pf (lit "not a url") = fail (lit "Invalid URL format") /\
   forall draws, filter isRequest (handleAddEntry pf Samples.notAUrlForm draws) = []).
Proof.
  intros Hempty Hgoogle Hnot.
  split; [now apply validateUrl_accepts_iff|].
  split; [apply validateUrl_valid_url|].
  split; [|split; [|split]].
  - intro Hv. destruct (validateUrl_invalid_message u Hv) as (msg & Hmsg & Him).
    exists msg. split; [exact Hmsg|]. split; [exact Him|].
    intros d sheet ser draws Hd. subst u.
    assert (Hne : msg <> []).
    { destruct Him as [->|[->| ->]]; discriminate. }
    destruct (validateEntryForm_url_error (readEntryForm d) msg Hmsg Hne) as [Hin Hf].
    destruct (invalid_form_sends_nothing d sheet ser draws Hf) as (H0 & _ & H1 & H2).
    auto.
  - intros d fields draws Hd Hin. subst u.
    destruct (create_request_carries_normalized_url d fields draws Hin) as [_ ->].
    reflexivity.
  - assert (Hg : validateUrl pf (lit "google.com") = passUrl (lit "https://google.com")).
    { rewrite validateUrl_unfold.
      replace (isBlank (lit "google.com")) with false by reflexivity.
      replace (normalizeUrl (lit "google.com")) with (lit "https://google.com")
        by reflexivity.
      rewrite Hgoogle. reflexivity. }
    split; [exact Hg|]. split.
    + unfold handleAddEntry, validateEntryForm.
      replace (formUrl (readEntryForm (Samples.googleForm None)))
        with (lit "google.com") by reflexivity.
      rewrite Hg. reflexivity.
    + intros d fields draws Hd Hin.
      destruct (create_request_carries_normalized_url d fields draws Hin) as [_ ->].
      rewrite Hd. reflexivity.
  - assert (Hn : validateUrl pf (lit "not a url") = fail (lit "Invalid URL format")).
    { rewrite validateUrl_unfold.
      replace (isBlank (lit "not a url")) with false by reflexivity.
      replace (normalizeUrl (lit "not a url")) with (lit "https://not a url")
        by reflexivity.
      rewrite Hnot. reflexivity. }
    split; [exact Hn|]. intro draws.
    destruct (validateEntryForm_url_error (readEntryForm Samples.notAUrlForm) _ Hn
                ltac:(discriminate)) as [_ Hf].
    now destruct (invalid_form_sends_nothing Samples.notAUrlForm [] [] draws Hf)
      as (_ & _ & H1 & _).
Qed.

(** The edit form is validated in the same way, but its request is built
    from the fields as they were typed: a bare 'google.com' passes and
    is sent unchanged. *)
Lemma handleSubmit_sends_url_as_typed (sheet ser : JsString) :
  urlHostname pf (lit "https://google.com") = Some (lit "google.com") ->
  handleSubmit pf sheet ser (Samples.googleForm None) [] =
    [ShowUploadProgress true; UpdateEntry sheet ser (Samples.googleForm None)] /\
  formUrl (Samples.googleForm None) = lit "google.com".
Proof.
  intro Hgoogle. split; [|reflexivity].
  unfold handleSubmit, validateEntryForm.
  replace (formUrl (readEntryForm (Samples.googleForm None)))
    with (lit "google.com") by reflexivity.
  rewrite validateUrl_unfold.
  replace (isBlank (lit "google.com")) with false by reflexivity.
  replace (normalizeUrl (lit "google.com")) with (lit "https://google.com")
    by reflexivity.
  rewrite Hgoogle. reflexivity.
Qed.

(** Whatever the edit form sends, it sends the fields as they were read
    from the form, not the fields the validation returned. *)
Lemma update_request_carries_typed_fields (d fields : EntryForm) (sheet ser : JsString)
      (draws : list Q) :
  In (UpdateEntry sheet ser fields) (handleSubmit pf sheet ser d draws) ->
  formValid (validateEntryForm pf (readEntryForm d)) = true /\
  fields = readEntryForm d.
Proof.
  unfold handleSubmit.
  destruct (formValid (validateEntryForm pf (readEntryForm d))) eqn:Hv; cbn [negb].
  - intro H. split; [reflexivity|].
    destruct H as [H|H]; [discriminate|].
    destruct (imageFile (readEntryForm d)).
    + destruct (simulateUploadProgress draws 0) as [shown finished].
      apply in_app_or in H as [H|H].
      * apply in_map_iff in H as (q & Hq & _). discriminate.
      * destruct finished; [|contradiction].
        destruct H as [H|[]]. now injection H.
    + destruct H as [H|[]]. now injection H.
  - intros [H|[]]. discriminate.
Qed.

(** C3. The URL rule on the update path, at the input 'google.com'.
    The validation accepts it and returns the fields with the URL
    'https://google.com'. The add form sends these fields in its create
    request. The edit form runs the same validation but sends the fields
    as they were typed: its update request carries 'google.com', so the
    entry is not stored as 'https://google.com' as the rule says. No
    update request of this form carries the normalized URL.

    The URL parser is the browser's: it is assumed to read the host
    'google.com' from 'https://google.com'. *)
Theorem update_request_keeps_typed_url (sheet ser : JsString) :
  urlHostname pf (lit "https://google.com") = Some (lit "google.com") ->
  validateUrl pf (lit "google.com") = passUrl (lit "https://google.com") /\
  formValid (validateEntryForm pf (readEntryForm (Samples.googleForm None))) = true /\
  formUrl (data (validateEntryForm pf (readEntryForm (Samples.googleForm None)))) =
    lit "https://google.com" /\
  handleAddEntry pf (Samples.googleForm None) [] =
    [ShowUploadProgress true;
     CreateEntry (withUrl (Samples.googleForm None) (lit "https://google.com"))] /\
  handleSubmit pf sheet ser (Samples.googleForm None) [] =
    [ShowUploadProgress true; UpdateEntry sheet ser (Samples.googleForm None)] /\
  formUrl (Samples.googleForm None) = lit "google.com" /\
  forall fields draws,
    In (UpdateEntry sheet ser fields)
       (handleSubmit pf sheet ser (Samples.googleForm None) draws) ->
    formUrl fields = lit "google.com" /\ formUrl fields <> lit "https://google.com".
Proof.
  intro Hgoogle.
  assert (Hg : validateUrl pf (lit "google.com") = passUrl (lit "https://google.com")).
  { rewrite validateUrl_unfold.
    replace (isBlank (lit "google.com")) with false by reflexivity.
    replace (normalizeUrl (lit "google.com")) with (lit "https://google.com")
      by reflexivity.
    rewrite Hgoogle. reflexivity. }
  assert (Hv : validateEntryForm pf (readEntryForm (Samples.googleForm None)) =
               mkFormResult true []
                 (withUrl (Samples.googleForm None) (lit "https://google.com"))).
  { unfold validateEntryForm.
    replace (formUrl (readEntryForm (Samples.googleForm None)))
      with (lit "google.com") by reflexivity.
    rewrite Hg. reflexivity. }
  split; [exact Hg|].
  split; [now rewrite Hv|].
  split; [now rewrite Hv|].
  split; [unfold handleAddEntry; rewrite Hv; reflexivity|].
  split; [unfold handleSubmit; rewrite Hv; reflexivity|].
  split; [reflexivity|].
  intros fields draws Hin.
  destruct (update_request_carries_typed_fields _ _ _ _ _ Hin) as [_ ->].
  split; [reflexivity|discriminate].
Qed.

End UrlRule.

Lemma url_normalization_rule_witness :
  urlHostname RefPlatform.platform (lit "https://") = None /\
  urlHostname RefPlatform.platform (lit "https://google.com") = Some (lit "google.com") /\
  urlHostname RefPlatform.platform (lit "https://not a url") = None /\
  Validators.validateUrl RefPlatform.platform (lit "  example.org ") =
    Validators.passUrl (lit "https://example.org").
Proof.
  split; [reflexivity|]. split; [reflexivity|]. split; [reflexivity|].
  apply (url_normalization_rule RefPlatform.platform (lit "  example.org "));
    reflexivity.
Defined.

Lemma update_request_keeps_typed_url_witness :
  urlHostname RefPlatform.platform (lit "https://google.com") = Some (lit "google.com") /\
  EntrySubmit.handleSubmit RefPlatform.platform (lit "Search") (lit "1")
    (Samples.googleForm None) [] =
    [EntrySubmit.ShowUploadProgress true;
     EntrySubmit.UpdateEntry (lit "Search") (lit "1") (Samples.googleForm None)] /\
  Validators.formUrl (Samples.googleForm None) = lit "google.com".
Proof.
  split; [reflexivity|].
  destruct (update_request_keeps_typed_url RefPlatform.platform (lit "Search") (lit "1")
              eq_refl) as (_ & _ & _ & _ & H & Hu & _).
  split; [exact H|exact Hu].
Defined.

(* ------------------------------------------------------------------ *)
(** ** The single in-flight list fetch *)
(* ------------------------------------------------------------------ *)

Section FetchGuard.
Import AdminApp Guard.

Variable pf : Platform.

Local Arguments count : simpl never.
Local Arguments fetches : simpl never.

Lemma count_app {A : Type} (f : A -> bool) (l l' : list A) :
  count f (l ++ l') = (count f l + count f l')%nat.
Proof. unfold count. now rewrite filter_app, length_app. Qed.

Lemma Calm_refl (w : World) : Calm w w.
Proof. split; intro H; [auto|left; auto]. Qed.

Lemma Calm_trans (w1 w2 w3 : World) : Calm w1 w2 -> Calm w2 w3 -> Calm w1 w3.
Proof.
  intros [A1 B1] [A2 B2]. split; intro H.
  - destruct (A1 H) as (L & P & F). destruct (A2 L) as (L' & P' & F').
    repeat split; congruence.
  - destruct (B1 H) as [(L & P & F)|(L & (p & P) & F)].
    + destruct (B2 L) as [(L' & P' & F')|(L' & (p & P') & F')].
      * left. repeat split; congruence.
      * right. repeat split; try congruence. exists p. congruence.
    + destruct (A2 L) as (L' & P' & F').
      right. repeat split; try congruence. exists p. congruence.
Qed.

(** Steps that touch neither the flag, nor the pending requests, nor
    the number of requests issued. *)
Lemma Calm_same (w w' : World) :
  isLoading (app w') = isLoading (app w) ->
  pendingLists w' = pendingLists w ->
  fetches w' = fetches w ->
  Calm w w'.
Proof.
  intros L P F. split; intro H; [|left]; repeat split; congruence.
Qed.

Lemma loadEntries_busy (w : World) :
  isLoading (app w) = true -> loadEntries w = w.
Proof. intro H. unfold loadEntries. now rewrite H. Qed.

Lemma loadEntries_idle (w : World) :
  isLoading (app w) = false ->
  loadEntries w =
  let params := mkListParams (currentPage (app w)) 12
                             (AdminFilters.getAPIParams (webFilters (app w))) in
  mkWorld (setIsLoading (app w) true) (pendingLists w ++ [params]) (pendingDeletes w)
          (log w ++ [SetIsLoading true; ShowWebLoading true; GetEntries params]).
Proof. intro H. unfold loadEntries. now rewrite H. Qed.

Lemma loadEntries_Calm (w : World) : Calm w (loadEntries w).
Proof.
  split; intro H.
  - rewrite (loadEntries_busy w H). auto.
  - right. rewrite (loadEntries_idle w H). cbn. repeat split.
    + eexists. reflexivity.
    + unfold fetches. cbn [log]. rewrite count_app. unfold count. cbn. lia.
Qed.

Lemma emit_Calm (w : World) (acts : list Action) :
  count isGetEntries acts = 0%nat -> Calm w (emit w acts).
Proof.
  intro H. apply Calm_same; try reflexivity.
  unfold fetches, emit. cbn [log]. rewrite count_app, H. lia.
Qed.

Lemma handleWebFiltersChange_Calm (w : World) : Calm w (handleWebFiltersChange w).
Proof.
  unfold handleWebFiltersChange.
  eapply Calm_trans; [|apply loadEntries_Calm]. now apply Calm_same.
Qed.

Lemma relayFilterActions_Calm (acts : list AdminFilters.Action) :
  forall w, Calm w (relayFilterActions w acts).
Proof.
  induction acts as [|a acts IH]; intro w; [apply Calm_refl|].
  destruct a; cbn [relayFilterActions];
    (eapply Calm_trans; [|apply IH]).
  - apply handleWebFiltersChange_Calm.
  - now apply emit_Calm.
  - now apply emit_Calm.
Qed.

Lemma onFilters_Calm (w : World) (r : AdminFilters.t * list AdminFilters.Action) :
  Calm w (onFilters w r).
Proof.
  unfold onFilters. eapply Calm_trans; [|apply relayFilterActions_Calm].
  now apply Calm_same.
Qed.

Lemma deleteSettled_Calm (w : World) (r : AdminAPI.Settled unit) :
  Calm w (deleteSettled w r).
Proof.
  unfold deleteSettled. destruct r as [response|msg].
  - destruct (AdminAPI.success response).
    + eapply Calm_trans; [|apply loadEntries_Calm]. now apply emit_Calm.
    + now apply emit_Calm.
  - now apply emit_Calm.
Qed.

(** Every event other than the settling of a list request is calm. *)
Lemma step_Calm (w : World) (ev : Event) :
  isListSettled ev = false -> Calm w (step pf w ev).
Proof.
  intro Hev. destruct ev; try discriminate Hev; cbn [step].
  - apply onFilters_Calm.
  - apply onFilters_Calm.
  - apply onFilters_Calm.
  - apply onFilters_Calm.
  - unfold handleWebPageChange.
    eapply Calm_trans; [|apply loadEntries_Calm]. now apply Calm_same.
  - unfold switchView.
    eapply Calm_trans; [apply (Calm_same w (withApp w (setCurrentView (app w) v)));
                        reflexivity|].
    destruct v; try apply loadEntries_Calm; try apply Calm_refl; now apply emit_Calm.
  - unfold refreshCurrentView.
    eapply Calm_trans; [|now apply emit_Calm].
    destruct (currentView (app w)); try apply loadEntries_Calm; try apply Calm_refl;
      now apply emit_Calm.
  - unfold handleDeleteEntry. destruct (findEntry _ _ _); [|apply Calm_refl].
    eapply Calm_trans; [|now apply emit_Calm]. now apply Calm_same.
  - unfold confirmDelete.
    destruct (DeleteModal.deleteCallback _) as [[sheet ser img|c]|];
      (apply Calm_same; [reflexivity|reflexivity|]);
      unfold fetches, emit, withApp; cbn [log];
      rewrite !count_app; unfold count; cbn; lia.
  - unfold dismissDelete. eapply Calm_trans; [|now apply emit_Calm].
    now apply Calm_same.
  - destruct (nth_error (pendingDeletes w) i); [|apply Calm_refl].
    eapply Calm_trans; [|apply deleteSettled_Calm]. now apply Calm_same.
Qed.

Lemma Calm_Invariant (w w' : World) : Calm w w' -> Invariant w -> Invariant w'.
Proof.
  intros [A B]. unfold Invariant. destruct (isLoading (app w)) eqn:L.
  - destruct (A eq_refl) as (-> & -> & _). auto.
  - intro P. destruct (B eq_refl) as [(-> & -> & _)|(-> & (p & ->) & _)]; [assumption|].
    rewrite P. reflexivity.
Qed.

Lemma loadEntriesSettled_flag (a : t) (r : AdminAPI.Settled ListData) :
  isLoading (fst (loadEntriesSettled a r)) = false /\
  count isGetEntries (snd (loadEntriesSettled a r)) = 0%nat.
Proof.
  unfold loadEntriesSettled, loadEntriesCatch.
  destruct r as [response|msg]; [destruct (AdminAPI.success response);
    [destruct (AdminAPI.data response)|]|]; cbn; auto.
Qed.

(** The settling of the request in flight clears the flag, empties the
    set of pending requests and issues nothing. *)
Lemma step_settled (w : World) (i : nat) (r : AdminAPI.Settled ListData) :
  Invariant w -> nth_error (pendingLists w) i <> None ->
  let w' := step pf w (ListSettled i r) in
  isLoading (app w) = true /\ i = O /\
  isLoading (app w') = false /\ pendingLists w' = [] /\ fetches w' = fetches w.
Proof.
  intros Hinv Hi w'. subst w'. unfold Invariant in Hinv.
  destruct (isLoading (app w)) eqn:L.
  2:{ rewrite Hinv in Hi. destruct i; now elim Hi. }
  destruct (pendingLists w) as [|p [|q pl]] eqn:P; try discriminate Hinv.
  destruct i as [|i]; [|destruct i; now elim Hi].
  cbn [step]. rewrite P. cbn [nth_error].
  destruct (loadEntriesSettled_flag (app w) r) as [Hf Hc].
  destruct (loadEntriesSettled (app w) r) as [a acts]. cbn in Hf, Hc |- *.
  repeat split; try assumption.
  unfold fetches. cbn [log]. rewrite count_app, Hc. lia.
Qed.

Lemma step_settled_result (w : World) (i : nat) (r : AdminAPI.Settled ListData) :
  nth_error (pendingLists w) i <> None ->
  app (step pf w (ListSettled i r)) = fst (loadEntriesSettled (app w) r) /\
  log (step pf w (ListSettled i r)) = log w ++ snd (loadEntriesSettled (app w) r).
Proof.
  intro Hi. cbn [step]. destruct (nth_error (pendingLists w) i); [|now elim Hi].
  destruct (loadEntriesSettled (app w) r) as [a acts]. split; reflexivity.
Qed.

Lemma loadEntriesSettled_finally (a : t) (r : AdminAPI.Settled ListData) :
  exists acts,
    snd (loadEntriesSettled a r) = acts ++ [SetIsLoading false; ShowWebLoading false].
Proof.
  unfold loadEntriesSettled, loadEntriesCatch.
  destruct r as [response|msg]; [destruct (AdminAPI.success response);
    [destruct (AdminAPI.data response)|]|]; cbn [snd]; eexists; reflexivity.
Qed.

Lemma step_Invariant (w : World) (ev : Event) : Invariant w -> Invariant (step pf w ev).
Proof.
  intro Hinv. destruct (isListSettled ev) eqn:Hev.
  - destruct ev; try discriminate Hev.
    destruct (nth_error (pendingLists w) i) eqn:Hi.
    + destruct (step_settled w i r Hinv) as (_ & _ & L & P & _); [congruence|].
      unfold Invariant. now rewrite L.
    + cbn [step]. now rewrite Hi.
  - eapply Calm_Invariant; [now apply step_Calm|assumption].
Qed.

Lemma run_Invariant (evs : list Event) :
  forall w, Invariant w -> Invariant (run pf w evs).
Proof.
  induction evs as [|ev evs IH]; intros w H; [exact H|].
  cbn [run fold_left]. apply IH. now apply step_Invariant.
Qed.

(** C4. In every reachable state of the admin list orchestrator at most
    one list fetch is in flight, and one is in flight exactly when
    isLoading is set. Any trigger arriving while isLoading is set
    issues no request, and none is queued: the settling of the fetch
    issues no request either. A trigger arriving when idle sets the
    flag before it issues the request; the flag is cleared when the
    request settles, with a response or with a failure. *)
Theorem single_list_fetch_in_flight (evs : list Event) :
  let w := run pf initialWorld evs in
  (List.length (pendingLists w) <= 1)%nat /\
  (isLoading (app w) = true <-> pendingLists w <> []) /\
  (* a trigger while a fetch is outstanding is dropped *)
  (isLoading (app w) = true ->
     forall ev, isListSettled ev = false ->
       pendingLists (step pf w ev) = pendingLists w /\
       fetches (step pf w ev) = fetches w /\
       isLoading (app (step pf w ev)) = true) /\
  (* a trigger when idle: flag first, then the request *)
  (isLoading (app w) = false ->
     forall p,
       let params := mkListParams p 12 (AdminFilters.getAPIParams (webFilters (app w))) in
       let w' := step pf w (PageChanged p) in
       log w' = log w ++ [SetIsLoading true; ShowWebLoading true; GetEntries params] /\
       isLoading (app w') = true /\ pendingLists w' = [params]) /\
  (isLoading (app w) = false ->
     forall value,
       let params := mkListParams 1 12 (AdminFilters.getAPIParams
                       (fst (AdminFilters.handleCategoryChange (webFilters (app w))
                                                               value))) in
       let w' := step pf w (CategoryChanged value) in
       AdminFilters.onFiltersChange (webFilters (app w)) = true ->
       isLoading (app w') = true /\ pendingLists w' = [params] /\
       fetches w' = S (fetches w)) /\
  (* settling: flag cleared, nothing queued behind it *)
  (forall i r, nth_error (pendingLists w) i <> None ->
     let w' := step pf w (ListSettled i r) in
     isLoading (app w') = false /\ pendingLists w' = [] /\
     fetches w' = fetches w /\
     exists acts, log w' = log w ++ acts ++ [SetIsLoading false; ShowWebLoading false]).
Proof.
  intro w.
  assert (Hinv : Invariant w) by (apply run_Invariant; reflexivity).
  split; [|split; [|split; [|split; [|split]]]].
  - unfold Invariant in Hinv. destruct (isLoading (app w)); rewrite Hinv; simpl; lia.
  - unfold Invariant in Hinv. destruct (isLoading (app w)).
    + split; [|reflexivity]. intros _ E. rewrite E in Hinv. discriminate.
    + rewrite Hinv. split; [discriminate|]. intro H. now elim H.
  - intros L ev Hev. destruct (step_Calm w ev Hev) as [A _].
    destruct (A L) as (L' & P & F). auto.
  - intros L p params w'. subst w' params. cbn [step].
    unfold handleWebPageChange. rewrite loadEntries_idle by exact L.
    unfold Invariant in Hinv. rewrite L in Hinv. cbn. rewrite Hinv. auto.
  - intros L value params w' Hcb. subst w' params. cbn [step].
    unfold AdminFilters.handleCategoryChange, onFilters, AdminFilters.notifyFiltersChange.
    cbn [fst snd AdminFilters.setFilters AdminFilters.onFiltersChange].
    rewrite Hcb. cbn [List.app relayFilterActions].
    unfold handleWebFiltersChange. rewrite loadEntries_idle by exact L.
    unfold Invariant in Hinv. rewrite L in Hinv.
    cbn. rewrite Hinv. repeat split.
    unfold fetches, emit. cbn [log]. rewrite !count_app. unfold count. cbn. lia.
  - intros i r Hi w'.
    destruct (step_settled w i r Hinv Hi) as (L & -> & L' & P & F).
    fold w' in L', P, F. repeat (split; [assumption|]).
    destruct (step_settled_result w 0 r Hi) as [_ Hlog]. fold w' in Hlog.
    destruct (loadEntriesSettled_finally (app w) r) as [acts Hacts].
    exists acts. now rewrite Hlog, Hacts.
Qed.

End FetchGuard.

(* ------------------------------------------------------------------ *)
(** ** Failed fetches keep the previous result set *)
(* ------------------------------------------------------------------ *)

Section ListResults.
Import AdminApp Guard Spec.
Import AdminAPI.

Variable pf : Platform.

Lemma loadEntries_results (w : World) : results (loadEntries w) = results w.
Proof. unfold loadEntries. destruct (isLoading (app w)); reflexivity. Qed.

Lemma relayFilterActions_results (acts : list AdminFilters.Action) :
  forall w, results (relayFilterActions w acts) = results w.
Proof.
  induction acts as [|a acts IH]; intro w; [reflexivity|].
  destruct a; cbn [relayFilterActions]; rewrite IH; try reflexivity.
  unfold handleWebFiltersChange. now rewrite loadEntries_results.
Qed.

(** Only the settling of a list request can touch the result set. *)
Lemma step_results (w : World) (ev : Event) :
  isListSettled ev = false -> results (step pf w ev) = results w.
Proof.
  intro Hev. destruct ev; try discriminate Hev; cbn [step].
  - unfold onFilters. now rewrite relayFilterActions_results.
  - unfold onFilters. now rewrite relayFilterActions_results.
  - unfold onFilters. now rewrite relayFilterActions_results.
  - unfold onFilters. now rewrite relayFilterActions_results.
  - unfold handleWebPageChange. now rewrite loadEntries_results.
  - unfold switchView. destruct v; try reflexivity. now rewrite loadEntries_results.
  - unfold refreshCurrentView. destruct (currentView (app w)); try reflexivity.
    unfold results, emit. cbn [app]. apply loadEntries_results.
  - unfold handleDeleteEntry. now destruct (findEntry _ _ _).
  - unfold confirmDelete.
    now destruct (DeleteModal.deleteCallback _) as [[sheet ser img|c]|].
  - reflexivity.
  - destruct (nth_error (pendingDeletes w) i); [|reflexivity].
    unfold deleteSettled. destruct r as [response|msg]; [|reflexivity].
    destruct (success response); [|reflexivity].
    now rewrite loadEntries_results.
Qed.

Lemma loadEntriesSettled_failed (a : t) (r : Settled ListData) :
  FailedFetch r ->
  exists msg,
    loadEntriesSettled a r =
    (setIsLoading a false,
     [ShowToast (handleError msg (lit "Failed to load websites")) ToastError;
      SetIsLoading false; ShowWebLoading false]).
Proof.
  intro H. unfold loadEntriesSettled, loadEntriesCatch.
  destruct r as [response|msg]; cbn in H.
  - rewrite H. eexists. reflexivity.
  - exists msg. reflexivity.
Qed.

Lemma loadEntriesSettled_success (a : t) (response : Response ListData) (d : ListData) :
  success response = true -> data response = Some d ->
  let es := match dataEntries d with Some es => es | None => [] end in
  let total := match dataTotal d with Some n => n | None => 0 end in
  loadEntriesSettled a (Resolved response) =
  (setIsLoading (setResult a es total) false,
   [RenderWebEntries es; UpdatePagination (currentPage a) (ceilDiv total 12) total;
    ShowWebEmptyState (Nat.eqb (List.length es) 0);
    SetIsLoading false; ShowWebLoading false]).
Proof.
  intros Hs Hd. unfold loadEntriesSettled. rewrite Hs, Hd. reflexivity.
Qed.

(** C5. A failed list fetch (rejected promise or success:false)
    surfaces an error message and leaves the entries and the total
    count as they were; the result set is replaced only by a successful
    response. A successful response with zero entries is not an error:
    it shows the empty-state placeholder and no error message. *)
Theorem failed_fetch_keeps_results (w : World) (i : nat) (r : Settled ListData) :
  nth_error (pendingLists w) i <> None ->
  let w' := step pf w (ListSettled i r) in
  (* failure *)
  (FailedFetch r ->
     entries (app w') = entries (app w) /\
     totalEntries (app w') = totalEntries (app w) /\
     count isErrorToast (log w') = S (count isErrorToast (log w)) /\
     exists msg, In (ShowToast msg ToastError) (log w') /\ msg <> []) /\
  (* replaced only on success *)
  (results w' <> results w ->
     exists response, r = Resolved response /\ success response = true) /\
  (forall ev, isListSettled ev = false -> results (step pf w ev) = results w) /\
  (* success *)
  (forall response d,
     r = Resolved response -> success response = true -> data response = Some d ->
     let es := match dataEntries d with Some es => es | None => [] end in
     let total := match dataTotal d with Some n => n | None => 0 end in
     entries (app w') = es /\ totalEntries (app w') = total /\
     count isErrorToast (log w') = count isErrorToast (log w) /\
     (es = [] -> In (ShowWebEmptyState true) (log w')) /\
     (es <> [] -> In (ShowWebEmptyState false) (log w'))).
Proof.
  intros Hi w'.
  destruct (step_settled_result pf w i r Hi) as [Happ Hlog]. fold w' in Happ, Hlog.
  assert (Hfail : FailedFetch r ->
     entries (app w') = entries (app w) /\
     totalEntries (app w') = totalEntries (app w) /\
     count isErrorToast (log w') = S (count isErrorToast (log w)) /\
     exists msg, In (ShowToast msg ToastError) (log w') /\ msg <> []).
  { intro Hf. destruct (loadEntriesSettled_failed (app w) r Hf) as [msg Hr].
    rewrite Hlog, Happ, Hr. cbn [fst snd]. repeat split.
    - rewrite count_app. unfold count. cbn. lia.
    - eexists. split; [apply in_or_app; right; now left|].
      unfold handleError.
      repeat match goal with |- context [if ?b then _ else _] => destruct b end;
        try discriminate.
      unfold orElse. destruct msg; discriminate. }
  split; [exact Hfail|]. split; [|split].
  - intro Hne. destruct r as [response|msg].
    + exists response. split; [reflexivity|].
      destruct (success response) eqn:Hs; [reflexivity|].
      destruct (Hfail Hs) as (He & Ht & _). elim Hne. unfold results. congruence.
    + destruct (Hfail I) as (He & Ht & _). elim Hne. unfold results. congruence.
  - intros ev Hev. now apply step_results.
  - intros response d -> Hs Hd es total.
    rewrite Hlog, Happ, (loadEntriesSettled_success (app w) response d Hs Hd).
    cbn [fst snd]. fold es total. repeat split.
    + rewrite count_app. unfold count. cbn. lia.
    + intros ->. apply in_or_app. right. cbn. auto.
    + intros Hne. apply in_or_app. right. destruct es; [contradiction|]. cbn. auto.
Qed.

End ListResults.

Lemma failed_fetch_keeps_results_witness :
  let w := AdminApp.run RefPlatform.platform AdminApp.initialWorld
             [AdminApp.ViewSwitched AdminApp.WebList;
              AdminApp.ListSettled 0 (Samples.listOf [Samples.entry1] 1);
              AdminApp.PageChanged 2] in
  let w' := AdminApp.step RefPlatform.platform w
              (AdminApp.ListSettled 0 (AdminAPI.Rejected (lit "Failed to fetch"))) in
  nth_error (AdminApp.pendingLists w) 0 <> None /\
  AdminApp.entries (AdminApp.app w') = [Samples.entry1] /\
  AdminApp.totalEntries (AdminApp.app w') = 1.
Proof.
  intros w w'. split; [discriminate|].
  destruct (failed_fetch_keeps_results RefPlatform.platform w 0
              (AdminAPI.Rejected (lit "Failed to fetch")) ltac:(discriminate))
    as [H _].
  destruct (H I) as (He & Ht & _). split; [exact He|exact Ht].
Defined.

(* ------------------------------------------------------------------ *)
(** ** Deleting an entry *)
(* ------------------------------------------------------------------ *)

Section DeleteFlow.
Import AdminApp Guard Spec.
Import AdminAPI.

Variable pf : Platform.

Local Arguments count : simpl never.

Lemma loadEntries_deletions (w : World) : deletions (loadEntries w) = deletions w.
Proof.
  unfold loadEntries, deletions. destruct (isLoading (app w)); [reflexivity|].
  cbn [log]. rewrite count_app. unfold count. cbn. lia.
Qed.

Lemma emit_deletions (w : World) (acts : list Action) :
  count isDeleteEntry acts = 0%nat -> deletions (emit w acts) = deletions w.
Proof.
  intro H. unfold deletions, emit. cbn [log]. rewrite count_app, H. lia.
Qed.

Lemma relayFilterActions_deletions (acts : list AdminFilters.Action) :
  forall w, deletions (relayFilterActions w acts) = deletions w.
Proof.
  induction acts as [|a acts IH]; intro w; [reflexivity|].
  destruct a; cbn [relayFilterActions]; rewrite IH.
  - unfold handleWebFiltersChange. now rewrite loadEntries_deletions.
  - now apply emit_deletions.
  - now apply emit_deletions.
Qed.

Lemma loadEntriesSettled_deletions (a : t) (r : Settled ListData) :
  count isDeleteEntry (snd (loadEntriesSettled a r)) = 0%nat.
Proof.
  unfold loadEntriesSettled, loadEntriesCatch.
  destruct r as [response|msg]; [destruct (success response);
    [destruct (data response)|]|]; reflexivity.
Qed.

(** No event but the click on the confirm button calls the delete
    endpoint. *)
Lemma step_deletions (w : World) (ev : Event) :
  isDeleteConfirmed ev = false -> deletions (step pf w ev) = deletions w.
Proof.
  intro Hev. destruct ev; try discriminate Hev; cbn [step].
  - unfold onFilters. now rewrite relayFilterActions_deletions.
  - unfold onFilters. now rewrite relayFilterActions_deletions.
  - unfold onFilters. now rewrite relayFilterActions_deletions.
  - unfold onFilters. now rewrite relayFilterActions_deletions.
  - unfold handleWebPageChange. now rewrite loadEntries_deletions.
  - unfold switchView.
    destruct v; rewrite ?loadEntries_deletions, ?emit_deletions by reflexivity;
      reflexivity.
  - unfold refreshCurrentView. rewrite emit_deletions by reflexivity.
    destruct (currentView (app w));
      rewrite ?loadEntries_deletions, ?emit_deletions by reflexivity; reflexivity.
  - destruct (nth_error (pendingLists w) i); [|reflexivity].
    pose proof (loadEntriesSettled_deletions (app w) r) as H.
    destruct (loadEntriesSettled (app w) r) as [a acts]. cbn [snd] in H.
    unfold deletions. cbn [log]. rewrite count_app, H. lia.
  - unfold handleDeleteEntry. destruct (findEntry _ _ _); [|reflexivity].
    now rewrite emit_deletions.
  - unfold dismissDelete. now rewrite emit_deletions.
  - destruct (nth_error (pendingDeletes w) i); [|reflexivity].
    unfold deleteSettled. destruct r as [response|msg].
    + destruct (success response).
      * rewrite loadEntries_deletions. now rewrite emit_deletions.
      * now rewrite emit_deletions.
    + now rewrite emit_deletions.
Qed.

(** One click on the confirm button calls it at most once. *)
Lemma confirm_deletions (w : World) :
  (deletions (step pf w DeleteConfirmed) <= S (deletions w))%nat.
Proof.
  cbn [step]. unfold confirmDelete.
  destruct (DeleteModal.deleteCallback _) as [[sheet ser img|c]|];
    unfold deletions, emit, withApp; cbn [log];
    rewrite !count_app; unfold count; cbn; lia.
Qed.

Lemma run_deletions (evs : list Event) : forall w,
  (deletions (run pf w evs) <= deletions w + count isDeleteConfirmed evs)%nat.
Proof.
  induction evs as [|ev evs IH]; intro w; [cbn; lia|].
  cbn [run fold_left]. specialize (IH (step pf w ev)). unfold run in IH.
  change (ev :: evs) with ([ev] ++ evs). rewrite count_app.
  destruct (isDeleteConfirmed ev) eqn:Hev.
  - destruct ev; try discriminate Hev. pose proof (confirm_deletions w).
    change (count isDeleteConfirmed [DeleteConfirmed]) with 1%nat. lia.
  - rewrite (step_deletions w ev Hev) in IH.
    replace (count isDeleteConfirmed [ev]) with 0%nat
      by (unfold count; cbn [filter]; now rewrite Hev).
    lia.
Qed.

Lemma findEntry_key (es : list Entry) (sheet : JsString) (ser : Z) (entry : Entry) :
  findEntry es sheet ser = Some entry ->
  In entry es /\ sheetName entry = sheet /\ serial entry = ser.
Proof.
  intro H. apply find_some in H as [Hin Hk].
  apply andb_true_iff in Hk as [H1 H2].
  apply eqb_eq in H1. apply Z.eqb_eq in H2. auto.
Qed.

(** C7 (as the code has it). The delete endpoint is called only by a
    click on the confirm button of the prompt, which carries the target
    entry's display name; a confirmation calls it exactly once, with
    the entry's partition id (sheetName), its serial and the image file
    reference passed by its card. On success currentPage is left
    unchanged (not reset to page 1) and loadEntries is called: it
    re-fetches the current page when no list fetch is in flight, and is
    dropped by the fetch guard when one is. *)
Theorem delete_needs_confirmation (w : World) :
  (* never called without a confirmation *)
  (forall ev, isDeleteConfirmed ev = false -> deletions (step pf w ev) = deletions w) /\
  (forall evs,
     (deletions (run pf initialWorld evs) <= count isDeleteConfirmed evs)%nat) /\
  (* the prompt names the entry; the confirmation calls the endpoint once *)
  (forall sheet ser img entry,
     findEntry (entries (app w)) sheet ser = Some entry ->
     let w1 := step pf w (DeleteClicked sheet ser img) in
     let w2 := step pf w1 DeleteConfirmed in
     sheetName entry = sheet /\ serial entry = ser /\
     log w1 = log w ++ [OpenDeleteModal (deleteMessage (name entry))] /\
     DeleteModal.modalMessage (deleteModal (app w1)) =
       lit "Are you sure you want to delete " ++ [quote] ++ name entry ++ [quote]
           ++ lit "? This action cannot be undone." /\
     deletions w1 = deletions w /\
     log w2 = log w1 ++ [DeleteEntry (sheetName entry) (serial entry) img;
                         CloseDeleteModal] /\
     pendingDeletes w2 = pendingDeletes w ++ [(sheetName entry, serial entry, img)] /\
     deletions w2 = S (deletions w)) /\
  (forall e,
     findEntry (entries (app w)) (sheetName e) (serial e) = Some e ->
     let '(sheet, ser, img) := cardDeleteArgs e in
     let w2 := step pf (step pf w (DeleteClicked sheet ser img)) DeleteConfirmed in
     In (DeleteEntry (sheetName e) (serial e) (orElse (imageFileId e) Js.empty))
        (log w2)) /\
  (forall sheet ser img,
     findEntry (entries (app w)) sheet ser = None ->
     step pf w (DeleteClicked sheet ser img) = w) /\
  (* on success *)
  (forall i response,
     nth_error (pendingDeletes w) i <> None -> success response = true ->
     let w' := step pf w (DeleteSettled i (Resolved response)) in
     let toast := ShowToast (lit "Entry deleted successfully!") ToastSuccess in
     let params := mkListParams (currentPage (app w)) 12
                     (AdminFilters.getAPIParams (webFilters (app w))) in
     currentPage (app w') = currentPage (app w) /\
     (isLoading (app w) = false ->
        log w' = log w ++ [toast; SetIsLoading true; ShowWebLoading true;
                           GetEntries params] /\
        pendingLists w' = pendingLists w ++ [params]) /\
     (isLoading (app w) = true ->
        log w' = log w ++ [toast] /\ pendingLists w' = pendingLists w)).
Proof.
  split; [apply step_deletions|].
  split; [intro evs; apply (run_deletions evs initialWorld)|].
  assert (Hclick : forall sheet ser img entry,
     findEntry (entries (app w)) sheet ser = Some entry ->
     let w1 := step pf w (DeleteClicked sheet ser img) in
     let w2 := step pf w1 DeleteConfirmed in
     sheetName entry = sheet /\ serial entry = ser /\
     log w1 = log w ++ [OpenDeleteModal (deleteMessage (name entry))] /\
     DeleteModal.modalMessage (deleteModal (app w1)) =
       lit "Are you sure you want to delete " ++ [quote] ++ name entry ++ [quote]
           ++ lit "? This action cannot be undone." /\
     deletions w1 = deletions w /\
     log w2 = log w1 ++ [DeleteEntry (sheetName entry) (serial entry) img;
                         CloseDeleteModal] /\
     pendingDeletes w2 = pendingDeletes w ++ [(sheetName entry, serial entry, img)] /\
     deletions w2 = S (deletions w)).
  { intros sheet ser img entry Hfind w1 w2.
    destruct (findEntry_key _ _ _ _ Hfind) as (_ & Hs & Hr).
    assert (E1 : w1 = emit (withApp w (setDeleteModal (app w)
                    (DeleteModal.openWithCallback (deleteModal (app w))
                       (deleteMessage (name entry))
                       (DeleteModal.DeleteEntryCallback sheet ser img))))
                    [OpenDeleteModal (deleteMessage (name entry))]).
    { subst w1. cbn [step]. unfold handleDeleteEntry. now rewrite Hfind. }
    assert (D1 : deletions w1 = deletions w).
    { rewrite E1. now rewrite emit_deletions. }
    split; [exact Hs|]. split; [exact Hr|].
    split; [now rewrite E1|]. split; [now rewrite E1|]. split; [exact D1|].
    assert (E2 : log w2 = log w1 ++ [DeleteEntry sheet ser img; CloseDeleteModal] /\
                 pendingDeletes w2 = pendingDeletes w ++ [(sheet, ser, img)]).
    { subst w2. rewrite E1. cbn. rewrite <- !app_assoc. split; reflexivity. }
    destruct E2 as [E2 E3]. rewrite Hs, Hr. split; [exact E2|]. split; [exact E3|].
    unfold deletions in *. rewrite E2, count_app, D1. unfold count. cbn. lia. }
  split; [exact Hclick|]. split; [|split].
  - intros e Hfind. unfold cardDeleteArgs.
    destruct (Hclick _ _ (orElse (imageFileId e) Js.empty) e Hfind)
      as (_ & _ & _ & _ & _ & Hlog & _).
    rewrite Hlog. apply in_or_app. right. now left.
  - intros sheet ser img Hfind. cbn [step]. unfold handleDeleteEntry. now rewrite Hfind.
  - intros i response Hi Hs w' toast params. subst w'. cbn [step].
    destruct (nth_error (pendingDeletes w) i); [|now elim Hi].
    unfold deleteSettled. rewrite Hs. split; [|split].
    + unfold loadEntries. cbn. now destruct (isLoading (app w)).
    + intro L. rewrite loadEntries_idle by exact L. cbn.
      rewrite <- app_assoc. split; reflexivity.
    + intro L. rewrite loadEntries_busy by exact L. cbn. split; reflexivity.
Qed.

End DeleteFlow.

Lemma delete_needs_confirmation_witness :
  let w := AdminApp.run RefPlatform.platform AdminApp.initialWorld
             [AdminApp.ViewSwitched AdminApp.WebList;
              AdminApp.ListSettled 0 (Samples.listOf [Samples.entry1] 1);
              AdminApp.PageChanged 3;
              AdminApp.ListSettled 0 (Samples.listOf [Samples.entry1] 25);
              AdminApp.DeleteClicked (lit "Search") 1 (lit "file-1");
              AdminApp.DeleteConfirmed] in
  let w' := AdminApp.step RefPlatform.platform w
              (AdminApp.DeleteSettled 0 Samples.deleted) in
  nth_error (AdminApp.pendingDeletes w) 0 <> None /\
  AdminApp.isLoading (AdminApp.app w) = false /\
  AdminApp.currentPage (AdminApp.app w') = 3 /\
  AdminApp.pendingLists w' =
    [AdminApp.mkListParams 3 12 (AdminFilters.mkAPIParams None None None None)].
Proof.
  intros w w'. split; [discriminate|]. split; [reflexivity|].
  destruct (delete_needs_confirmation RefPlatform.platform w)
    as (_ & _ & _ & _ & _ & H).
  destruct (H 0%nat (AdminAPI.mkResponse true None None) ltac:(discriminate) eq_refl)
    as (Hp & Hidle & _).
  split; [exact Hp|]. destruct (Hidle eq_refl) as [_ Hl]. exact Hl.
Defined.

(** C7 as stated fails when a list fetch is in flight at the moment the
    deletion succeeds: the entry is deleted while a filter change is
    loading, and the success handler issues no list request. *)
Lemma delete_success_refetch_dropped :
  let w := AdminApp.run RefPlatform.platform AdminApp.initialWorld
             [AdminApp.ViewSwitched AdminApp.WebList;
              AdminApp.ListSettled 0 (Samples.listOf [Samples.entry1] 1);
              AdminApp.DeleteClicked (lit "Search") 1 (lit "file-1");
              AdminApp.DeleteConfirmed;
              AdminApp.SearchCommitted (lit "goo")] in
  let w' := AdminApp.step RefPlatform.platform w
              (AdminApp.DeleteSettled 0 Samples.deleted) in
  AdminApp.pendingDeletes w = [(lit "Search", 1, lit "file-1")] /\
  AdminApp.isLoading (AdminApp.app w) = true /\
  AdminApp.log w' =
    AdminApp.log w ++ [AdminApp.ShowToast (lit "Entry deleted successfully!") ToastSuccess] /\
  Guard.fetches w' = Guard.fetches w /\
  AdminApp.pendingLists w' = AdminApp.pendingLists w.
Proof. vm_compute. repeat split. Qed.

(* ------------------------------------------------------------------ *)
(** ** The upload progress display *)
(* ------------------------------------------------------------------ *)

Section UploadProgress.
Import Validators EntrySubmit.

Variable pf : Platform.

Open Scope Q_scope.

(** What the ticks of the timer write to the progress bar. *)
Lemma simulateUploadProgress_spec (draws : list Q) : forall progress,
  Forall (fun r => 0 <= r) draws -> progress <= 90 ->
  nonDecreasing progress (fst (simulateUploadProgress draws progress)) /\
  Forall (fun q => q <= 90) (fst (simulateUploadProgress draws progress)) /\
  (snd (simulateUploadProgress draws progress) = true ->
   exists pre, fst (simulateUploadProgress draws progress) = pre ++ [90]) /\
  (snd (simulateUploadProgress draws progress) = false ->
   Forall (fun q => q < 90) (fst (simulateUploadProgress draws progress))).
Proof.
  induction draws as [|r draws IH]; intros progress Hd Hp.
  - cbn. repeat split; auto. discriminate.
  - inversion Hd as [|? ? Hr Hd']; subst.
    cbn [simulateUploadProgress].
    destruct (Qle_bool 90 (progress + r * 15)) eqn:Hge.
    + cbn. repeat split; auto.
      * repeat constructor. lra.
      * intros _. now exists [].
      * discriminate.
    + assert (Hlt : progress + r * 15 < 90).
      { apply Qnot_le_lt. intro H. apply Qle_bool_iff in H. congruence. }
      destruct (IH (progress + r * 15) Hd' ltac:(lra)) as (Hn & Hall & Hfin & Hrun).
      destruct (simulateUploadProgress draws (progress + r * 15)) as [shown finished].
      cbn [fst snd] in *. repeat split.
      * lra.
      * exact Hn.
      * constructor; [lra|exact Hall].
      * intro Hf. destruct (Hfin Hf) as [pre ->]. now exists ((progress + r * 15) :: pre).
      * intro Hf. constructor; [exact Hlt|now apply Hrun].
Qed.

Lemma progressValues_app (l l' : list Action) :
  progressValues (l ++ l') = (progressValues l ++ progressValues l')%list.
Proof.
  induction l as [|a l IH]; [reflexivity|].
  destruct a; cbn; rewrite ?IH; reflexivity.
Qed.

Lemma progressValues_map (shown : list Q) :
  progressValues (map SetProgress shown) = shown.
Proof. induction shown as [|q shown IH]; [reflexivity|]. cbn. now rewrite IH. Qed.

(** The shape of a submit: what is shown, and where the request sits. *)
Lemma handleAddEntry_shape (d : EntryForm) (draws : list Q) :
  let acts := handleAddEntry pf d draws in
  let validation := validateEntryForm pf (readEntryForm d) in
  (formValid validation = false /\ acts = [ShowFieldErrors (errors validation)]) \/
  (formValid validation = true /\ attachedImage (imageFile d) = None /\
   acts = [ShowUploadProgress true; CreateEntry (data validation)]) \/
  (formValid validation = true /\ attachedImage (imageFile d) <> None /\
   acts = (ShowUploadProgress true ::
           map SetProgress (fst (simulateUploadProgress draws 0)) ++
           (if snd (simulateUploadProgress draws 0)
            then [CreateEntry (data validation)] else []))%list).
Proof.
  intros acts validation. subst acts validation. unfold handleAddEntry.
  destruct (formValid (validateEntryForm pf (readEntryForm d))); cbn [negb]; [|now left].
  right. cbn [imageFile readEntryForm]. destruct (attachedImage (imageFile d)) as [f|].
  - right. destruct (simulateUploadProgress draws 0) as [shown finished].
    repeat split. discriminate.
  - left. auto.
Qed.

Lemma handleSubmit_shape (sheet ser : JsString) (d : EntryForm) (draws : list Q) :
  let acts := handleSubmit pf sheet ser d draws in
  let validation := validateEntryForm pf (readEntryForm d) in
  (formValid validation = false /\ acts = [ShowFieldErrors (errors validation)]) \/
  (formValid validation = true /\ attachedImage (imageFile d) = None /\
   acts = [ShowUploadProgress true; UpdateEntry sheet ser (readEntryForm d)]) \/
  (formValid validation = true /\ attachedImage (imageFile d) <> None /\
   acts = (ShowUploadProgress true ::
           map SetProgress (fst (simulateUploadProgress draws 0)) ++
           (if snd (simulateUploadProgress draws 0)
            then [UpdateEntry sheet ser (readEntryForm d)] else []))%list).
Proof.
  intros acts validation. subst acts validation. unfold handleSubmit.
  destruct (formValid (validateEntryForm pf (readEntryForm d))); cbn [negb]; [|now left].
  right. cbn [imageFile readEntryForm]. destruct (attachedImage (imageFile d)) as [f|].
  - right. destruct (simulateUploadProgress draws 0) as [shown finished].
    repeat split. discriminate.
  - left. auto.
Qed.

(** The common part of the two submit paths. *)
Lemma submit_progress (acts : list Action) (req : Action) (draws : list Q)
      (validForm : bool) (image : option File) :
  Forall (fun r => 0 <= r) draws ->
  isRequest req = true -> progressValues [req] = []%list ->
  ((validForm = false /\ exists errs, acts = [ShowFieldErrors errs]) \/
   (validForm = true /\ image = None /\ acts = [ShowUploadProgress true; req]) \/
   (validForm = true /\ image <> None /\
    acts = (ShowUploadProgress true ::
            map SetProgress (fst (simulateUploadProgress draws 0)) ++
            (if snd (simulateUploadProgress draws 0) then [req] else []))%list)) ->
  nonDecreasing 0 (progressValues acts) /\
  Forall (fun q => q <= 90) (progressValues acts) /\
  (forall a, In a acts -> isRequest a = true ->
     a = req /\ validForm = true /\
     (image <> None -> exists pre, progressValues acts = (pre ++ [90])%list) /\
     exists before, acts = (before ++ [req])%list /\ filter isRequest before = []%list).
Proof.
  intros Hd Hreq Hpv [[Hv [errs ->]]|[(Hv & Hi & ->)|(Hv & Hi & ->)]].
  - split; [exact I|]. split; [constructor|].
    intros a [<-|[]] Ha. discriminate Ha.
  - assert (Hvals : progressValues [ShowUploadProgress true; req] = []%list).
    { exact Hpv. }
    rewrite Hvals. split; [exact I|]. split; [constructor|].
    intros a [<-|[<-|[]]] Ha; [discriminate Ha|].
    split; [reflexivity|]. split; [exact Hv|]. split; [intro H; now elim H|].
    exists [ShowUploadProgress true]. split; reflexivity.
  - destruct (simulateUploadProgress_spec draws 0 Hd ltac:(lra))
      as (Hn & Hall & Hfin & _).
    destruct (simulateUploadProgress draws 0) as [shown finished]. cbn [fst snd] in *.
    assert (Hvals : progressValues
              (ShowUploadProgress true ::
               map SetProgress shown ++ (if finished then [req] else []))%list = shown).
    { cbn [progressValues]. rewrite progressValues_app, progressValues_map.
      destruct finished; [rewrite Hpv|]; cbn; now rewrite app_nil_r. }
    rewrite Hvals. split; [exact Hn|]. split; [exact Hall|].
    intros a [<-|Hin] Ha; [discriminate Ha|].
    apply in_app_or in Hin as [Hin|Hin].
    { apply in_map_iff in Hin as (q & <- & _). discriminate Ha. }
    destruct finished; [|contradiction]. destruct Hin as [<-|[]].
    split; [reflexivity|]. split; [exact Hv|]. split; [intros _; now apply Hfin|].
    exists (ShowUploadProgress true :: map SetProgress shown)%list.
    split; [reflexivity|]. cbn. apply progress_is_no_request.
Qed.

(** C6 (as the code has it). During an entry create or update with an
    attached image the progress display is written zero or more times
    with monotonically non-decreasing percentages that never exceed 90;
    the request that commits the image is sent only after the display
    has reached exactly 90, as part of a form submit that passed
    client-side validation, and nothing is written to the display
    afterwards: it never reaches 100 percent. Selecting a file sends
    nothing. *)
Theorem upload_progress_display (d : EntryForm) (sheet ser : JsString) (draws : list Q) :
  Forall (fun r => 0 <= r) draws ->
  let created := handleAddEntry pf d draws in
  let updated := handleSubmit pf sheet ser d draws in
  let validation := validateEntryForm pf (readEntryForm d) in
  (* create *)
  (nonDecreasing 0 (progressValues created) /\
   Forall (fun q => q <= 90) (progressValues created) /\
   forall a, In a created -> isRequest a = true ->
     a = CreateEntry (data validation) /\
     formValid validation = true /\
     (attachedImage (imageFile d) <> None ->
      exists pre, progressValues created = (pre ++ [90])%list) /\
     exists before, created = (before ++ [a])%list /\
                    filter isRequest before = []%list) /\
  (* update *)
  (nonDecreasing 0 (progressValues updated) /\
   Forall (fun q => q <= 90) (progressValues updated) /\
   forall a, In a updated -> isRequest a = true ->
     a = UpdateEntry sheet ser (readEntryForm d) /\
     formValid validation = true /\
     (attachedImage (imageFile d) <> None ->
      exists pre, progressValues updated = (pre ++ [90])%list) /\
     exists before, updated = (before ++ [a])%list /\
                    filter isRequest before = []%list) /\
  (* after the request has settled, nothing more is shown *)
  (forall r, progressValues (completeAddEntrySettled r) = []%list /\
             progressValues (completeUpdateSettled r) = []%list) /\
  (* file selection alone *)
  (forall file, filter isRequest (handleImagePreview file) = []%list).
Proof.
  intros Hd created updated validation. split; [|split; [|split]].
  - destruct (submit_progress created (CreateEntry (data validation))
                draws (formValid validation) (attachedImage (imageFile d)) Hd
                eq_refl eq_refl) as (Hn & Hall & Hreq).
    { destruct (handleAddEntry_shape d draws) as [[Hv He]|[H|H]]; eauto. }
    split; [exact Hn|]. split; [exact Hall|]. intros a Hin Ha.
    destruct (Hreq a Hin Ha) as (-> & Hv & Hi & Hb). auto.
  - destruct (submit_progress updated (UpdateEntry sheet ser (readEntryForm d))
                draws (formValid validation) (attachedImage (imageFile d)) Hd
                eq_refl eq_refl) as (Hn & Hall & Hreq).
    { destruct (handleSubmit_shape sheet ser d draws) as [[Hv He]|[H|H]]; eauto. }
    split; [exact Hn|]. split; [exact Hall|]. intros a Hin Ha.
    destruct (Hreq a Hin Ha) as (-> & Hv & Hi & Hb). auto.
  - intro r. unfold completeAddEntrySettled, completeUpdateSettled.
    destruct r as [response|msg]; [destruct (AdminAPI.success response)|];
      split; reflexivity.
  - intros [f|]; [|reflexivity]. unfold handleImagePreview.
    destruct (negb (valid (validateImageFile (Some f)))); reflexivity.
Qed.

End UploadProgress.

Lemma upload_progress_display_witness :
  Forall (fun r => (0 <= r)%Q) Samples.halves /\
  Forall (fun q => (q <= 90)%Q)
    (EntrySubmit.progressValues
       (EntrySubmit.handleAddEntry RefPlatform.platform
          (Samples.googleForm (Some Samples.photo)) Samples.halves)).
Proof.
  assert (H : Forall (fun r => (0 <= r)%Q) Samples.halves).
  { unfold Samples.halves. apply Forall_forall. intros r Hr.
    apply repeat_spec in Hr. subst r. discriminate. }
  split; [exact H|].
  apply (upload_progress_display RefPlatform.platform
           (Samples.googleForm (Some Samples.photo)) [] [] Samples.halves H).
Defined.

(** C6 as stated fails: a successful create with an image writes
    percentages that end at 90, and nothing after the request settles;
    the display never gets to 100 percent (the fraction 1.0). The
    progress listener of uploadFile, for its part, reports percentages,
    not fractions: 100 when the upload is complete. *)
Lemma upload_progress_stops_at_90 :
  let run := (EntrySubmit.handleAddEntry RefPlatform.platform
                (Samples.googleForm (Some Samples.photo)) Samples.halves
              ++ EntrySubmit.completeAddEntrySettled Samples.deleted)%list in
  let shown := EntrySubmit.progressValues run in
  EntrySubmit.count_requests run = 1%nat /\
  In (EntrySubmit.ShowToast (lit "Entry added successfully!") ToastSuccess) run /\
  List.length shown = 12%nat /\
  last shown 0%Q = 90%Q /\
  ~ (last shown 0 == 100)%Q /\ ~ (last shown 0 / 100 == 1)%Q /\ ~ (last shown 0 == 1)%Q /\
  AdminAPI.uploadProgressListener true 2048 2048 = Some (2048 / 2048 * 100)%Q /\
  (2048 / 2048 * 100 == 100)%Q.
Proof.
  intros run shown.
  split; [vm_compute; reflexivity|].
  split; [apply in_or_app; right; left; reflexivity|].
  split; [vm_compute; reflexivity|].
  assert (Hlast : last shown 0%Q = 90%Q) by (vm_compute; reflexivity).
  rewrite Hlast.
  split; [reflexivity|].
  split; [intro H; vm_compute in H; discriminate|].
  split; [intro H; vm_compute in H; discriminate|].
  split; [intro H; vm_compute in H; discriminate|].
  split; reflexivity.
Qed.

Lemma single_list_fetch_in_flight_witness :
  let w := AdminApp.run RefPlatform.platform AdminApp.initialWorld
             [AdminApp.ViewSwitched AdminApp.WebList] in
  AdminApp.isLoading (AdminApp.app w) = true /\
  AdminApp.pendingLists (AdminApp.step RefPlatform.platform w (AdminApp.PageChanged 2)) =
    AdminApp.pendingLists w /\
  Guard.fetches (AdminApp.step RefPlatform.platform w (AdminApp.PageChanged 2)) =
    Guard.fetches w.
Proof.
  intro w. split; [reflexivity|].
  destruct (single_list_fetch_in_flight RefPlatform.platform
              [AdminApp.ViewSwitched AdminApp.WebList]) as (_ & _ & H & _).
  destruct (H eq_refl (AdminApp.PageChanged 2) eq_refl) as (Hp & Hf & _).
  split; [exact Hp|exact Hf].
Defined.

(* ------------------------------------------------------------------ *)
(** ** The window as a page list with gaps *)
(* ------------------------------------------------------------------ *)

Section PaginationShape.
Import Pagination PaginationView.

Lemma ceilDiv_spec (a b q : Z) : 0 < b -> (ceilDiv a b = q <-> (q - 1) * b < a <= q * b).
Proof.
  intro Hb. unfold ceilDiv.
  pose proof (Z.div_mod (- a) b ltac:(lia)) as Hdm.
  pose proof (Z.mod_pos_bound (- a) b Hb) as Hm.
  split; intro H; nia.
Qed.

Lemma getPageNumbers_few (p : Pagination.t) :
  totalPages p <= 7 -> getPageNumbers p = pagesFromTo 1 (totalPages p).
Proof.
  intro H. unfold getPageNumbers, maxVisible.
  apply Z.leb_le in H. rewrite H. now rewrite pushRange_spec.
Qed.

Lemma getPageNumbers_near_start (p : Pagination.t) :
  7 < totalPages p -> currentPage p <= 4 ->
  getPageNumbers p =
  [PageNum 1; PageNum 2; PageNum 3; PageNum 4; PageNum 5; Ellipsis;
   PageNum (totalPages p)].
Proof.
  intros H7 H4. unfold getPageNumbers, maxVisible.
  apply Z.leb_gt in H7. rewrite H7. apply Z.leb_le in H4. rewrite H4. reflexivity.
Qed.

Lemma getPageNumbers_near_end (p : Pagination.t) :
  7 < totalPages p -> 4 < currentPage p -> totalPages p - 3 <= currentPage p ->
  getPageNumbers p =
  [PageNum 1; Ellipsis; PageNum (totalPages p - 4); PageNum (totalPages p - 3);
   PageNum (totalPages p - 2); PageNum (totalPages p - 1); PageNum (totalPages p)].
Proof.
  intros H7 H4 H3. unfold getPageNumbers, maxVisible.
  apply Z.leb_gt in H7, H4. rewrite H7, H4. apply Z.leb_le in H3. rewrite H3.
  rewrite pushRange_spec, (pagesFromTo_len _ _ 5) by lia.
  cbn. repeat (f_equal; try lia).
Qed.

Lemma getPageNumbers_middle (p : Pagination.t) :
  7 < totalPages p -> 4 < currentPage p -> currentPage p < totalPages p - 3 ->
  getPageNumbers p =
  [PageNum 1; Ellipsis; PageNum (currentPage p - 1); PageNum (currentPage p);
   PageNum (currentPage p + 1); Ellipsis; PageNum (totalPages p)].
Proof.
  intros H7 H4 H3. unfold getPageNumbers, maxVisible.
  apply Z.leb_gt in H7, H4, H3. rewrite H7, H4, H3.
  rewrite pushRange_spec, (pagesFromTo_len _ _ 3) by lia.
  cbn. repeat (f_equal; try lia).
Qed.

(** In a well spaced window the numbers grow, so each occurs once. *)
Lemma wellSpaced_facts (w : list PageItem) : forall prev,
  wellSpaced prev w = true ->
  prev <= lastPage prev w /\
  (forall m, In (PageNum m) w -> prev < m <= lastPage prev w) /\
  (forall cp, cp <= prev ->
     filter (fun item => match item with PageNum n => n =? cp | Ellipsis => false end) w = []) /\
  (forall cp, In (PageNum cp) w ->
     List.length
       (filter (fun item => match item with PageNum n => n =? cp | Ellipsis => false end) w)
     = 1%nat).
Proof.
  induction w as [|item rest IH]; intros prev Hw.
  - cbn. repeat split; try lia; try reflexivity; intros ? [].
  - assert (Hnum : forall n, wellSpaced prev (PageNum n :: rest) = true ->
      prev <= lastPage prev (PageNum n :: rest) /\
      (forall m, In (PageNum m) (PageNum n :: rest) ->
         prev < m <= lastPage prev (PageNum n :: rest)) /\
      (forall cp, cp <= prev ->
         filter (fun item => match item with PageNum n => n =? cp | Ellipsis => false end)
                (PageNum n :: rest) = []) /\
      (forall cp, In (PageNum cp) (PageNum n :: rest) ->
         List.length
           (filter (fun item => match item with PageNum n => n =? cp | Ellipsis => false end)
                   (PageNum n :: rest)) = 1%nat) /\
      prev < n).
    { intros n Hn. cbn [wellSpaced] in Hn. apply andb_true_iff in Hn as [Hn Hr].
      apply Z.eqb_eq in Hn. destruct (IH n Hr) as (Hl & Hin & Hzero & Hone).
      cbn [lastPage filter]. repeat split; try lia.
      - destruct H as [H|H]; [injection H as <-; lia|]. apply Hin in H. lia.
      - destruct H as [H|H]; [injection H as <-; lia|]. apply Hin in H. lia.
      - intros cp Hcp. replace (n =? cp) with false by (symmetry; apply Z.eqb_neq; lia).
        apply Hzero. lia.
      - intros cp [H|H].
        + injection H as <-. rewrite Z.eqb_refl. cbn [List.length].
          rewrite (Hzero n) by lia. reflexivity.
        + pose proof (Hin cp H).
          replace (n =? cp) with false by (symmetry; apply Z.eqb_neq; lia).
          now apply Hone. }
    destruct item as [n|].
    + destruct (Hnum n Hw) as (H1 & H2 & H3 & H4 & _). auto.
    + destruct rest as [|[n|] r]; try discriminate Hw.
      cbn [wellSpaced] in Hw. apply andb_true_iff in Hw as [Hgap Hr].
      apply Z.leb_le in Hgap.
      assert (Hw' : wellSpaced (n - 1) (PageNum n :: r) = true).
      { cbn [wellSpaced]. apply andb_true_iff. split; [apply Z.eqb_eq; lia|exact Hr]. }
      specialize (IH (n - 1) Hw'). destruct IH as (Hl & Hin & Hzero & Hone).
      cbn [lastPage] in *. repeat split.
      * lia.
      * destruct H as [H|H]; [discriminate|]. apply Hin in H. lia.
      * destruct H as [H|H]; [discriminate|]. apply Hin in H. lia.
      * intros cp Hcp. cbn [filter]. apply (Hzero cp). lia.
      * intros cp [H|H]; [discriminate|]. cbn [filter]. now apply Hone.
Qed.

Ltac spaced :=
  cbn [wellSpaced];
  repeat (apply andb_true_iff; split);
  try (apply Z.eqb_eq; lia); try (apply Z.leb_le; lia); reflexivity.

(** The window, whatever the current page: it reads as the page list
    1..totalPages with gaps, and ends on the last page. *)
Lemma getPageNumbers_wellSpaced (p : Pagination.t) :
  1 <= totalPages p ->
  wellSpaced 0 (getPageNumbers p) = true /\
  lastPage 0 (getPageNumbers p) = totalPages p /\
  (List.length (getPageNumbers p) <= 7)%nat.
Proof.
  intro H1. destruct (Z_le_gt_dec (totalPages p) 7) as [H7|H7].
  - rewrite (getPageNumbers_few p H7).
    assert (Hk : totalPages p = 1 \/ totalPages p = 2 \/ totalPages p = 3 \/
                 totalPages p = 4 \/ totalPages p = 5 \/ totalPages p = 6 \/
                 totalPages p = 7) by lia.
    repeat (destruct Hk as [Hk|Hk];
            [rewrite Hk; split; [reflexivity|split; [reflexivity|vm_compute; lia]]|]).
    rewrite Hk. split; [reflexivity|split; [reflexivity|vm_compute; lia]].
  - destruct (Z_le_gt_dec (currentPage p) 4) as [H4|H4].
    + rewrite getPageNumbers_near_start by lia. split; [spaced|]. split; [reflexivity|].
      cbn. lia.
    + destruct (Z_le_gt_dec (totalPages p - 3) (currentPage p)) as [H3|H3].
      * rewrite getPageNumbers_near_end by lia. split; [spaced|].
        split; [cbn; lia|]. cbn. lia.
      * rewrite getPageNumbers_middle by lia. split; [spaced|].
        split; [reflexivity|]. cbn. lia.
Qed.


Lemma getPageNumbers_no_pages (p : Pagination.t) :
  totalPages p <= 0 -> getPageNumbers p = [].
Proof.
  intro H. rewrite getPageNumbers_few by lia. unfold pagesFromTo.
  replace (Z.to_nat (totalPages p - 1 + 1)) with 0%nat by lia. reflexivity.
Qed.



(** X2. Every page number shown in the window can be clicked: the
    attribute written for it parses back to the number, the click moves
    the controller to that page and calls the registered callback once
    with it; only the button of the current page does nothing. *)
Theorem window_buttons_reach_their_page (p : Pagination.t) (n : Z) :
  In (PageNum n) (getPageNumbers p) ->
  let r := handlePageClick p (pageAttr n) in
  (n = currentPage p -> r = (p, [])) /\
  (n <> currentPage p ->
     fst r = setCurrentPage p n /\
     (onPageChange p = true ->
        callbackCount (snd r) = 1%nat /\ In (CallOnPageChange n) (snd r))).
Proof.
  intros Hin r. subst r. unfold pageAttr.
  rewrite (handlePageClick_number p _ n (parseInt10_numberToString n)).
  assert (Hr : 1 <= n <= totalPages p).
  { destruct (Z_le_gt_dec (totalPages p) 0) as [H0|H0].
    - rewrite (getPageNumbers_no_pages p H0) in Hin. destruct Hin.
    - destruct (getPageNumbers_wellSpaced p ltac:(lia)) as (Hw & Hl & _).
      destruct (wellSpaced_facts _ 0 Hw) as (_ & Hb & _). apply Hb in Hin. lia. }
  split.
  - intros ->. apply commitPage_stays. now left.
  - intro Hne. destruct (commitPage_moves p n Hne Hr) as [Hcp Hcb].
    split; [|exact Hcb].
    unfold commitPage in *.
    destruct (negb (n =? currentPage p) && (1 <=? n) && (n <=? totalPages p)) eqn:E;
      [reflexivity|].
    cbn [fst] in Hcp. congruence.
Qed.

Lemma window_buttons_reach_their_page_witness :
  In (PageNum 10) (getPageNumbers (Pagination.mk true 9 20 231 12 true)) /\
  fst (handlePageClick (Pagination.mk true 9 20 231 12 true) (pageAttr 10)) =
  setCurrentPage (Pagination.mk true 9 20 231 12 true) 10.
Proof.
  assert (Hin : In (PageNum 10) (getPageNumbers (Pagination.mk true 9 20 231 12 true))).
  { vm_compute. auto 10. }
  split; [exact Hin|].
  destruct (window_buttons_reach_their_page _ 10 Hin) as [_ H].
  destruct (H ltac:(cbn; lia)) as [Hfst _]. exact Hfst.
Defined.

(** X3. [setItemsPerPage] with a positive page size, on a controller
    whose current page is at least 1 and whose item count is not
    negative: the size is stored, the current page is lowered to the
    last page that the new size leaves (never below 1), so that its
    first item exists whenever there are items; the stored page count,
    however, is not recomputed. The controls are drawn from the new
    state. *)
Theorem setItemsPerPage_clamps_page (p : Pagination.t) (newSize : Z) :
  0 < newSize -> 0 <= totalItems p -> 1 <= currentPage p ->
  exists p',
    setItemsPerPage p newSize = Some (p', render p') /\
    itemsPerPage p' = newSize /\
    totalItems p' = totalItems p /\
    totalPages p' = totalPages p /\
    currentPage p' = Z.min (currentPage p) (Z.max 1 (ceilDiv (totalItems p) newSize)) /\
    (0 < totalItems p -> startItem (generatePaginationHTML p') <= totalItems p).
Proof.
  intros Hs Ht Hc.
  destruct (ceilDiv_spec (totalItems p) newSize (ceilDiv (totalItems p) newSize) Hs)
    as [Hq _].
  specialize (Hq eq_refl). set (m := ceilDiv (totalItems p) newSize) in *.
  assert (Hm : 0 <= m) by nia.
  unfold setItemsPerPage, ceilQuotient. cbn [itemsPerPage totalItems currentPage].
  replace (newSize =? 0) with false by (symmetry; apply Z.eqb_neq; lia).
  fold m. destruct (m <? currentPage p) eqn:E.
  - apply Z.ltb_lt in E. eexists. split; [reflexivity|].
    unfold generatePaginationHTML, setCurrentPage.
    cbn [itemsPerPage totalItems totalPages currentPage startItem].
    destruct (m =? 0) eqn:E0.
    + apply Z.eqb_eq in E0. repeat split; lia.
    + apply Z.eqb_neq in E0. repeat split; try lia; intro; nia.
  - apply Z.ltb_ge in E. eexists. split; [reflexivity|].
    unfold generatePaginationHTML.
    cbn [itemsPerPage totalItems totalPages currentPage startItem].
    repeat split; try lia; intro; nia.
Qed.

Lemma setItemsPerPage_clamps_page_witness :
  exists p',
    setItemsPerPage (Pagination.mk true 9 20 231 12 true) 50 = Some (p', render p') /\
    currentPage p' = 5 /\ totalPages p' = 20.
Proof.
  destruct (setItemsPerPage_clamps_page (Pagination.mk true 9 20 231 12 true) 50)
    as (p' & He & _ & _ & Htp & Hcp & _); [lia | cbn; lia | cbn; lia |].
  exists p'. split; [exact He|]. split; [rewrite Hcp; reflexivity | exact Htp].
Defined.

(** X4. The range line of the controls. When the page count is the one
    the list loaders pass (the item count divided by the page size,
    rounded up) and the current page is in range, "Showing a-b of N" is a
    non-empty range inside 1..N of at most one page size; page 1 starts
    at item 1, the last page ends at item N, every other page shows a
    full page and the next page starts right after it. The previous
    button is disabled exactly on page 1, the next button exactly on the
    last page. *)
Theorem shown_range_tiles_items (p : Pagination.t) :
  0 < itemsPerPage p -> 0 < totalItems p ->
  totalPages p = ceilDiv (totalItems p) (itemsPerPage p) ->
  1 <= currentPage p <= totalPages p ->
  let c := generatePaginationHTML p in
  1 <= startItem c <= endItem c /\ endItem c <= totalItems p /\
  endItem c - startItem c + 1 <= itemsPerPage p /\
  shownTotal c = totalItems p /\
  (prevDisabled c = true <-> currentPage p = 1) /\
  (nextDisabled c = true <-> currentPage p = totalPages p) /\
  (currentPage p = 1 -> startItem c = 1) /\
  (currentPage p = totalPages p -> endItem c = totalItems p) /\
  (currentPage p < totalPages p ->
     endItem c - startItem c + 1 = itemsPerPage p /\
     startItem (generatePaginationHTML (setCurrentPage p (currentPage p + 1))) =
     endItem c + 1).
Proof.
  intros Hs Ht Htp Hc c. subst c.
  symmetry in Htp. apply (ceilDiv_spec _ _ _ Hs) in Htp.
  unfold generatePaginationHTML, setCurrentPage.
  cbn [startItem endItem shownTotal prevDisabled nextDisabled
       itemsPerPage totalItems totalPages currentPage].
  rewrite !Z.eqb_eq.
  split; [split; [nia|apply Z.min_glb; nia]|].
  split; [apply Z.le_min_r|].
  split; [pose proof (Z.le_min_l (currentPage p * itemsPerPage p) (totalItems p)); lia|].
  split; [reflexivity|].
  split; [tauto|]. split; [tauto|].
  split; [intro H; rewrite H; lia|].
  split; [intro H; apply Z.min_r; rewrite H; lia|].
  intro H. rewrite Z.min_l by nia. split; lia.
Qed.

Lemma shown_range_tiles_items_witness :
  startItem (generatePaginationHTML (Pagination.mk true 20 20 231 12 true)) = 229 /\
  endItem (generatePaginationHTML (Pagination.mk true 20 20 231 12 true)) = 231.
Proof.
  destruct (shown_range_tiles_items (Pagination.mk true 20 20 231 12 true))
    as (_ & _ & _ & _ & _ & _ & _ & Hend & _);
    [cbn; lia | cbn; lia | reflexivity | cbn; lia |].
  split; [reflexivity | apply Hend; reflexivity].
Defined.

End PaginationShape.

(* ------------------------------------------------------------------ *)
(** ** Trimming *)
(* ------------------------------------------------------------------ *)

Section Trimming.

Lemma trimStart_head (s r : JsString) (c : Z) :
  trimStart s = c :: r -> isWhiteSpace c = false.
Proof.
  induction s as [|x s IH]; simpl; [discriminate|].
  destruct (isWhiteSpace x) eqn:E; [exact IH|].
  intro H. injection H as <- _. exact E.
Qed.

Lemma trimStart_idem (s : JsString) : trimStart (trimStart s) = trimStart s.
Proof.
  induction s as [|x s IH]; simpl; [reflexivity|].
  destruct (isWhiteSpace x) eqn:E; [exact IH|]. simpl. now rewrite E.
Qed.

Lemma trimStart_app_last (u : JsString) (c : Z) :
  isWhiteSpace c = false -> trimStart (u ++ [c]) = trimStart u ++ [c].
Proof.
  intro Hc. induction u as [|x u IH]; simpl; [now rewrite Hc|].
  destruct (isWhiteSpace x); [exact IH|reflexivity].
Qed.

Lemma trimEnd_cons (c : Z) (r : JsString) :
  isWhiteSpace c = false -> trimEnd (c :: r) = c :: trimEnd r.
Proof.
  intro Hc. unfold trimEnd. simpl rev.
  rewrite (trimStart_app_last _ _ Hc), rev_app_distr. reflexivity.
Qed.

Lemma trimEnd_idem (s : JsString) : trimEnd (trimEnd s) = trimEnd s.
Proof. unfold trimEnd. now rewrite rev_involutive, trimStart_idem. Qed.

Lemma trim_cons (c : Z) (r : JsString) :
  isWhiteSpace c = false -> trim (c :: r) = c :: trimEnd r.
Proof.
  intro Hc. unfold trim. simpl trimStart. rewrite Hc. now apply trimEnd_cons.
Qed.

Lemma trim_unfold (s : JsString) :
  trim s = match trimStart s with
           | [] => []
           | c :: r => c :: trimEnd r
           end.
Proof.
  unfold trim. destruct (trimStart s) as [|c r] eqn:E; [reflexivity|].
  apply trimEnd_cons. exact (trimStart_head _ _ _ E).
Qed.

(** Trimming what is trimmed changes nothing. *)
Lemma trim_idem (s : JsString) : trim (trim s) = trim s.
Proof.
  rewrite (trim_unfold s). destruct (trimStart s) as [|c r] eqn:E; [reflexivity|].
  rewrite (trim_cons _ _ (trimStart_head _ _ _ E)). now rewrite trimEnd_idem.
Qed.

Lemma trimEnd_trim (s : JsString) : trimEnd (trim s) = trim s.
Proof. unfold trim. apply trimEnd_idem. Qed.

Lemma trimEnd_prefix (p s : JsString) :
  Forall (fun c => isWhiteSpace c = false) p ->
  trimEnd (p ++ s) = p ++ trimEnd s.
Proof.
  intros H. induction H as [|c p Hc _ IH]; [reflexivity|].
  simpl List.app. rewrite (trimEnd_cons _ _ Hc). now rewrite IH.
Qed.

Lemma startsWith_app (p s : JsString) : startsWith (p ++ s) p = true.
Proof.
  induction p as [|c p IH]; [now destruct s|].
  simpl. now rewrite Z.eqb_refl.
Qed.

Lemma trim_https (s : JsString) :
  trim (lit "https://" ++ trim s) = lit "https://" ++ trim s.
Proof.
  change (lit "https://" ++ trim s) with (104 :: (lit "ttps://" ++ trim s)).
  rewrite trim_cons by reflexivity. f_equal.
  rewrite trimEnd_prefix by (repeat constructor).
  now rewrite trimEnd_trim.
Qed.

End Trimming.

(* ------------------------------------------------------------------ *)
(** ** Form rules *)
(* ------------------------------------------------------------------ *)

Section FormRules.
Import Validators CategoryForms.
Variable pf : Platform.

Lemma validateRequired_valid (value fieldName : JsString) :
  valid (validateRequired value fieldName) = negb (isBlank value).
Proof. unfold validateRequired. now destruct (isBlank value). Qed.

Lemma validateLength_valid (value fieldName : JsString) (lo hi : Z) :
  valid (validateLength value lo hi fieldName) = true <-> lo <= len (trim value) <= hi.
Proof.
  unfold validateLength.
  destruct (len (trim value) <? lo) eqn:E1.
  - apply Z.ltb_lt in E1. cbn. split; [discriminate|lia].
  - apply Z.ltb_ge in E1. destruct (hi <? len (trim value)) eqn:E2.
    + apply Z.ltb_lt in E2. cbn. split; [discriminate|lia].
    + apply Z.ltb_ge in E2. cbn. split; [lia|reflexivity].
Qed.

Lemma len_pos_not_blank (value : JsString) (lo : Z) :
  0 < lo -> lo <= len (trim value) -> isBlank value = false.
Proof.
  intros H0 H. apply isBlank_false_iff. intro E. rewrite E in H. cbn in H. lia.
Qed.

(** A required field with a positive minimum length: the length check
    decides. *)
Lemma required_then_length_valid (value fieldName : JsString) (lo hi : Z) :
  0 < lo ->
  (valid (let requiredResult := validateRequired value fieldName in
          if negb (valid requiredResult) then requiredResult
          else
            let lengthResult := validateLength value lo hi fieldName in
            if negb (valid lengthResult) then lengthResult else pass) = true
   <-> lo <= len (trim value) <= hi).
Proof.
  intro H0. cbv zeta. rewrite validateRequired_valid, negb_involutive.
  destruct (isBlank value) eqn:Hb.
  - unfold validateRequired. rewrite Hb. cbn. split; [discriminate|].
    intros [H _]. rewrite (len_pos_not_blank _ _ H0 H) in Hb. discriminate.
  - destruct (valid (validateLength value lo hi fieldName)) eqn:Hl; cbn [negb].
    + cbn. split; [intros _|reflexivity]. now apply validateLength_valid in Hl.
    + rewrite Hl. split; [discriminate|]. intro H.
      apply (validateLength_valid value fieldName) in H. congruence.
Qed.

Lemma validateWebsiteName_valid (n : JsString) :
  valid (validateWebsiteName n) = true <-> 2 <= len (trim n) <= 100.
Proof. unfold validateWebsiteName. apply required_then_length_valid. lia. Qed.

Lemma validateDescription_valid (n : JsString) :
  valid (validateDescription n) = true <-> 10 <= len (trim n) <= 1000.
Proof. unfold validateDescription. apply required_then_length_valid. lia. Qed.

Lemma validateImageFile_valid (file : option File) :
  valid (validateImageFile file) = true <->
  (forall f, file = Some f -> In (fileType f) allowedTypes /\ fileSize f <= maxSize).
Proof.
  destruct file as [f|]; cbn [validateImageFile].
  - destruct (existsb (Js.eqb (fileType f)) allowedTypes) eqn:Et; cbn [negb].
    + apply existsb_exists in Et as (ty & Hin & Heq). apply eqb_eq in Heq. subst ty.
      destruct (maxSize <? fileSize f) eqn:Es.
      * apply Z.ltb_lt in Es. cbn. split; [discriminate|].
        intro H. destruct (H f eq_refl). unfold maxSize in *. lia.
      * apply Z.ltb_ge in Es. cbn. split; [|reflexivity].
        intros _ g Hg. injection Hg as <-. now split.
    + cbn. split; [discriminate|]. intro H. destruct (H f eq_refl) as [Hin _].
      assert (existsb (Js.eqb (fileType f)) allowedTypes = true).
      { apply existsb_exists. exists (fileType f). split; [exact Hin|apply eqb_refl]. }
      congruence.
  - cbn. split; [|reflexivity]. intros _ f Hf. discriminate.
Qed.

Lemma pushError_fields (errs : list FieldError) (fld : JsString) (r : Result) :
  map field (pushError errs fld r) =
  map field errs ++ (if valid r then [] else [fld]).
Proof.
  unfold pushError. destruct (valid r); cbn [negb].
  - now rewrite app_nil_r.
  - now rewrite map_app.
Qed.

Lemma validateEntryForm_fields (d : EntryForm) :
  map field (errors (validateEntryForm pf d)) =
  (if valid (validateWebsiteName (name d)) then [] else [lit "name"]) ++
  (if valid (validateRequired (category d) (lit "Category")) then [] else [lit "category"]) ++
  (if valid (validateUrl pf (formUrl d)) then [] else [lit "url"]) ++
  (if valid (validateDescription (description d)) then [] else [lit "description"]) ++
  (if valid (validateImageFile (imageFile d)) then [] else [lit "image"]).
Proof.
  unfold validateEntryForm. cbn [errors].
  destruct (imageFile d) as [f|].
  - rewrite !pushError_fields. cbn [map List.app].
    repeat rewrite <- List.app_assoc. reflexivity.
  - rewrite !pushError_fields. cbn [map List.app validateImageFile valid pass].
    repeat rewrite <- List.app_assoc. now rewrite app_nil_r.
Qed.

(** X5. The entry form is accepted exactly when the trimmed name has 2
    to 100 code units, the category is not blank, the URL check passes,
    the trimmed description has 10 to 1000 code units, and an attached
    file has an allowed type and at most 5 MiB. The error list names the
    failing fields, each once, in the order name, category, url,
    description, image, and is empty exactly when the form is accepted. *)
Theorem validateEntryForm_accepts_iff (d : EntryForm) :
  (formValid (validateEntryForm pf d) = true <->
     2 <= len (trim (name d)) <= 100 /\
     trim (category d) <> [] /\
     valid (validateUrl pf (formUrl d)) = true /\
     10 <= len (trim (description d)) <= 1000 /\
     (forall f, imageFile d = Some f ->
        In (fileType f) allowedTypes /\ fileSize f <= 5 * 1024 * 1024)) /\
  (formValid (validateEntryForm pf d) = true <-> errors (validateEntryForm pf d) = []) /\
  map field (errors (validateEntryForm pf d)) =
    (if (2 <=? len (trim (name d))) && (len (trim (name d)) <=? 100)
     then [] else [lit "name"]) ++
    (if isBlank (category d) then [lit "category"] else []) ++
    (if valid (validateUrl pf (formUrl d)) then [] else [lit "url"]) ++
    (if (10 <=? len (trim (description d))) && (len (trim (description d)) <=? 1000)
     then [] else [lit "description"]) ++
    (if valid (validateImageFile (imageFile d)) then [] else [lit "image"]).
Proof.
  assert (Hv : formValid (validateEntryForm pf d) = true <->
               errors (validateEntryForm pf d) = []).
  { unfold validateEntryForm at 1. cbn [formValid].
    fold (errors (validateEntryForm pf d)).
    change (errors (validateEntryForm pf d)) with
      (errors (validateEntryForm pf d)).
    rewrite Nat.eqb_eq. unfold validateEntryForm. cbn [errors].
    split; intro H; [now apply length_zero_iff_nil|now rewrite H]. }
  assert (Hf := validateEntryForm_fields d).
  assert (Hn : valid (validateWebsiteName (name d)) =
               (2 <=? len (trim (name d))) && (len (trim (name d)) <=? 100)).
  { apply eq_true_iff_eq. rewrite validateWebsiteName_valid, andb_true_iff.
    rewrite !Z.leb_le. tauto. }
  assert (Hd : valid (validateDescription (description d)) =
               (10 <=? len (trim (description d))) &&
               (len (trim (description d)) <=? 1000)).
  { apply eq_true_iff_eq. rewrite validateDescription_valid, andb_true_iff.
    rewrite !Z.leb_le. tauto. }
  rewrite validateRequired_valid in Hf. rewrite Hn, Hd in Hf.
  split; [|split; [exact Hv|]].
  - rewrite Hv. split.
    + intro He. rewrite He in Hf. cbn [map] in Hf. symmetry in Hf.
      apply app_eq_nil in Hf as [H1 Hf]. apply app_eq_nil in Hf as [H2 Hf].
      apply app_eq_nil in Hf as [H3 Hf]. apply app_eq_nil in Hf as [H4 H5].
      destruct ((2 <=? len (trim (name d))) && (len (trim (name d)) <=? 100)) eqn:E1;
        [|discriminate].
      destruct (isBlank (category d)) eqn:E2; [discriminate|].
      destruct (valid (validateUrl pf (formUrl d))) eqn:E3; [|discriminate].
      destruct ((10 <=? len (trim (description d))) &&
                (len (trim (description d)) <=? 1000)) eqn:E4; [|discriminate].
      destruct (valid (validateImageFile (imageFile d))) eqn:E5; [|discriminate].
      apply andb_true_iff in E1 as [E1 E1']. apply andb_true_iff in E4 as [E4 E4'].
      apply Z.leb_le in E1, E1', E4, E4'.
      split; [lia|]. split; [now apply isBlank_false_iff|]. split; [reflexivity|].
      split; [lia|]. now apply validateImageFile_valid.
    + intros (H1 & H2 & H3 & H4 & H5).
      apply isBlank_false_iff in H2. apply validateImageFile_valid in H5.
      rewrite H2, H3, H5 in Hf.
      replace ((2 <=? len (trim (name d))) && (len (trim (name d)) <=? 100))
        with true in Hf
        by (symmetry; apply andb_true_iff; rewrite !Z.leb_le; lia).
      replace ((10 <=? len (trim (description d))) &&
               (len (trim (description d)) <=? 1000)) with true in Hf
        by (symmetry; apply andb_true_iff; rewrite !Z.leb_le; lia).
      cbn in Hf. now apply map_eq_nil in Hf.
  - rewrite Hf. now destruct (isBlank (category d)).
Qed.

(** X6. What the URL check returns is a fixed point of it: the accepted
    URL is trimmed and carries a scheme, checking it again accepts it and
    returns it unchanged, and so does the URL check of the API layer. *)
Theorem validateUrl_output_is_stable (u u' : JsString) :
  validateUrl pf u = passUrl u' ->
  trim u' = u' /\
  startsWith u' (lit "http://") || startsWith u' (lit "https://") = true /\
  validateUrl pf u' = passUrl u' /\
  ApiUrl.validateUrl pf u' = Some u'.
Proof.
  intro H.
  assert (Hvalid : valid (validateUrl pf u) = true) by now rewrite H.
  pose proof (validateUrl_valid_url pf u Hvalid) as Hn. rewrite H in Hn.
  injection Hn as Hu'.
  rewrite validateUrl_unfold in H.
  destruct (isBlank u) eqn:Hb; [discriminate|].
  apply isBlank_false_iff in Hb.
  assert (Htrim : trim u' = u').
  { rewrite Hu'. unfold Spec.normalizeUrl.
    destruct (startsWith (trim u) (lit "http://") || startsWith (trim u) (lit "https://"));
      [apply trim_idem|apply trim_https]. }
  assert (Hscheme : startsWith u' (lit "http://") || startsWith u' (lit "https://") = true).
  { rewrite Hu'. unfold Spec.normalizeUrl.
    destruct (startsWith (trim u) (lit "http://") || startsWith (trim u) (lit "https://"))
      eqn:E; [exact E|].
    rewrite startsWith_app. apply orb_true_r. }
  assert (Hnorm : Spec.normalizeUrl u' = u').
  { unfold Spec.normalizeUrl. rewrite Htrim, Hscheme. reflexivity. }
  assert (Hne : u' <> []).
  { intro E. rewrite E in Hscheme. discriminate. }
  rewrite <- Hu' in H.
  split; [exact Htrim|]. split; [exact Hscheme|]. split.
  - rewrite validateUrl_unfold.
    assert (Hb' : isBlank u' = false).
    { apply isBlank_false_iff. now rewrite Htrim. }
    rewrite Hb', Hnorm. exact H.
  - unfold ApiUrl.validateUrl. destruct u' as [|c r]; [contradiction|].
    apply orb_true_iff in Hscheme.
    assert (Hif : negb (startsWith (c :: r) (lit "http://")) &&
                  negb (startsWith (c :: r) (lit "https://")) = false).
    { destruct Hscheme as [E|E]; rewrite E; cbn; [reflexivity|apply andb_false_r]. }
    rewrite Hif.
    destruct (urlHostname pf (c :: r)); [reflexivity|discriminate].
Qed.

Lemma validateCategoryName_valid (n : JsString) :
  valid (validateCategoryName n) = true <->
  2 <= len (trim n) <= 50 /\ forallb isCategoryChar (trim n) = true.
Proof.
  unfold validateCategoryName.
  rewrite validateRequired_valid, negb_involutive.
  destruct (isBlank n) eqn:Hb.
  - unfold validateRequired. rewrite Hb. cbn. split; [discriminate|].
    intros [[H _] _]. rewrite (len_pos_not_blank n 2) in Hb; [discriminate|lia|exact H].
  - destruct (valid (validateLength n 2 50 (lit "Category name"))) eqn:Hl; cbn [negb].
    + apply validateLength_valid in Hl.
      assert (Hp : validPatternTest (trim n) = forallb isCategoryChar (trim n)).
      { unfold validPatternTest. destruct (trim n) eqn:E; [|reflexivity].
        cbn in Hl. lia. }
      rewrite Hp. destruct (forallb isCategoryChar (trim n)); cbn.
      * split; [intros _; now split|reflexivity].
      * split; [discriminate|]. intros [_ H]. discriminate.
    + rewrite Hl. split; [discriminate|]. intros [H _].
      apply (validateLength_valid n (lit "Category name")) in H. congruence.
Qed.

Lemma isWhiteSpace_isCategoryChar (c : Z) :
  isWhiteSpace c = true -> isCategoryChar c = true.
Proof.
  intro H. unfold isCategoryChar. rewrite H.
  rewrite !orb_true_r. reflexivity.
Qed.

Lemma forallb_trimStart (s : JsString) :
  forallb isCategoryChar (trimStart s) = forallb isCategoryChar s.
Proof.
  induction s as [|c s IH]; [reflexivity|]. simpl.
  destruct (isWhiteSpace c) eqn:E; [|reflexivity].
  rewrite (isWhiteSpace_isCategoryChar _ E). exact IH.
Qed.

Lemma forallb_rev (f : Z -> bool) (s : JsString) : forallb f (rev s) = forallb f s.
Proof.
  induction s as [|c s IH]; [reflexivity|].
  simpl. rewrite forallb_app, IH. simpl. rewrite andb_true_r. apply andb_comm.
Qed.

Lemma forallb_trim (s : JsString) :
  forallb isCategoryChar (trim s) = forallb isCategoryChar s.
Proof.
  unfold trim, trimEnd.
  now rewrite forallb_rev, forallb_trimStart, forallb_rev, forallb_trimStart.
Qed.

(** X7. Category names on their way to the backend. The add form sends
    a create request exactly when the name, trimmed, has 2 to 50 code
    units and every code unit of the name is a letter, a digit, white
    space, a hyphen or an underscore; the request then carries the name
    as typed, surrounding white space included. Otherwise the one error
    of the [name] field is shown and nothing is sent. The rename prompt
    checks nothing of this: any answer that is not empty and differs
    from the old name is sent. *)
Theorem category_name_rule (n : JsString) :
  (handleAddCategory n = [CreateCategory n] <->
     2 <= len (trim n) <= 50 /\ forallb isCategoryChar n = true) /\
  (handleAddCategory n <> [CreateCategory n] ->
     exists msg, handleAddCategory n = [ShowFieldErrors [mkFieldError (lit "name") msg]]) /\
  (forall old, n <> [] -> n <> old ->
     handleEditCategory old (Some n) = [UpdateCategory old n]).
Proof.
  assert (Hshape : handleAddCategory n =
            if valid (validateCategoryName n) then [CreateCategory n]
            else [ShowFieldErrors
                    [mkFieldError (lit "name")
                       (orElse (message (validateCategoryName n)) Js.empty)]]).
  { unfold handleAddCategory, validateCategoryForm, pushError.
    destruct (valid (validateCategoryName n)); reflexivity. }
  split; [|split].
  - rewrite <- forallb_trim, <- validateCategoryName_valid, Hshape.
    destruct (valid (validateCategoryName n)); split; intro H;
      try reflexivity; discriminate.
  - rewrite Hshape. destruct (valid (validateCategoryName n)).
    + intro H. now contradiction H.
    + intros _. eexists. reflexivity.
  - intros old Hne Hold. unfold handleEditCategory.
    apply eqb_neq in Hold. rewrite Hold.
    assert (He : Js.eqb n Js.empty = false) by now apply eqb_neq.
    now rewrite He.
Qed.

End FormRules.

Lemma validateEntryForm_accepts_iff_witness :
  Validators.formValid
    (Validators.validateEntryForm RefPlatform.platform
       (Samples.googleForm (Some Samples.photo))) = true.
Proof.
  apply (proj1 (validateEntryForm_accepts_iff RefPlatform.platform
                  (Samples.googleForm (Some Samples.photo)))).
  split; [vm_compute; split; discriminate|].
  split; [vm_compute; discriminate|].
  split; [vm_compute; reflexivity|].
  split; [vm_compute; split; discriminate|].
  intros f H. injection H as <-. split; [cbn; auto 10|vm_compute; discriminate].
Defined.

Lemma validateUrl_output_is_stable_witness :
  Validators.validateUrl RefPlatform.platform (lit " google.com ") =
    Validators.passUrl (lit "https://google.com") /\
  Validators.validateUrl RefPlatform.platform (lit "https://google.com") =
    Validators.passUrl (lit "https://google.com").
Proof.
  assert (H : Validators.validateUrl RefPlatform.platform (lit " google.com ") =
              Validators.passUrl (lit "https://google.com")) by (vm_compute; reflexivity).
  split; [exact H|].
  exact (proj1 (proj2 (proj2
           (validateUrl_output_is_stable RefPlatform.platform _ _ H)))).
Defined.

Lemma category_name_rule_witness :
  CategoryForms.handleAddCategory (lit " Dev Tools ") =
  [CategoryForms.CreateCategory (lit " Dev Tools ")].
Proof.
  apply (proj1 (category_name_rule (lit " Dev Tools "))).
  split; [vm_compute; split; discriminate|vm_compute; reflexivity].
Defined.

(* ------------------------------------------------------------------ *)
(** ** The admin filter panel *)
(* ------------------------------------------------------------------ *)

Section FilterPanel.
Import AdminFilters AdminFiltersPanel.
Variable pf : Platform.

Lemma validateSearchQuery_valid_iff (s : JsString) :
  Validators.valid (Validators.validateSearchQuery s) = true <->
  trim s = [] \/ 3 <= len (trim s) <= 100.
Proof.
  destruct (list_eq_dec Z.eq_dec (trim s) []) as [Hb|Hb].
  - rewrite (validateSearchQuery_blank s Hb). cbn. tauto.
  - destruct (Z_lt_ge_dec (len (trim s)) 3) as [H3|H3].
    + rewrite (validateSearchQuery_short s Hb H3). cbn.
      split; [discriminate|]. intros [H|H]; [contradiction|lia].
    + destruct (Z_lt_ge_dec 100 (len (trim s))) as [H100|H100].
      * rewrite (validateSearchQuery_long s H100). cbn.
        split; [discriminate|]. intros [H|H]; [contradiction|lia].
      * rewrite (validateSearchQuery_ok s) by lia. cbn. split; [right; lia|reflexivity].
Qed.

Lemma filters_clearSearchError (c : t) : filters (clearSearchError c) = filters c.
Proof. unfold clearSearchError. now destruct (negb (searchInput c)). Qed.

Lemma filters_showSearchError (c : t) (msg : JsString) :
  filters (showSearchError c msg) = filters c.
Proof. unfold showSearchError. now destruct (negb (searchInput c)). Qed.

Lemma notifyFiltersChange_notified (c : t) (a : Action) (f : FilterValues) :
  In a (notifyFiltersChange c) -> notified a = Some f -> f = filters c.
Proof.
  unfold notifyFiltersChange. intros Hin Hn.
  apply in_app_or in Hin as [Hin|Hin].
  - destruct (onFiltersChange c); [|destruct Hin].
    destruct Hin as [<-|[]]. cbn in Hn. congruence.
  - destruct Hin as [<-|[]]. cbn in Hn. congruence.
Qed.

(** Each handler keeps the filter values accepted, and what it notifies
    is the state it leaves. *)
Lemma handle_Accepted (c : t) (i : Input) :
  Accepted pf (filters c) ->
  Accepted pf (filters (fst (handle pf c i))) /\
  (forall a f, In a (snd (handle pf c i)) -> notified a = Some f ->
               f = filters (fst (handle pf c i))).
Proof.
  intros (Ht & Hl & Hd). destruct i as [value|value|value|]; cbn [handle].
  - unfold handleSearchChange.
    destruct (Validators.valid (Validators.validateSearchQuery value)) eqn:Hv;
      cbn [negb fst snd].
    + split.
      * unfold setFilters. cbn [filters search date category].
        rewrite filters_clearSearchError.
        apply validateSearchQuery_valid_iff in Hv.
        split; [apply trim_idem|]. split; [|exact Hd].
        destruct Hv as [Hv|Hv]; [now left|now right].
      * intros a f. apply notifyFiltersChange_notified.
    + rewrite filters_showSearchError. split; [now repeat split|].
      intros a f [].
  - unfold handleDateChange.
    destruct (Validators.valid (Validators.validateDate pf value)) eqn:Hv;
      cbn [negb fst snd].
    + split.
      * unfold setFilters. cbn [filters search date category]. now repeat split.
      * intros a f. apply notifyFiltersChange_notified.
    + split; [now repeat split|].
      intros a f [<-|[]] Hn. discriminate Hn.
  - unfold handleCategoryChange. cbn [fst snd]. split.
    + unfold setFilters. cbn [filters search date category]. now repeat split.
    + intros a f. apply notifyFiltersChange_notified.
  - unfold clearAllFilters. cbn [fst snd]. split.
    + rewrite filters_clearSearchError. unfold setFilters. cbn [filters].
      split; [reflexivity|]. split; [now left|reflexivity].
    + intros a f. apply notifyFiltersChange_notified.
Qed.

Lemma handleAll_Accepted (inputs : list Input) : forall c,
  Accepted pf (filters c) ->
  Accepted pf (filters (fst (handleAll pf c inputs))) /\
  (forall a f, In a (snd (handleAll pf c inputs)) -> notified a = Some f ->
               Accepted pf f).
Proof.
  induction inputs as [|i inputs IH]; intros c Hc.
  - cbn. split; [exact Hc|]. intros a f [].
  - cbn [handleAll]. destruct (handle_Accepted c i Hc) as [H1 Hn1].
    destruct (handle pf c i) as [c1 acts1]. cbn [fst snd] in *.
    destruct (IH c1 H1) as [H2 Hn2].
    destruct (handleAll pf c1 inputs) as [c2 acts2]. cbn [fst snd] in *.
    split; [exact H2|].
    intros a f Hin Hn. apply in_app_or in Hin as [Hin|Hin].
    + rewrite (Hn1 a f Hin Hn). exact H1.
    + exact (Hn2 a f Hin Hn).
Qed.

Lemma Accepted_validateFilters (c : t) :
  Accepted pf (filters c) -> validateFilters pf c = [].
Proof.
  intros (Ht & Hl & Hd). unfold validateFilters.
  assert (Hs : Validators.valid (Validators.validateSearchQuery (search (filters c)))
               = true).
  { apply validateSearchQuery_valid_iff. rewrite Ht.
    destruct Hl as [Hl|Hl]; [now left|now right]. }
  rewrite Hs, Hd. cbn [negb].
  destruct (search (filters c)); destruct (date (filters c)); reflexivity.
Qed.

(** X8. Whatever the user does to the admin filter panel, starting
    from the state the constructor builds, the stored search text is
    trimmed and is empty or has 3 to 100 code units, the stored date
    passes the date check, [validateFilters] finds nothing to report, and
    every notification sent to the callback or dispatched as an event
    carries values of that kind. *)
Theorem admin_filters_stay_accepted (callback input : bool) (inputs : list Input) :
  Accepted pf (filters (fst (handleAll pf (initial callback input) inputs))) /\
  validateFilters pf (fst (handleAll pf (initial callback input) inputs)) = [] /\
  (forall a f, In a (snd (handleAll pf (initial callback input) inputs)) ->
               notified a = Some f -> Accepted pf f).
Proof.
  assert (H0 : Accepted pf (filters (initial callback input))).
  { cbn. split; [reflexivity|]. split; [now left|reflexivity]. }
  destruct (handleAll_Accepted inputs _ H0) as [H1 H2].
  split; [exact H1|]. split; [now apply Accepted_validateFilters|exact H2].
Qed.

(** X9. The three observers of the filter state agree: the count is
    the number of non-empty filters, [hasActiveFilters] is truthy exactly
    when the count is positive, the request parameters are all absent
    exactly when the count is zero, the start and end date parameters are
    the same, a parameter is present exactly when its filter is not
    empty, and after [clearAllFilters] nothing is active. *)
Theorem filter_observers_agree (c : t) :
  0 <= getActiveFiltersCount c <= 3 /\
  (hasActiveFilters c <> [] <-> 0 < getActiveFiltersCount c) /\
  (getActiveFiltersCount c = 0 <-> filters c = emptyFilters) /\
  (getActiveFiltersCount c = 0 <-> getAPIParams c = mkAPIParams None None None None) /\
  pStartDate (getAPIParams c) = pEndDate (getAPIParams c) /\
  (pSearch (getAPIParams c) = None <-> search (filters c) = []) /\
  (pStartDate (getAPIParams c) = None <-> date (filters c) = []) /\
  (pCategory (getAPIParams c) = None <-> category (filters c) = []) /\
  getActiveFiltersCount (fst (clearAllFilters c)) = 0 /\
  hasActiveFilters (fst (clearAllFilters c)) = [].
Proof.
  destruct c as [[s d k] cb si se].
  unfold getActiveFiltersCount, hasActiveFilters, getAPIParams, emptyFilters,
    clearAllFilters, clearSearchError, setFilters.
  cbn [filters search date category fst pSearch pStartDate pEndDate pCategory
       searchInput].
  assert (Hclear : forall b : bool,
            filters (if b then mk (mkFilterValues [] [] []) cb si se
                     else mk (mkFilterValues [] [] []) cb si None)
            = mkFilterValues [] [] []) by (intros []; reflexivity).
  destruct s as [|s0 s]; destruct d as [|d0 d]; destruct k as [|k0 k];
    cbn [countIf jsOr truthy];
    (split; [lia|]);
    (split; [split; intro H; try lia; try discriminate; try (now contradiction H)|]);
    (split; [split; intro H; try lia; try discriminate; try reflexivity|]);
    (split; [split; intro H; try lia; try discriminate; try reflexivity|]);
    (split; [reflexivity|]);
    (split; [split; intro H; try discriminate; reflexivity|]);
    (split; [split; intro H; try discriminate; reflexivity|]);
    (split; [split; intro H; try discriminate; reflexivity|]);
    unfold Js.empty; rewrite Hclear; cbn; split; reflexivity.
Qed.

End FilterPanel.

(* ------------------------------------------------------------------ *)
(** ** Runs of the admin application *)
(* ------------------------------------------------------------------ *)

Section Runs.
Import AdminAPI AdminApp Guard Trace.
Variable pf : Platform.

Lemma Quiet_refl (w : World) : Quiet w w.
Proof.
  split; [reflexivity|]. split; [reflexivity|].
  exists []. split; [now rewrite app_nil_r|constructor].
Qed.

Lemma QuietAction_same (w w' : World) (a : Action) :
  webFilters (app w') = webFilters (app w) -> QuietAction w' a -> QuietAction w a.
Proof. intros H. destruct a; cbn; try tauto. now rewrite H. Qed.

Lemma Quiet_trans (w1 w2 w3 : World) : Quiet w1 w2 -> Quiet w2 w3 -> Quiet w1 w3.
Proof.
  intros (Hf1 & Hm1 & acts1 & Hl1 & Ha1) (Hf2 & Hm2 & acts2 & Hl2 & Ha2).
  split; [congruence|]. split; [congruence|].
  exists (acts1 ++ acts2). split.
  - rewrite Hl2, Hl1. now rewrite <- List.app_assoc.
  - apply Forall_app. split; [exact Ha1|].
    eapply Forall_impl; [|exact Ha2]. intros a. now apply QuietAction_same.
Qed.

Lemma loadEntries_Quiet (w : World) : Quiet w (loadEntries w).
Proof.
  unfold loadEntries. destruct (isLoading (app w)); [apply Quiet_refl|].
  split; [reflexivity|]. split; [reflexivity|].
  eexists. split; [reflexivity|].
  repeat constructor.
Qed.

Lemma emit_Quiet (w : World) (acts : list Action) :
  Forall (QuietAction w) acts -> Quiet w (emit w acts).
Proof.
  intro H. split; [reflexivity|]. split; [reflexivity|]. now exists acts.
Qed.

Lemma setCurrentPage_Quiet (w : World) (p : Z) :
  Quiet w (withApp w (setCurrentPage (app w) p)).
Proof.
  split; [reflexivity|]. split; [reflexivity|].
  exists []. split; [cbn; now rewrite app_nil_r|constructor].
Qed.

Lemma handleWebPageChange_Quiet (w : World) (p : Z) : Quiet w (handleWebPageChange w p).
Proof.
  unfold handleWebPageChange.
  eapply Quiet_trans; [apply setCurrentPage_Quiet|apply loadEntries_Quiet].
Qed.

Lemma relayFilterActions_Quiet (acts : list AdminFilters.Action) :
  forall w, Quiet w (relayFilterActions w acts).
Proof.
  induction acts as [|a acts IH]; intro w; [apply Quiet_refl|].
  destruct a; cbn [relayFilterActions];
    (eapply Quiet_trans; [|apply IH]).
  - apply handleWebPageChange_Quiet.
  - apply emit_Quiet. repeat constructor.
  - apply emit_Quiet. repeat constructor.
Qed.

Lemma switchView_Quiet (w : World) (v : View) : Quiet w (switchView w v).
Proof.
  unfold switchView.
  assert (H : Quiet w (withApp w (setCurrentView (app w) v))).
  { split; [reflexivity|]. split; [reflexivity|].
    exists []. split; [cbn; now rewrite app_nil_r|constructor]. }
  eapply Quiet_trans; [exact H|].
  destruct v; try apply loadEntries_Quiet; try apply Quiet_refl;
    apply emit_Quiet; repeat constructor.
Qed.

Lemma refreshCurrentView_Quiet (w : World) : Quiet w (refreshCurrentView w).
Proof.
  unfold refreshCurrentView.
  eapply Quiet_trans; [|apply emit_Quiet; repeat constructor].
  destruct (currentView (app w)); try apply loadEntries_Quiet; try apply Quiet_refl;
    apply emit_Quiet; repeat constructor.
Qed.

Lemma loadEntriesSettled_quiet (a : t) (r : Settled ListData) (w : World) :
  webFilters (fst (loadEntriesSettled a r)) = webFilters a /\
  deleteModal (fst (loadEntriesSettled a r)) = deleteModal a /\
  Forall (QuietAction w) (snd (loadEntriesSettled a r)).
Proof.
  unfold loadEntriesSettled, loadEntriesCatch.
  destruct r as [response|msg]; [destruct (success response);
    [destruct (data response)|]|]; cbn [fst snd]; repeat split; repeat constructor.
Qed.

Lemma listSettled_Quiet (w : World) (i : nat) (r : Settled ListData) :
  Quiet w (step pf w (ListSettled i r)).
Proof.
  cbn [step]. destruct (nth_error (pendingLists w) i); [|apply Quiet_refl].
  destruct (loadEntriesSettled_quiet (app w) r w) as (Hf & Hm & Ha).
  destruct (loadEntriesSettled (app w) r) as [a acts]. cbn [fst snd] in *.
  split; [exact Hf|]. split; [exact Hm|]. now exists acts.
Qed.

Lemma deleteSettled_Quiet (w : World) (i : nat) (r : Settled unit) :
  Quiet w (step pf w (DeleteSettled i r)).
Proof.
  cbn [step]. destruct (nth_error (pendingDeletes w) i); [|apply Quiet_refl].
  set (w0 := mkWorld (app w) (pendingLists w) (removeNth i (pendingDeletes w)) (log w)).
  assert (H0 : Quiet w w0).
  { split; [reflexivity|]. split; [reflexivity|].
    exists []. split; [cbn; now rewrite app_nil_r|constructor]. }
  eapply Quiet_trans; [exact H0|].
  unfold deleteSettled. destruct r as [response|msg].
  - destruct (success response).
    + eapply Quiet_trans; [|apply loadEntries_Quiet].
      apply emit_Quiet. repeat constructor.
    + apply emit_Quiet. repeat constructor.
  - apply emit_Quiet. repeat constructor.
Qed.

Lemma dismissDelete_log (w : World) :
  webFilters (app (dismissDelete w)) = webFilters (app w) /\
  DeleteModal.deleteCallback (deleteModal (app (dismissDelete w))) =
    DeleteModal.deleteCallback (deleteModal (app w)) /\
  log (dismissDelete w) = log w ++ [CloseDeleteModal].
Proof. unfold dismissDelete. cbn. repeat split. Qed.

(** The filter events: the panel handles the input, then the
    application relays what the panel did. *)
Lemma onFilters_Quiet (w : World) (r : AdminFilters.t * list AdminFilters.Action) :
  Quiet (withApp w (setWebFilters (app w) (fst r))) (onFilters w r).
Proof. unfold onFilters. apply relayFilterActions_Quiet. Qed.

(** What one event adds to the log: list requests built from the filters
    in force after the event, and a delete request only on confirmation,
    with the arguments the modal holds. *)
Lemma step_adds (w : World) (ev : Event) :
  exists acts,
    log (step pf w ev) = log w ++ acts /\
    (forall p, In (GetEntries p) acts ->
       size p = 12 /\
       filterParams p = AdminFilters.getAPIParams (webFilters (app (step pf w ev)))) /\
    (forall s r i, In (DeleteEntry s r i) acts ->
       ev = DeleteConfirmed /\
       DeleteModal.deleteCallback (deleteModal (app w)) =
         Some (DeleteModal.DeleteEntryCallback s r i)).
Proof.
  assert (HQ : forall w0 w1, Quiet w0 w1 -> log w0 = log w ->
             exists acts,
               log w1 = log w ++ acts /\
               (forall p, In (GetEntries p) acts ->
                  size p = 12 /\
                  filterParams p = AdminFilters.getAPIParams (webFilters (app w1))) /\
               (forall s r i, In (DeleteEntry s r i) acts ->
                  ev = DeleteConfirmed /\
                  DeleteModal.deleteCallback (deleteModal (app w)) =
                    Some (DeleteModal.DeleteEntryCallback s r i))).
  { intros w0 w1 (Hf & _ & acts & Hl & Ha) H0. exists acts.
    split; [now rewrite Hl, H0|]. rewrite Forall_forall in Ha. split.
    - intros p Hp. specialize (Ha _ Hp). cbn in Ha. now rewrite Hf.
    - intros s r i Hi. specialize (Ha _ Hi). destruct Ha. }
  destruct ev.
  - cbn [step]. eapply HQ; [apply onFilters_Quiet|reflexivity].
  - cbn [step]. eapply HQ; [apply onFilters_Quiet|reflexivity].
  - cbn [step]. eapply HQ; [apply onFilters_Quiet|reflexivity].
  - cbn [step]. eapply HQ; [apply onFilters_Quiet|reflexivity].
  - cbn [step]. eapply HQ; [apply handleWebPageChange_Quiet|reflexivity].
  - cbn [step]. eapply HQ; [apply switchView_Quiet|reflexivity].
  - cbn [step]. eapply HQ; [apply refreshCurrentView_Quiet|reflexivity].
  - eapply HQ; [apply listSettled_Quiet|reflexivity].
  - cbn [step]. unfold handleDeleteEntry.
    destruct (findEntry (entries (app w)) sheet ser) as [entry|].
    + eexists. split; [reflexivity|]. split.
      * intros p [H|[]]. discriminate H.
      * intros s r i [H|[]]. discriminate H.
    + exists []. split; [now rewrite app_nil_r|]. split; intros; contradiction.
  - cbn [step]. unfold confirmDelete.
    destruct (DeleteModal.deleteCallback (deleteModal (app w))) as [[s0 r0 i0|c]|];
      cbn [emit withApp log app].
    + exists [DeleteEntry s0 r0 i0; CloseDeleteModal].
      split; [now rewrite <- List.app_assoc|]. split.
      * intros p [H|[H|[]]]; discriminate H.
      * intros s r i [H|[H|[]]]; [|discriminate H]. injection H as <- <- <-. now split.
    + exists [DeleteCategory c; CloseDeleteModal].
      split; [now rewrite <- List.app_assoc|]. split.
      * intros p [H|[H|[]]]; discriminate H.
      * intros s r i [H|[H|[]]]; discriminate H.
    + exists [CloseDeleteModal]. split; [reflexivity|]. split.
      * intros p [H|[]]; discriminate H.
      * intros s r i [H|[]]; discriminate H.
  - cbn [step]. exists [CloseDeleteModal]. split; [reflexivity|]. split.
    + intros p [H|[]]; discriminate H.
    + intros s r i [H|[]]; discriminate H.
  - eapply HQ; [apply deleteSettled_Quiet|reflexivity].
Qed.




Lemma run_snoc (w : World) (evs : list Event) (ev : Event) :
  run pf w (evs ++ [ev]) = step pf (run pf w evs) ev.
Proof. unfold run. now rewrite fold_left_app. Qed.










(** The modal after an event: a click on a delete button that finds its
    entry opens it with the message naming the entry; the confirm and
    cancel buttons close it; nothing else touches it. *)
Lemma step_deleteModal (w : World) (ev : Event) :
  deleteModal (app (step pf w ev)) =
  match ev with
  | DeleteClicked sheet ser img =>
      match findEntry (entries (app w)) sheet ser with
      | Some entry =>
          DeleteModal.openWithCallback (deleteModal (app w)) (deleteMessage (name entry))
            (DeleteModal.DeleteEntryCallback sheet ser img)
      | None => deleteModal (app w)
      end
  | DeleteConfirmed => DeleteModal.close (deleteModal (app w))
  | DeleteDismissed => DeleteModal.close (deleteModal (app w))
  | _ => deleteModal (app w)
  end.
Proof.
  destruct ev;
    try (cbn [step];
         match goal with
         | |- context [onFilters w ?x] =>
             destruct (onFilters_Quiet w x) as (_ & Hm & _); rewrite Hm; reflexivity
         end).
  - cbn [step]. now destruct (handleWebPageChange_Quiet w p) as (_ & -> & _).
  - cbn [step]. now destruct (switchView_Quiet w v) as (_ & -> & _).
  - cbn [step]. now destruct (refreshCurrentView_Quiet w) as (_ & -> & _).
  - now destruct (listSettled_Quiet w i r) as (_ & -> & _).
  - cbn [step]. unfold handleDeleteEntry.
    now destruct (findEntry (entries (app w)) sheet ser).
  - cbn [step]. unfold confirmDelete.
    now destruct (DeleteModal.deleteCallback (deleteModal (app w))) as [[s0 r0 i0|c]|].
  - reflexivity.
  - now destruct (deleteSettled_Quiet w i r) as (_ & -> & _).
Qed.

(** The callback the modal holds was stored by a click on a delete
    button that found its entry, and the modal has held the message
    naming that entry ever since. *)
Lemma stored_callback_was_clicked (evs : list Event) :
  forall s r i,
    DeleteModal.deleteCallback (deleteModal (app (run pf initialWorld evs))) =
      Some (DeleteModal.DeleteEntryCallback s r i) ->
    exists (evs1 evs2 : list Event) (e : Entry) (mid : list Action),
      evs = evs1 ++ DeleteClicked s r i :: evs2 /\
      findEntry (entries (app (run pf initialWorld evs1))) s r = Some e /\
      log (run pf initialWorld evs) =
        log (run pf initialWorld evs1)
          ++ OpenDeleteModal (deleteMessage (name e)) :: mid /\
      DeleteModal.modalMessage (deleteModal (app (run pf initialWorld evs))) =
        deleteMessage (name e).
Proof.
  induction evs as [|ev evs IH] using rev_ind; intros s r i Hcb; [discriminate Hcb|].
  rewrite run_snoc in Hcb |- *. set (w := run pf initialWorld evs) in *.
  destruct (step_adds w ev) as (acts & Hl & _).
  pose proof (step_deleteModal w ev) as Hm.
  assert (Hkeep :
    DeleteModal.deleteCallback (deleteModal (app (step pf w ev))) =
      DeleteModal.deleteCallback (deleteModal (app w)) ->
    DeleteModal.modalMessage (deleteModal (app (step pf w ev))) =
      DeleteModal.modalMessage (deleteModal (app w)) ->
    exists (evs1 evs2 : list Event) (e : Entry) (mid : list Action),
      evs ++ [ev] = evs1 ++ DeleteClicked s r i :: evs2 /\
      findEntry (entries (app (run pf initialWorld evs1))) s r = Some e /\
      log (step pf w ev) =
        log (run pf initialWorld evs1)
          ++ OpenDeleteModal (deleteMessage (name e)) :: mid /\
      DeleteModal.modalMessage (deleteModal (app (step pf w ev))) =
        deleteMessage (name e)).
  { intros Ec Em. rewrite Ec in Hcb.
    destruct (IH _ _ _ Hcb) as (evs1 & evs2 & e & mid & He & Hf & Hlog & Hmsg).
    exists evs1, (evs2 ++ [ev]), e, (mid ++ acts).
    split; [rewrite He, <- List.app_assoc; reflexivity|].
    split; [exact Hf|]. split.
    - rewrite Hl, Hlog, <- List.app_assoc. reflexivity.
    - now rewrite Em. }
  destruct ev; try (apply Hkeep; rewrite Hm; reflexivity).
  cbn beta iota in Hm.
  destruct (findEntry (entries (app w)) sheet ser) as [entry|] eqn:Ef;
    [|apply Hkeep; rewrite Hm; reflexivity].
  rewrite Hm in Hcb |- *. cbn in Hcb. injection Hcb as <- <- <-.
  exists evs, [], entry, [].
  split; [reflexivity|]. split; [exact Ef|]. split; [|reflexivity].
  cbn [step]. unfold handleDeleteEntry. rewrite Ef. reflexivity.
Qed.

(** X11. Every delete request the admin application ever sends was put
    before the user first. For each delete request in the log of a run,
    the run has an earlier click on a delete button with the arguments
    of the request and, after it, the click on the confirm button that
    sent the request. The click on the delete button found an entry with
    that sheet and serial number among the entries loaded then, and
    opened the confirmation modal with the message naming that entry;
    the opening of the modal comes before the request in the log, and
    the modal still held that message when the confirm button was
    clicked. *)
Theorem delete_requests_were_prompted (evs : list Event) (pre post : list Action)
        (s : JsString) (r : Z) (i : JsString) :
  log (run pf initialWorld evs) = pre ++ DeleteEntry s r i :: post ->
  Prompted pf evs pre s r i.
Proof.
  revert pre post s r i.
  induction evs as [|ev evs IH] using rev_ind; intros pre post s r i Hlog.
  - destruct pre; discriminate Hlog.
  - rewrite run_snoc in Hlog. set (w := run pf initialWorld evs) in *.
    destruct (step_adds w ev) as (acts & Hl & _ & Hd).
    assert (Hold : forall post', log w = pre ++ DeleteEntry s r i :: post' ->
                                 Prompted pf (evs ++ [ev]) pre s r i).
    { intros post' Hw.
      destruct (IH _ _ _ _ _ Hw)
        as (evs1 & evs2 & evs3 & e & mid & He & Hf & Hi & Hs & Hr & Hpre & Hmsg & Hlg).
      exists evs1, evs2, (evs3 ++ [ev]), e, mid.
      split; [|now repeat split].
      rewrite He. repeat (rewrite <- List.app_assoc; cbn [List.app]). reflexivity. }
    rewrite Hl in Hlog. symmetry in Hlog.
    apply app_eq_app in Hlog as (l & [[Hp Ha]|[Hw Hx]]).
    + assert (Hin : In (DeleteEntry s r i) acts).
      { rewrite Ha. apply in_or_app. right. now left. }
      destruct (Hd _ _ _ Hin) as [-> Hcb].
      assert (Hacts : acts = [DeleteEntry s r i; CloseDeleteModal]).
      { apply (app_inv_head (log w)). rewrite <- Hl.
        cbn [step]. unfold confirmDelete. rewrite Hcb. cbn.
        now rewrite <- List.app_assoc. }
      assert (Hnil : l = []).
      { rewrite Hacts in Ha. destruct l as [|a [|b l]]; [reflexivity| |].
        - injection Ha as _ Ha. discriminate Ha.
        - injection Ha as _ _ Ha. destruct l; discriminate Ha. }
      subst l. rewrite app_nil_r in Hp. subst pre.
      destruct (stored_callback_was_clicked evs _ _ _ Hcb)
        as (evs1 & evs2 & e & mid & He & Hf & Hlg & Hmsg).
      exists evs1, evs2, [], e, mid.
      split; [rewrite He, <- List.app_assoc; reflexivity|].
      destruct (findEntry_key _ _ _ _ Hf) as (Hi & Hs & Hr).
      split; [exact Hf|]. split; [exact Hi|]. split; [exact Hs|].
      split; [exact Hr|]. split; [exact Hlg|].
      rewrite <- He. now split.
    + destruct l as [|a l].
      * cbn in Hx. rewrite app_nil_r in Hw. subst pre.
        assert (Hin : In (DeleteEntry s r i) acts) by (rewrite <- Hx; now left).
        destruct (Hd _ _ _ Hin) as [-> Hcb].
        destruct (stored_callback_was_clicked evs _ _ _ Hcb)
          as (evs1 & evs2 & e & mid & He & Hf & Hlg & Hmsg).
        exists evs1, evs2, [], e, mid.
        split; [rewrite He, <- List.app_assoc; reflexivity|].
        destruct (findEntry_key _ _ _ _ Hf) as (Hi & Hs & Hr).
        split; [exact Hf|]. split; [exact Hi|]. split; [exact Hs|].
        split; [exact Hr|]. split; [exact Hlg|].
        rewrite <- He. now split.
      * injection Hx as <- _. exact (Hold _ Hw).
Qed.

(** X12. A page change that arrives while a list request is in flight
    is not fetched, yet it is remembered: the current page becomes the
    new one, no request is sent for it then or when the pending request
    settles, and the answer to the pending request, which was made for
    another page, is rendered with the pagination set to the new page. *)
Theorem page_change_during_fetch_is_shown_not_fetched
        (w : World) (p : Z) (q : ListParams) (i : nat) (es : list Entry) (total : Z) :
  isLoading (app w) = true ->
  nth_error (pendingLists w) i = Some q ->
  let w1 := step pf w (PageChanged p) in
  let w2 := step pf w1 (ListSettled i (answered es total)) in
  currentPage (app w1) = p /\ log w1 = log w /\ pendingLists w1 = pendingLists w /\
  log w2 = log w ++ [RenderWebEntries es;
                     UpdatePagination p (ceilDiv total 12) total;
                     ShowWebEmptyState (Nat.eqb (List.length es) 0);
                     SetIsLoading false; ShowWebLoading false] /\
  fetches w2 = fetches w /\
  isLoading (app w2) = false /\ currentPage (app w2) = p /\
  entries (app w2) = es.
Proof.
  intros Hl Hq w1 w2.
  assert (E1 : w1 = withApp w (setCurrentPage (app w) p)).
  { subst w1. cbn [step]. unfold handleWebPageChange, loadEntries. cbn. now rewrite Hl. }
  assert (E2 : w2 = mkWorld (setIsLoading (setResult (app w1) es total) false)
                            (removeNth i (pendingLists w1)) (pendingDeletes w1)
                            (log w1 ++ [RenderWebEntries es;
                                        UpdatePagination (currentPage (app w1))
                                                         (ceilDiv total 12) total;
                                        ShowWebEmptyState (Nat.eqb (List.length es) 0);
                                        SetIsLoading false; ShowWebLoading false])).
  { subst w2. cbn [step]. rewrite E1 at 1. cbn [pendingLists withApp]. rewrite Hq.
    reflexivity. }
  rewrite E2, E1. repeat split; try reflexivity.
  unfold fetches. cbn [log withApp]. rewrite count_app. unfold count. cbn. lia.
Qed.

End Runs.


Lemma delete_requests_were_prompted_witness :
  Trace.Prompted RefPlatform.platform
    [AdminApp.ViewSwitched AdminApp.WebList;
     AdminApp.ListSettled 0 (Samples.listOf [Samples.entry1] 1);
     AdminApp.DeleteClicked (lit "Search") 1 (lit "file-1");
     AdminApp.DeleteConfirmed]
    (AdminApp.log
       (AdminApp.run RefPlatform.platform AdminApp.initialWorld
          [AdminApp.ViewSwitched AdminApp.WebList;
           AdminApp.ListSettled 0 (Samples.listOf [Samples.entry1] 1);
           AdminApp.DeleteClicked (lit "Search") 1 (lit "file-1")]))
    (lit "Search") 1 (lit "file-1").
Proof.
  apply (delete_requests_were_prompted RefPlatform.platform _ _
           [AdminApp.CloseDeleteModal]).
  reflexivity.
Defined.

Lemma page_change_during_fetch_is_shown_not_fetched_witness :
  AdminApp.currentPage
    (AdminApp.app
       (AdminApp.run RefPlatform.platform AdminApp.initialWorld
          [AdminApp.ViewSwitched AdminApp.WebList;
           AdminApp.PageChanged 3;
           AdminApp.ListSettled 0 (Trace.answered [Samples.entry1] 30)])) = 3 /\
  Guard.fetches
    (AdminApp.run RefPlatform.platform AdminApp.initialWorld
       [AdminApp.ViewSwitched AdminApp.WebList;
        AdminApp.PageChanged 3;
        AdminApp.ListSettled 0 (Trace.answered [Samples.entry1] 30)]) = 1%nat.
Proof.
  destruct (page_change_during_fetch_is_shown_not_fetched RefPlatform.platform
              (AdminApp.step RefPlatform.platform AdminApp.initialWorld
                 (AdminApp.ViewSwitched AdminApp.WebList))
              3 (AdminApp.mkListParams 1 12
                   (AdminFilters.mkAPIParams None None None None))
              0 [Samples.entry1] 30)
    as (_ & _ & _ & _ & Hf & _ & Hp & _); [reflexivity | reflexivity |].
  split; [exact Hp | exact Hf].
Defined.

(* ------------------------------------------------------------------ *)
(** ** Requests and session *)
(* ------------------------------------------------------------------ *)

Section Requests.
Import AdminAPI AdminRequests.

Lemma startsWith_head (s needle : JsString) (c : Z) :
  startsWith s (c :: needle) = true -> exists r, s = c :: r.
Proof.
  destruct s as [|x s]; simpl; [discriminate|].
  intro H. apply andb_true_iff in H as [H _]. apply Z.eqb_eq in H. subst. now exists s.
Qed.

(** A string without the first code unit of the needle does not
    include the needle. *)
Lemma includes_without_head (s needle : JsString) (c : Z) :
  ~ In c s -> includes s (c :: needle) = false.
Proof.
  induction s as [|x s IH]; intro H; [reflexivity|].
  cbn [includes]. apply orb_false_iff. split.
  - destruct (startsWith (x :: s) (c :: needle)) eqn:E; [|reflexivity].
    apply startsWith_head in E as [r E]. injection E as -> _.
    contradiction H. now left.
  - apply IH. intro Hin. apply H. now right.
Qed.

Lemma digitsOf_digits (fuel : nat) : forall n acc,
  0 <= n -> Forall (fun c => 48 <= c <= 57) acc ->
  Forall (fun c => 48 <= c <= 57) (digitsOf fuel n acc).
Proof.
  induction fuel as [|fuel IH]; intros n acc Hn Hacc; [exact Hacc|].
  cbn [digitsOf].
  assert (Hd : Forall (fun c => 48 <= c <= 57) ((48 + n mod 10) :: acc)).
  { constructor; [|exact Hacc]. pose proof (Z.mod_pos_bound n 10). lia. }
  destruct (n / 10 =? 0); [exact Hd|].
  apply IH; [|exact Hd]. apply Z.div_pos; lia.
Qed.

Lemma numberToString_chars (n c : Z) :
  In c (numberToString n) -> c = 45 \/ 48 <= c <= 57.
Proof.
  unfold numberToString. destruct (n <? 0) eqn:E.
  - apply Z.ltb_lt in E. intros [H|H]; [now left|]. right.
    pose proof (digitsOf_digits (S (Z.to_nat (Z.log2 (- n)))) (- n) []
                  ltac:(lia) (Forall_nil _)) as Hd.
    rewrite Forall_forall in Hd. now apply Hd.
  - apply Z.ltb_ge in E. intro H. right.
    pose proof (digitsOf_digits (S (Z.to_nat (Z.log2 n))) n [] E (Forall_nil _)) as Hd.
    rewrite Forall_forall in Hd. now apply Hd.
Qed.

Lemma handleError_passes (msg dflt : JsString) :
  ~ In 65 msg -> ~ In 70 msg -> ~ In 83 msg -> msg <> [] ->
  handleError msg dflt = msg.
Proof.
  intros HA HF HS Hne. unfold handleError.
  change (lit "APP_SCRIPT_URL") with (65 :: lit "PP_SCRIPT_URL").
  change (lit "Failed to fetch") with (70 :: lit "ailed to fetch").
  change (lit "Session expired") with (83 :: lit "ession expired").
  rewrite !includes_without_head by assumption.
  destruct msg; [contradiction|reflexivity].
Qed.

Lemma http_error_text (status : Z) (c : Z) :
  c = 65 \/ c = 70 \/ c = 83 ->
  ~ In c (lit "HTTP error! status: " ++ numberToString status).
Proof.
  intros Hc H. apply in_app_or in H as [H|H].
  - vm_compute in H.
    repeat (destruct H as [H|H]; [destruct Hc as [Hc|[Hc|Hc]]; congruence|]).
    exact H.
  - apply numberToString_chars in H. lia.
Qed.

Lemma request_without_base {A : Type} (s : Session) (endpoint : JsString)
      (options : Options) (net : FetchResult A) :
  isSet (baseUrl s) = false ->
  request s endpoint options net =
  mkOutcome s None false
            (Rejected (lit "API not configured. Please check your configuration.")).
Proof. intro H. unfold request. now rewrite H. Qed.

Lemma shownError_unconfigured {A : Type} (dflt : JsString) :
  shownError
    (@Rejected A (lit "API not configured. Please check your configuration.")) dflt =
  Some (lit "API not configured. Please check your configuration.").
Proof. reflexivity. Qed.

(** X13. The texts shown for the failures [request] itself raises.
    Without a base URL nothing is sent and the text is the one about the
    configuration; a 401 answer clears the token and both storage
    entries, redirects, and shows the session text; any other answer that
    is not in the 200 range shows "HTTP error! status: " followed by the
    status, whatever the status is; an answer in the 200 range settles
    with the parsed body. The request goes to the base URL followed by
    the endpoint. *)
Theorem request_failure_texts {A : Type} (s : Session) (endpoint : JsString)
        (options : Options) (net : FetchResult A) (dflt : JsString) :
  (isSet (baseUrl s) = false ->
     sent (request s endpoint options net) = None /\
     session (request s endpoint options net) = s /\
     shownError (settled (request s endpoint options net)) dflt =
       Some (lit "API not configured. Please check your configuration.")) /\
  (isSet (baseUrl s) = true ->
     (exists m h, sent (request s endpoint options net) =
                  Some (mkSent (orElse (baseUrl s) Js.empty ++ endpoint) m h)) /\
     match net with
     | NetworkError errorMessage =>
         session (request s endpoint options net) = s /\
         settled (request s endpoint options net) = Rejected errorMessage
     | Answer status json =>
         if status =? 401 then
           session (request s endpoint options net) = clearToken s /\
           redirected (request s endpoint options net) = true /\
           shownError (settled (request s endpoint options net)) dflt =
             Some (lit "Session expired. Please login again.")
         else if isOk status then
           session (request s endpoint options net) = s /\
           redirected (request s endpoint options net) = false /\
           settled (request s endpoint options net) =
             match json with
             | inl errorMessage => Rejected errorMessage
             | inr response => Resolved response
             end
         else
           session (request s endpoint options net) = s /\
           redirected (request s endpoint options net) = false /\
           shownError (settled (request s endpoint options net)) dflt =
             Some (lit "HTTP error! status: " ++ numberToString status)
     end).
Proof.
  split; intro Hb.
  - rewrite (request_without_base s endpoint options net Hb).
    cbn [sent session settled]. split; [reflexivity|]. split; [reflexivity|].
    apply shownError_unconfigured.
  - unfold request; rewrite Hb; cbn [negb].
    destruct (finalOptions s options) as [m h].
    split.
    + destruct net as [msg|status json]; [now exists m, h|].
      destruct (status =? 401); [now exists m, h|].
      destruct (isOk status); cbn [negb]; [|now exists m, h].
      destruct json; now exists m, h.
    + destruct net as [msg|status json]; [now split|].
      destruct (status =? 401); [repeat split|].
      destruct (isOk status); cbn [negb].
      * destruct json; repeat split.
      * cbn [session redirected settled shownError]. repeat split.
        f_equal. apply handleError_passes.
        -- apply http_error_text. auto.
        -- apply http_error_text. auto.
        -- apply http_error_text. auto.
        -- discriminate.
Qed.

Lemma request_failure_texts_witness :
  shownError
    (settled (@request unit
                (mkSession (Some (lit "https://script.example/exec")) None None None)
                (lit "/entries/list") (mkOptions None None)
                (Answer 503 (inl (lit "Unexpected token"))))) (lit "Failed to load websites")
  = Some (lit "HTTP error! status: 503").
Proof.
  destruct (@request_failure_texts unit
              (mkSession (Some (lit "https://script.example/exec")) None None None)
              (lit "/entries/list") (mkOptions None None)
              (Answer 503 (inl (lit "Unexpected token"))) (lit "Failed to load websites"))
    as [_ H].
  destruct (H eq_refl) as [_ (_ & _ & Ht)]. exact Ht.
Defined.

(** X14. Which requests carry the session token. With a base URL set,
    a call goes to the base URL followed by its endpoint, and its
    [Authorization] header is "Bearer " and the held token exactly when a
    token is held and the call is none of: the two entry uploads, whose
    own empty header object replaces the default one; the logout, whose
    token is cleared before the request is built; the token check, which
    sends the token it was given instead. *)
Theorem session_token_is_sent_iff {A : Type} (s : Session) (c : Call)
        (net : FetchResult A) (v : JsString) :
  isSet (baseUrl s) = true ->
  exists m h,
    sent (call s c net) = Some (mkSent (orElse (baseUrl s) Js.empty ++ endpointOf c) m h) /\
    (header (lit "Authorization") h = Some v <->
     match c with
     | VerifyToken tok => v = lit "Bearer " ++ tok
     | CreateEntry | UpdateEntry | Logout => False
     | _ => isSet (token s) = true /\ v = lit "Bearer " ++ orElse (token s) Js.empty
     end).
Proof.
  intro Hb.
  assert (Hsent : forall s' options,
            baseUrl s' = baseUrl s ->
            sent (@request A s' (endpointOf c) options net) =
            Some (mkSent (orElse (baseUrl s) Js.empty ++ endpointOf c)
                         (fst (finalOptions s' options)) (snd (finalOptions s' options)))).
  { intros s' options Hs. unfold request. rewrite Hs, Hb. cbn [negb].
    destruct (finalOptions s' options) as [m h]. cbn [fst snd].
    destruct net as [msg|status json]; [reflexivity|].
    destruct (status =? 401); [reflexivity|].
    destruct (isOk status); cbn [negb]; [|reflexivity].
    destruct json; reflexivity. }
  assert (Hdefault : forall s', header (lit "Authorization") (defaultHeaders s') = Some v <->
            isSet (token s') = true /\ v = lit "Bearer " ++ orElse (token s') Js.empty).
  { intro s'. unfold defaultHeaders, header. cbn [find fst].
    replace (Js.eqb (lit "Content-Type") (lit "Authorization")) with false
      by (vm_compute; reflexivity).
    destruct (isSet (token s')).
    - cbn [find fst]. rewrite eqb_refl. cbn. split.
      + intro H. injection H as <-. now split.
      + intros [_ ->]. reflexivity.
    - cbn. split; [discriminate|]. intros [H _]. discriminate. }
  destruct c; cbn [call];
    try (rewrite (Hsent s _ eq_refl); eexists; eexists; split; [reflexivity|];
         cbn [finalOptions optionsOf optHeaders snd]; apply Hdefault).
  - rewrite (Hsent s _ eq_refl). eexists. eexists. split; [reflexivity|].
    cbn [finalOptions optionsOf optHeaders snd]. unfold header. cbn [find fst].
    rewrite eqb_refl. cbn. split.
    + intro H. now injection H as <-.
    + intros ->. reflexivity.
  - rewrite (Hsent (clearToken s) _ eq_refl). eexists. eexists. split; [reflexivity|].
    cbn [finalOptions optionsOf optHeaders snd]. rewrite Hdefault. cbn.
    split; [intros [H _]; discriminate|intros []].
  - rewrite (Hsent s _ eq_refl). eexists. eexists. split; [reflexivity|].
    cbn. split; [discriminate|intros []].
  - rewrite (Hsent s _ eq_refl). eexists. eexists. split; [reflexivity|].
    cbn. split; [discriminate|intros []].
Qed.

Lemma session_token_is_sent_iff_witness :
  exists m h,
    sent (@call unit
            (mkSession (Some (lit "https://script.example/exec")) (Some (lit "t0k"))
                       (Some (lit "t0k")) None)
            DeleteEntry (NetworkError (lit "Failed to fetch")))
    = Some (mkSent (lit "https://script.example/exec/entries/delete") m h) /\
    header (lit "Authorization") h = Some (lit "Bearer t0k").
Proof.
  destruct (@session_token_is_sent_iff unit
              (mkSession (Some (lit "https://script.example/exec")) (Some (lit "t0k"))
                         (Some (lit "t0k")) None)
              DeleteEntry (NetworkError (lit "Failed to fetch")) (lit "Bearer t0k")
              eq_refl) as (m & h & Hs & Hh).
  exists m, h. split; [exact Hs|]. apply Hh. split; reflexivity.
Defined.

(** X15. The two session checks. What the application accepts at
    start-up the API object accepts too, once initialised from the same
    storage; the converse fails exactly when a token and an expiry are
    stored and the expiry does not parse as a date, or is the present
    instant. After [clearToken] both refuse. *)
Theorem session_checks_compared (pf : Platform) (now : Z) (s : Session) :
  (appIsAuthenticated pf now s = true -> isAuthenticated pf now (init s) = true) /\
  (isAuthenticated pf now (init s) = true /\ appIsAuthenticated pf now s = false <->
     isSet (adminToken s) = true /\ isSet (tokenExpires s) = true /\
     (dateParse pf (orElse (tokenExpires s) Js.empty) = None \/
      dateParse pf (orElse (tokenExpires s) Js.empty) = Some now)) /\
  isAuthenticated pf now (clearToken s) = false /\
  appIsAuthenticated pf now (clearToken s) = false.
Proof.
  unfold appIsAuthenticated, isAuthenticated, isTokenExpired, init, clearToken.
  cbn [token adminToken tokenExpires isSet].
  destruct (isSet (adminToken s)); destruct (isSet (tokenExpires s)); cbn [negb orb andb].
  - destruct (dateParse pf (orElse (tokenExpires s) Js.empty)) as [e|].
    + split.
      { intro H. apply Z.ltb_lt in H. apply negb_true_iff, Z.ltb_ge. lia. }
      split; [|split; reflexivity]. split.
      * intros [H1 H2]. apply negb_true_iff in H1.
        apply Z.ltb_ge in H1, H2.
        split; [reflexivity|]. split; [reflexivity|]. right. f_equal. lia.
      * intros (_ & _ & [H|H]); [discriminate|]. injection H as ->.
        rewrite Z.ltb_irrefl. now split.
    + cbn [negb]. split; [discriminate|]. split; [|split; reflexivity].
      split; [intros _; repeat split; now left|intros _; now split].
  - split; [discriminate|]. split; [|split; reflexivity].
    split; [intros [H _]; discriminate|intros (_ & H & _); discriminate].
  - split; [discriminate|]. split; [|split; reflexivity].
    split; [intros [H _]; discriminate|intros (H & _); discriminate].
  - split; [discriminate|]. split; [|split; reflexivity].
    split; [intros [H _]; discriminate|intros (H & _); discriminate].
Qed.

End Requests.

(* ------------------------------------------------------------------ *)
(** ** Configuration file *)
(* ------------------------------------------------------------------ *)

Section ConfigFile.
Import Config.

Lemma split_nonempty (sep : Z) (s : JsString) : split sep s <> [].
Proof.
  destruct s as [|c s]; cbn [split]; [discriminate|].
  destruct (c =? sep); [discriminate|]. destruct (split sep s); discriminate.
Qed.

Lemma split_no_sep (sep : Z) (s : JsString) : ~ In sep s -> split sep s = [s].
Proof.
  induction s as [|c s IH]; intro H; [reflexivity|]. cbn [split].
  replace (c =? sep) with false
    by (symmetry; apply Z.eqb_neq; intro E; apply H; now left).
  rewrite IH; [reflexivity|]. intro Hin. apply H. now right.
Qed.




Lemma split_pieces (sep : Z) (s piece : JsString) (c : Z) :
  In piece (split sep s) -> In c piece -> In c s.
Proof.
  revert piece. induction s as [|x s IH]; intros piece Hp Hc.
  - destruct Hp as [<-|[]]. destruct Hc.
  - cbn [split] in Hp. destruct (x =? sep).
    + destruct Hp as [<-|Hp]; [destruct Hc|]. right. now apply (IH piece).
    + destruct (split sep s) as [|p ps] eqn:E; [now apply split_nonempty in E|].
      destruct Hp as [<-|Hp].
      * destruct Hc as [<-|Hc]; [now left|]. right. apply (IH p); [now left|exact Hc].
      * right. apply (IH piece); [now right|exact Hc].
Qed.

Lemma trim_sub (s : JsString) (c : Z) : In c (trim s) -> In c s.
Proof.
  assert (Hs : forall t, In c (trimStart t) -> In c t).
  { induction t as [|x t IH]; [auto|]. simpl.
    destruct (isWhiteSpace x); [intro H; right; now apply IH|auto]. }
  unfold trim, trimEnd. intro H.
  apply in_rev in H. apply Hs in H. apply in_rev in H. now apply Hs.
Qed.

Lemma parseLine_without_equals (config : Table) (line : JsString) :
  ~ In 61 (trim line) -> parseLine config line = config.
Proof.
  intro H. unfold parseLine. rewrite (split_no_sep _ _ H). cbn [List.length Z.of_nat].
  rewrite andb_false_r.
  match goal with |- (if ?b then _ else _) = _ => destruct b end; reflexivity.
Qed.



Lemma load_without_equals (text : JsString) :
  ~ In 61 text -> load (ConfigText text) = [].
Proof.
  intro H. cbn [load].
  assert (Hl : forall lines config,
            (forall l, In l lines -> ~ In 61 l) ->
            fold_left parseLine lines config = config).
  { induction lines as [|l lines IH]; intros config Hall; [reflexivity|].
    cbn [fold_left]. rewrite parseLine_without_equals.
    - apply IH. intros l0 H0. apply Hall. now right.
    - intro Hin. apply trim_sub in Hin. revert Hin. apply Hall. now left. }
  apply Hl. intros l Hin Hc. apply H. exact (split_pieces _ _ _ _ Hin Hc).
Qed.

(** X17. Without a backend address nothing leaves the browser. When
    the configuration gives no [APP_SCRIPT_URL], or an empty one, every
    request of the API object is refused before anything is sent, the
    session is left as it is, and the text shown is the one about the
    configuration; this is the case when the configuration file could
    not be fetched, and when it holds no [=] at all. *)
Theorem unconfigured_backend_sends_nothing {A : Type} (f : Fetched)
        (adminToken tokenExpires : option JsString) (c : AdminRequests.Call)
        (net : AdminRequests.FetchResult A) (dflt : JsString) :
  (AdminRequests.isSet (get (lit "APP_SCRIPT_URL") (load f)) = false ->
   AdminRequests.sent
     (AdminRequests.call (sessionOf (load f) adminToken tokenExpires) c net) = None /\
   AdminRequests.shownError
     (AdminRequests.settled
        (AdminRequests.call (sessionOf (load f) adminToken tokenExpires) c net)) dflt =
   Some (lit "API not configured. Please check your configuration.")) /\
  AdminRequests.isSet (get (lit "APP_SCRIPT_URL") (load ConfigFailure)) = false /\
  (forall text, ~ In 61 text ->
     AdminRequests.isSet (get (lit "APP_SCRIPT_URL") (load (ConfigText text))) = false).
Proof.
  split; [|split].
  - intro H.
    assert (E : forall s : AdminRequests.Session,
              AdminRequests.isSet (AdminRequests.baseUrl s) = false ->
              AdminRequests.sent (AdminRequests.call s c net) = None /\
              AdminRequests.shownError
                (AdminRequests.settled (AdminRequests.call s c net)) dflt =
              Some (lit "API not configured. Please check your configuration.")).
    { intros s Hs.
      assert (Hr : forall s' : AdminRequests.Session,
                AdminRequests.baseUrl s' = AdminRequests.baseUrl s ->
                AdminRequests.sent
                  (AdminRequests.request s' (AdminRequests.endpointOf c)
                     (AdminRequests.optionsOf c) net) = None /\
                AdminRequests.shownError
                  (AdminRequests.settled
                     (AdminRequests.request s' (AdminRequests.endpointOf c)
                        (AdminRequests.optionsOf c) net)) dflt =
                Some (lit "API not configured. Please check your configuration.")).
      { intros s' Hs'. rewrite request_without_base by now rewrite Hs'.
        split; [reflexivity|apply shownError_unconfigured]. }
      destruct c; cbn [AdminRequests.call]; apply Hr; reflexivity. }
    apply E. exact H.
  - reflexivity.
  - intros text Ht. now rewrite (load_without_equals _ Ht).
Qed.

Lemma unconfigured_backend_sends_nothing_witness :
  AdminRequests.sent
    (@AdminRequests.call unit (sessionOf (load ConfigFailure) (Some (lit "t0k")) None)
       AdminRequests.GetEntries (AdminRequests.NetworkError (lit "Failed to fetch")))
  = None.
Proof.
  destruct (@unconfigured_backend_sends_nothing unit ConfigFailure (Some (lit "t0k")) None
              AdminRequests.GetEntries (AdminRequests.NetworkError (lit "Failed to fetch"))
              Js.empty) as [H _].
  destruct (H eq_refl) as [Hs _]. exact Hs.
Defined.

End ConfigFile.

(* ------------------------------------------------------------------ *)
(** ** The public application and its pagination *)
(* ------------------------------------------------------------------ *)

Section PublicApp.
Import Pagination UserApp.

Lemma requests_app (a b : list Action) : requests (a ++ b) = requests a ++ requests b.
Proof.
  induction a as [|x a IH]; [reflexivity|].
  destruct x; cbn [List.app requests]; rewrite IH; reflexivity.
Qed.

Lemma requests_Paginate (acts : list Pagination.Action) :
  requests (map Paginate acts) = [].
Proof. induction acts as [|a acts IH]; [reflexivity|exact IH]. Qed.

(** The component's drawing, relayed: it is logged and nothing else
    happens. *)
Lemma relayPagination_render (p : Pagination.t) (w : World) :
  relayPagination w (render p) = emit w (map Paginate (render p)).
Proof.
  unfold render. destruct (negb (container p)).
  - cbn. unfold emit. rewrite app_nil_r. now destruct w.
  - destruct (totalPages p <=? 1); reflexivity.
Qed.

Lemma commitPage_moved (p : Pagination.t) (n : Z) :
  n <> Pagination.currentPage p -> 1 <= n <= totalPages p -> onPageChange p = true ->
  commitPage p n =
  (Pagination.setCurrentPage p n,
   CallOnPageChange n :: render (Pagination.setCurrentPage p n)).
Proof.
  intros Hne [H1 H2] Hcb. unfold commitPage.
  apply Z.eqb_neq in Hne. apply Z.leb_le in H1, H2. rewrite Hne, H1, H2, Hcb.
  reflexivity.
Qed.

Lemma window_numbers_in_range (p : Pagination.t) (n : Z) :
  In (PageNum n) (getPageNumbers p) -> 1 <= n <= totalPages p.
Proof.
  intro Hin. destruct (Z_le_gt_dec (totalPages p) 0) as [H0|H0].
  - rewrite (getPageNumbers_no_pages p H0) in Hin. destruct Hin.
  - destruct (getPageNumbers_wellSpaced p ltac:(lia)) as (Hw & Hl & _).
    destruct (wellSpaced_facts _ 0 Hw) as (_ & Hb & _).
    apply Hb in Hin. lia.
Qed.

Lemma clickPage_number (w : World) (n : Z) :
  onPageChange (pagination (app w)) = true ->
  In (PageNum n) (getPageNumbers (pagination (app w))) ->
  n <> Pagination.currentPage (pagination (app w)) ->
  step w (PageButtonClicked (pageAttr n)) =
  emit (handlePageChange
          (withApp w (setPagination (app w)
                        (Pagination.setCurrentPage (pagination (app w)) n))) n)
       (map Paginate (render (Pagination.setCurrentPage (pagination (app w)) n))).
Proof.
  intros Hcb Hin Hne. cbn [step]. unfold clickPage, pageAttr.
  rewrite (handlePageClick_number _ _ n (parseInt10_numberToString n)).
  rewrite (commitPage_moved _ _ Hne (window_numbers_in_range _ _ Hin) Hcb).
  cbn [relayPagination]. apply relayPagination_render.
Qed.

(** X18. A click on a page number of the window reaches the backend as
    one request for that page. Clicking a shown number other than the
    current one moves the component and the application to that page;
    when no list request is in flight, exactly one request is sent, for
    that page, twelve per page, with the present filters; when one is in
    flight, nothing is sent. *)
Theorem page_click_fetches_that_page (w : World) (n : Z) :
  onPageChange (pagination (app w)) = true ->
  In (PageNum n) (getPageNumbers (pagination (app w))) ->
  n <> Pagination.currentPage (pagination (app w)) ->
  currentPage (app (step w (PageButtonClicked (pageAttr n)))) = n /\
  Pagination.currentPage (pagination (app (step w (PageButtonClicked (pageAttr n))))) = n /\
  exists acts,
    log (step w (PageButtonClicked (pageAttr n))) = log w ++ acts /\
    (isLoading (app w) = false ->
       requests acts =
         [AdminApp.mkListParams n 12 (PublicFilters.getAPIParams (filters (app w)))] /\
       pending (step w (PageButtonClicked (pageAttr n))) =
         pending w ++
         [AdminApp.mkListParams n 12 (PublicFilters.getAPIParams (filters (app w)))] /\
       isLoading (app (step w (PageButtonClicked (pageAttr n)))) = true) /\
    (isLoading (app w) = true ->
       requests acts = [] /\
       pending (step w (PageButtonClicked (pageAttr n))) = pending w).
Proof.
  intros Hcb Hin Hne. rewrite (clickPage_number w n Hcb Hin Hne).
  unfold handlePageChange, loadEntries.
  cbn [withApp app isLoading setCurrentPage setPagination].
  destruct (isLoading (app w)) eqn:Hl.
  - cbn [emit app log pending currentPage pagination Pagination.currentPage
         Pagination.setCurrentPage].
    split; [reflexivity|]. split; [reflexivity|].
    eexists. split; [rewrite <- List.app_assoc; reflexivity|].
    split; [discriminate|]. intros _.
    rewrite requests_app, requests_Paginate. now split.
  - cbn [emit app log pending currentPage pagination Pagination.currentPage
         Pagination.setCurrentPage setIsLoading filters].
    split; [reflexivity|]. split; [reflexivity|].
    eexists. split; [rewrite <- !List.app_assoc; reflexivity|].
    split; [|discriminate]. intros _.
    rewrite !requests_app, requests_Paginate. cbn. now repeat split.
Qed.

Lemma page_click_fetches_that_page_witness :
  currentPage
    (app (step (step (step initialWorld Refreshed) (ListSettled 0 (answered [] 40)))
               (PageButtonClicked (pageAttr 3)))) = 3 /\
  pending (step (step (step initialWorld Refreshed) (ListSettled 0 (answered [] 40)))
                (PageButtonClicked (pageAttr 3))) =
  [AdminApp.mkListParams 3 12 (AdminFilters.mkAPIParams None None None None)].
Proof.
  destruct (page_click_fetches_that_page
              (step (step initialWorld Refreshed) (ListSettled 0 (answered [] 40))) 3)
    as (Hp & _ & acts & _ & Hidle & _).
  - reflexivity.
  - vm_compute. auto 10.
  - vm_compute. discriminate.
  - split; [exact Hp|]. destruct (Hidle eq_refl) as (_ & Hq & _). exact Hq.
Defined.

Lemma ceilDiv_twelve (total : Z) : ceilDiv total 12 <= 1 <-> total <= 12.
Proof.
  pose proof (proj1 (ceilDiv_spec total 12 (ceilDiv total 12) ltac:(lia)) eq_refl).
  lia.
Qed.

(** X19. A successful answer drives the pagination component: it is
    set to the application's current page, to the item count of the
    answer and to that count divided by twelve, rounded up; its controls
    are cleared when the answer has at most twelve items and drawn, with
    the window of the new state, when it has more. The entries shown and
    the loading flag follow the answer. *)
Theorem answer_drives_pagination (w : World) (i : nat) (q : AdminApp.ListParams)
        (es : list Card) (total : Z) :
  nth_error (pending w) i = Some q ->
  entries (app (step w (ListSettled i (answered es total)))) = es /\
  totalEntries (app (step w (ListSettled i (answered es total)))) = total /\
  isLoading (app (step w (ListSettled i (answered es total)))) = false /\
  pagination (app (step w (ListSettled i (answered es total)))) =
    Pagination.mk (container (pagination (app w))) (currentPage (app w))
                  (ceilDiv total 12) total (itemsPerPage (pagination (app w)))
                  (onPageChange (pagination (app w))) /\
  (container (pagination (app w)) = true ->
   (total <= 12 ->
      log (step w (ListSettled i (answered es total))) =
      log w ++ [RenderEntries es; Paginate ClearContainer;
                ShowEmptyState (Nat.eqb (List.length es) 0); ShowLoading false]) /\
   (12 < total ->
      log (step w (ListSettled i (answered es total))) =
      log w ++ [RenderEntries es;
                Paginate (RenderControls
                            (getPageNumbers
                               (pagination
                                  (app (step w (ListSettled i (answered es total)))))));
                ShowEmptyState (Nat.eqb (List.length es) 0); ShowLoading false])).
Proof.
  intro Hq. cbn [step]. rewrite Hq.
  unfold loadEntriesSettled, answered.
  cbn [AdminAPI.success AdminAPI.data dataEntries dataTotal setResult totalEntries
       entries currentPage pagination Pagination.update].
  cbn [app log setIsLoading setPagination entries totalEntries isLoading pagination
       currentPage fst snd].
  split; [reflexivity|]. split; [reflexivity|]. split; [reflexivity|].
  split; [reflexivity|]. intro Hc. unfold render. cbn [container totalPages].
  rewrite Hc. cbn [negb]. split; intro Ht.
  - replace (ceilDiv total 12 <=? 1) with true
      by (symmetry; apply Z.leb_le; now apply ceilDiv_twelve).
    reflexivity.
  - replace (ceilDiv total 12 <=? 1) with false
      by (symmetry; apply Z.leb_gt; pose proof (ceilDiv_twelve total); lia).
    reflexivity.
Qed.

Lemma answer_drives_pagination_witness :
  pagination (app (step (step initialWorld Refreshed) (ListSettled 0 (answered [] 40)))) =
  Pagination.mk true 1 4 40 12 true.
Proof.
  destruct (answer_drives_pagination (step initialWorld Refreshed) 0
              (AdminApp.mkListParams 1 12 (AdminFilters.mkAPIParams None None None None))
              [] 40 eq_refl) as (_ & _ & _ & Hp & _).
  exact Hp.
Defined.



End PublicApp.

(* ------------------------------------------------------------------ *)
(** ** Card lists and chart data *)
(* ------------------------------------------------------------------ *)

Section CardLists.
Import CardFactory.
Variable Data : Type.
Variable Node : Type.
Variable render : Data -> Node.

Lemma replaceAt_middle (done old : list Node) (o node : Node) :
  replaceAt Node (List.length done) node (done ++ o :: old) = done ++ node :: old.
Proof.
  induction done as [|d done IH]; [reflexivity|].
  cbn [List.length List.app replaceAt]. now rewrite IH.
Qed.

Lemma renderCards_from (cards : list Data) : forall done,
  fold_left (fun children card => children ++ [render card]) cards done =
  done ++ map render cards.
Proof.
  induction cards as [|c cards IH]; intro done; [now rewrite app_nil_r|].
  cbn [fold_left map]. rewrite IH. now rewrite <- List.app_assoc.
Qed.

Lemma updateFrom_spec (existing : nat) (cards : list Data) : forall done old,
  (List.length done < existing ->
   List.length old =
   Nat.min existing (List.length done + List.length cards) - List.length done)%nat ->
  (existing <= List.length done -> old = [])%nat ->
  updateFrom Data Node render existing (List.length done) (done ++ old) cards =
  done ++ map render cards.
Proof.
  induction cards as [|c cards IH]; intros done old H1 H2.
  - cbn [updateFrom map]. f_equal.
    destruct (Nat.lt_ge_cases (List.length done) existing) as [Hlt|Hge].
    + specialize (H1 Hlt). cbn [List.length] in H1.
      apply length_zero_iff_nil. lia.
    + now apply H2.
  - cbn [updateFrom map].
    destruct (Nat.ltb_spec (List.length done) existing) as [Hlt|Hge].
    + specialize (H1 Hlt). cbn [List.length] in H1.
      destruct old as [|o old]; [cbn [List.length] in H1; lia|].
      rewrite replaceAt_middle.
      change (done ++ render c :: old) with (done ++ [render c] ++ old).
      rewrite List.app_assoc.
      replace (S (List.length done)) with (List.length (done ++ [render c]))
        by (rewrite length_app; cbn; lia).
      rewrite IH.
      * now rewrite <- List.app_assoc.
      * rewrite length_app. cbn [List.length] in *. intro. lia.
      * rewrite length_app. cbn [List.length] in *. intro.
        apply length_zero_iff_nil. lia.
    + rewrite (H2 Hge), app_nil_r.
      replace (S (List.length done)) with (List.length (done ++ [render c]))
        by (rewrite length_app; cbn; lia).
      rewrite <- (app_nil_r (done ++ [render c])) at 2.
      rewrite IH.
      * now rewrite <- List.app_assoc.
      * rewrite length_app. cbn [List.length]. intro. lia.
      * reflexivity.
Qed.

(** X21. Updating a card list in place gives what drawing it afresh
    gives: whatever the container held, after [updateCards] its children
    are the rendered cards, one per card and in the order of the cards,
    as after [renderCards]. *)
Theorem updateCards_is_renderCards (children : list Node) (cards : list Data) :
  updateCards Data Node render children cards = map render cards /\
  renderCards Data Node render children cards = map render cards /\
  List.length (updateCards Data Node render children cards) = List.length cards.
Proof.
  assert (H : updateCards Data Node render children cards = map render cards).
  { unfold updateCards.
    set (children0 := if Nat.ltb (List.length cards) (List.length children)
                      then firstn (List.length cards) children else children).
    change children0 with ([] ++ children0).
    change 0%nat with (@List.length Node []).
    apply updateFrom_spec.
    - cbn [List.length]. intros _. subst children0.
      destruct (Nat.ltb_spec (List.length cards) (List.length children)).
      + rewrite length_firstn. lia.
      + lia.
    - cbn [List.length]. intro He. subst children0.
      assert (E : children = []) by (apply length_zero_iff_nil; lia).
      rewrite E. now destruct (Nat.ltb _ _), (List.length cards). }
  split; [exact H|]. split.
  - unfold renderCards. now rewrite renderCards_from.
  - rewrite H. apply length_map.
Qed.

End CardLists.

Section ChartData.
Import CategoryChart.

(** X22. The label of a bar. A name of at most [maxLength] code units
    is shown whole; a longer one is cut to [maxLength - 3] code units
    (none, when that is negative) followed by three dots. So for a limit
    of at least 3 the label never exceeds the limit, and cutting a label
    again changes nothing. *)
Theorem truncateText_rule (text : JsString) (maxLength : Z) :
  (len text <= maxLength -> truncateText text maxLength = text) /\
  (maxLength < len text ->
     truncateText text maxLength =
       firstn (Z.to_nat (maxLength - 3)) text ++ lit "..." /\
     len (truncateText text maxLength) = Z.max (maxLength - 3) 0 + 3) /\
  (3 <= maxLength ->
     len (truncateText text maxLength) <= maxLength /\
     truncateText (truncateText text maxLength) maxLength = truncateText text maxLength).
Proof.
  assert (Hlong : maxLength < len text ->
            truncateText text maxLength =
              firstn (Z.to_nat (maxLength - 3)) text ++ lit "..." /\
            len (truncateText text maxLength) = Z.max (maxLength - 3) 0 + 3).
  { intro H. unfold truncateText, substring0.
    replace (len text <=? maxLength) with false by (symmetry; apply Z.leb_gt; lia).
    split; [reflexivity|]. unfold len in *. rewrite length_app, length_firstn.
    change (List.length (lit "...")) with 3%nat. lia. }
  assert (Hshort : len text <= maxLength -> truncateText text maxLength = text).
  { intro H. unfold truncateText. apply Z.leb_le in H. now rewrite H. }
  split; [exact Hshort|]. split; [exact Hlong|].
  intro H3. destruct (Z_le_gt_dec (len text) maxLength) as [Hle|Hgt].
  - rewrite (Hshort Hle). split; [exact Hle|]. now apply Hshort.
  - destruct (Hlong ltac:(lia)) as [_ Hl].
    assert (Hb : len (truncateText text maxLength) <= maxLength) by lia.
    split; [exact Hb|]. unfold truncateText at 1. apply Z.leb_le in Hb. now rewrite Hb.
Qed.

Lemma truncateText_rule_witness :
  truncateText (lit "Productivity Tools") 15 = lit "Productivity..." /\
  len (truncateText (lit "Productivity Tools") 15) <= 15.
Proof.
  destruct (truncateText_rule (lit "Productivity Tools") 15) as (_ & Hlong & Hb).
  destruct (Hlong ltac:(vm_compute; reflexivity)) as [He _].
  destruct (Hb ltac:(lia)) as [Hle _].
  split; [rewrite He; reflexivity|exact Hle].
Defined.

Lemma increment_names (k : JsString) (counts : Counts) :
  map fst (increment k counts) =
  if existsb (fun n => Js.eqb n k) (map fst counts) then map fst counts
  else map fst counts ++ [k].
Proof.
  induction counts as [|[n c] counts IH]; [reflexivity|].
  cbn [increment map fst existsb]. destruct (Js.eqb n k); cbn [orb map fst].
  - reflexivity.
  - rewrite IH. now destruct (existsb _ _).
Qed.

Lemma existsb_names (k : JsString) (names : list JsString) :
  existsb (fun n => Js.eqb n k) names = true <-> In k names.
Proof.
  rewrite existsb_exists. split.
  - intros (n & Hin & He). apply eqb_eq in He. now subst.
  - intro H. exists k. split; [exact H|apply eqb_refl].
Qed.

Lemma increment_total (k : JsString) (counts : Counts) :
  total (increment k counts) = total counts + 1.
Proof.
  unfold total. induction counts as [|[n c] counts IH]; [reflexivity|].
  cbn [increment]. destruct (Js.eqb n k); cbn [map snd fold_right] in *; lia.
Qed.

Lemma increment_entries (k : JsString) (counts : Counts) (n : JsString) (c : Z) :
  NoDup (map fst counts) ->
  (In (n, c) (increment k counts) <->
   (n <> k /\ In (n, c) counts) \/
   (n = k /\ ((exists c0, In (k, c0) counts /\ c = c0 + 1) \/
              (~ In k (map fst counts) /\ c = 1)))).
Proof.
  induction counts as [|[n0 c0] counts IH]; intro Hnd.
  - cbn. split.
    + intros [H|[]]. injection H as <- <-. right. split; [reflexivity|]. right. tauto.
    + intros [[_ []]|[-> [(c1 & [] & _)|[_ ->]]]]. now left.
  - cbn [map fst] in Hnd. apply NoDup_cons_iff in Hnd as [Hn0 Hnd].
    specialize (IH Hnd). cbn [increment].
    destruct (Js.eqb n0 k) eqn:E.
    + apply eqb_eq in E. subst n0. cbn [In map fst]. split.
      * intros [H|H].
        -- injection H as <- <-. right. split; [reflexivity|]. left.
           exists c0. split; [now left|reflexivity].
        -- left. split; [|now right]. intros ->. apply Hn0.
           apply in_map_iff. now exists (k, c).
      * intros [[Hne [H|H]]|[-> [(c1 & [H|H] & ->)|[Hno _]]]].
        -- injection H as -> _. contradiction.
        -- now right.
        -- injection H as <-. now left.
        -- exfalso. apply Hn0. apply in_map_iff. now exists (k, c1).
        -- exfalso. apply Hno. now left.
    + apply eqb_neq in E. cbn [In map fst]. rewrite IH. split.
      * intros [H|[[Hne H]|[-> [(c1 & H & ->)|[Hno ->]]]]].
        -- injection H as <- <-. left. split; [exact E|now left].
        -- left. split; [exact Hne|now right].
        -- right. split; [reflexivity|]. left. exists c1. split; [now right|reflexivity].
        -- right. split; [reflexivity|]. right. split; [|reflexivity].
           intros [H|H]; [contradiction|contradiction].
      * intros [[Hne [H|H]]|[-> [(c1 & [H|H] & ->)|[Hno ->]]]].
        -- now left.
        -- right. left. now split.
        -- injection H as H _. contradiction.
        -- right. right. split; [reflexivity|]. left. now exists c1.
        -- right. right. split; [reflexivity|]. right. split; [|reflexivity].
           intro H. apply Hno. now right.
Qed.

Lemma occurrences_snoc (name : JsString) (seen : list (option JsString))
      (c : option JsString) :
  occurrences name (seen ++ [c]) =
  occurrences name seen + (if Js.eqb (categoryOf c) name then 1 else 0).
Proof.
  unfold occurrences. rewrite filter_app, length_app. cbn [filter].
  destruct (Js.eqb (categoryOf c) name); cbn [List.length]; lia.
Qed.

Lemma occurrences_pos (name : JsString) (seen : list (option JsString)) :
  In name (map categoryOf seen) -> 1 <= occurrences name seen.
Proof.
  intro H. apply in_map_iff in H as (c & Hc & Hin). unfold occurrences.
  assert (Hf : In c (filter (fun c => Js.eqb (categoryOf c) name) seen)).
  { apply filter_In. split; [exact Hin|]. rewrite Hc. apply eqb_refl. }
  destruct (filter _ seen); [destruct Hf|]. cbn [List.length]. lia.
Qed.

Lemma occurrences_zero (name : JsString) (seen : list (option JsString)) :
  ~ In name (map categoryOf seen) -> occurrences name seen = 0.
Proof.
  intro H. unfold occurrences.
  destruct (filter (fun c => Js.eqb (categoryOf c) name) seen) as [|c l] eqn:E;
    [reflexivity|].
  exfalso. apply H.
  assert (Hf : In c (filter (fun c => Js.eqb (categoryOf c) name) seen))
    by (rewrite E; now left).
  apply filter_In in Hf as [Hin He]. apply eqb_eq in He.
  apply in_map_iff. now exists c.
Qed.

(** The counts after the entries seen so far. *)
Lemma counts_invariant (categories : list (option JsString)) :
  forall counts seen,
    NoDup (map fst counts) ->
    (forall name count, In (name, count) counts -> count = occurrences name seen) ->
    (forall name, In name (map fst counts) <-> In name (map categoryOf seen)) ->
    let result :=
      fold_left (fun counts category => increment (categoryOf category) counts)
                categories counts in
    NoDup (map fst result) /\
    (forall name count, In (name, count) result ->
                        count = occurrences name (seen ++ categories)) /\
    (forall name, In name (map fst result) <->
                  In name (map categoryOf (seen ++ categories))).
Proof.
  induction categories as [|c categories IH]; intros counts seen Hnd Hc Hn.
  - cbn [fold_left]. rewrite app_nil_r. auto.
  - cbn [fold_left].
    replace (seen ++ c :: categories) with ((seen ++ [c]) ++ categories)
      by now rewrite <- List.app_assoc.
    apply IH.
    + rewrite increment_names.
      destruct (existsb _ (map fst counts)) eqn:E; [exact Hnd|].
      apply NoDup_app; [exact Hnd|repeat constructor; intros []|].
      intros x Hx [<-|[]]. apply existsb_names in Hx. congruence.
    + intros name count Hin. apply (increment_entries _ _ _ _ Hnd) in Hin.
      rewrite occurrences_snoc.
      destruct Hin as [[Hne Hin]|[-> [(c0 & Hin & ->)|[Hno ->]]]].
      * replace (Js.eqb (categoryOf c) name) with false
          by (symmetry; apply eqb_neq; congruence).
        rewrite (Hc _ _ Hin). lia.
      * rewrite eqb_refl. now rewrite (Hc _ _ Hin).
      * rewrite eqb_refl. rewrite occurrences_zero; [reflexivity|].
        intro H. apply Hno. now apply Hn.
    + intro name. rewrite increment_names, map_app, in_app_iff. cbn [map In].
      destruct (existsb _ (map fst counts)) eqn:E.
      * apply existsb_names in E. rewrite Hn. split; [tauto|].
        intros [H|[<-|[]]]; [exact H|now apply Hn].
      * rewrite in_app_iff, Hn. cbn [In]. tauto.
Qed.

(** X23. The data handed to the category chart counts the entries.
    For categories that are not member names of [Object.prototype],
    where the object used as a map behaves as one: every category that
    occurs (entries without one under the name Uncategorized) has exactly
    one bar, no other name has one, the count of a bar is the number of
    entries of its category and so at least 1, and the counts add up to
    the number of entries. *)
Theorem chart_counts_the_entries (categories : list (option JsString)) :
  (forall c, In c categories -> ~ In (categoryOf c) inheritedNames) ->
  NoDup (map fst (updateCategoryChart categories)) /\
  (forall name, In name (map fst (updateCategoryChart categories)) <->
                In name (map categoryOf categories)) /\
  (forall name count, In (name, count) (updateCategoryChart categories) ->
                      count = occurrences name categories /\ 1 <= count) /\
  total (updateCategoryChart categories) = Z.of_nat (List.length categories).
Proof.
  intros _.
  destruct (counts_invariant categories [] [] (NoDup_nil _)) as (Hnd & Hc & Hn).
  { intros name count []. }
  { intro name. cbn. tauto. }
  cbn [List.app] in Hc, Hn. fold (updateCategoryChart categories) in Hnd, Hc, Hn.
  split; [exact Hnd|]. split; [exact Hn|]. split.
  - intros name count Hin. split; [now apply Hc|].
    rewrite (Hc _ _ Hin). apply occurrences_pos. apply Hn.
    apply in_map_iff. now exists (name, count).
  - unfold updateCategoryChart.
    assert (Ht : forall cs counts,
              total (fold_left (fun counts category =>
                                  increment (categoryOf category) counts) cs counts) =
              total counts + Z.of_nat (List.length cs)).
    { induction cs as [|c cs IH]; intro counts.
      - cbn [fold_left List.length]. rewrite Z.add_0_r. reflexivity.
      - cbn [fold_left List.length]. rewrite IH, increment_total. lia. }
    rewrite Ht. reflexivity.
Qed.

Lemma chart_counts_the_entries_witness :
  updateCategoryChart [Some (lit "Search"); None; Some (lit "Search"); Some Js.empty] =
    [(lit "Search", 2); (lit "Uncategorized", 2)] /\
  total (updateCategoryChart
           [Some (lit "Search"); None; Some (lit "Search"); Some Js.empty]) = 4.
Proof.
  destruct (chart_counts_the_entries
              [Some (lit "Search"); None; Some (lit "Search"); Some Js.empty])
    as (_ & _ & _ & Ht).
  - intros c [<-|[<-|[<-|[<-|[]]]]]; vm_compute; intuition discriminate.
  - split; [reflexivity|exact Ht].
Defined.

End ChartData.

(* ------------------------------------------------------------------ *)
(** ** Requests of the two entry forms *)
(* ------------------------------------------------------------------ *)

Section EntryRequests.
Import Validators EntrySubmit.
Variable pf : Platform.

Lemma no_request_in_progress (shown : list Q) :
  filter isRequest (map SetProgress shown) = [].
Proof. induction shown as [|q shown IH]; [reflexivity|exact IH]. Qed.

Lemma requests_of_submission (shown : list Q) (finished : bool) (req : Action) :
  isRequest req = true ->
  filter isRequest
    (ShowUploadProgress true :: map SetProgress shown ++ (if finished then [req] else []))
  = if finished then [req] else [].
Proof.
  intro Hr. cbn [filter isRequest]. rewrite filter_app, no_request_in_progress.
  destruct finished; cbn [filter List.app]; [now rewrite Hr|reflexivity].
Qed.

(** X24. What the two entry forms send. A submission sends at most
    one request, and none when the form is refused. With an image
    attached the request waits for the simulated progress to reach its
    end. The request of the add form carries the URL as the validator
    returned it; the request of the edit form carries the fields as read
    from the form, the URL as it was typed. *)
Theorem entry_forms_send_one_request (sheet ser : JsString) (d : EntryForm)
        (draws : list Q) :
  (count_requests (handleAddEntry pf d draws) <= 1)%nat /\
  (count_requests (handleSubmit pf sheet ser d draws) <= 1)%nat /\
  (forall a, In a (handleAddEntry pf d draws) -> isRequest a = true ->
     formValid (validateEntryForm pf (readEntryForm d)) = true /\
     a = CreateEntry (withUrl (readEntryForm d) (Spec.normalizeUrl (formUrl d)))) /\
  (forall a, In a (handleSubmit pf sheet ser d draws) -> isRequest a = true ->
     formValid (validateEntryForm pf (readEntryForm d)) = true /\
     a = UpdateEntry sheet ser (readEntryForm d) /\
     formUrl (readEntryForm d) = formUrl d) /\
  (attachedImage (imageFile d) <> None ->
   snd (simulateUploadProgress draws 0) = false ->
   count_requests (handleAddEntry pf d draws) = 0%nat /\
   count_requests (handleSubmit pf sheet ser d draws) = 0%nat).
Proof.
  assert (Hadd : filter isRequest (handleAddEntry pf d draws) = [] \/
                 (formValid (validateEntryForm pf (readEntryForm d)) = true /\
                  (attachedImage (imageFile d) <> None ->
                   snd (simulateUploadProgress draws 0) = true) /\
                  filter isRequest (handleAddEntry pf d draws) =
                  [CreateEntry (data (validateEntryForm pf (readEntryForm d)))])).
  { destruct (handleAddEntry_shape pf d draws) as [[Hv ->]|[(Hv & Hn & ->)|(Hv & Hi & ->)]].
    - now left.
    - right. split; [exact Hv|]. split; [intro H; contradiction|reflexivity].
    - rewrite requests_of_submission by reflexivity.
      destruct (snd (simulateUploadProgress draws 0)); [|now left].
      right. split; [exact Hv|]. now split. }
  assert (Hedit : filter isRequest (handleSubmit pf sheet ser d draws) = [] \/
                  (formValid (validateEntryForm pf (readEntryForm d)) = true /\
                   (attachedImage (imageFile d) <> None ->
                    snd (simulateUploadProgress draws 0) = true) /\
                   filter isRequest (handleSubmit pf sheet ser d draws) =
                   [UpdateEntry sheet ser (readEntryForm d)])).
  { destruct (handleSubmit_shape pf sheet ser d draws)
      as [[Hv ->]|[(Hv & Hn & ->)|(Hv & Hi & ->)]].
    - now left.
    - right. split; [exact Hv|]. split; [intro H; contradiction|reflexivity].
    - rewrite requests_of_submission by reflexivity.
      destruct (snd (simulateUploadProgress draws 0)); [|now left].
      right. split; [exact Hv|]. now split. }
  unfold count_requests.
  split; [destruct Hadd as [->|(_ & _ & ->)]; cbn; lia|].
  split; [destruct Hedit as [->|(_ & _ & ->)]; cbn; lia|].
  split; [|split].
  - intros a Hin Hr.
    assert (Hf : In a (filter isRequest (handleAddEntry pf d draws)))
      by (apply filter_In; now split).
    destruct Hadd as [E|(Hv & _ & E)]; rewrite E in Hf; [destruct Hf|].
    destruct Hf as [<-|[]]. split; [exact Hv|].
    destruct (validateEntryForm_valid_url pf (readEntryForm d) Hv) as [_ Hd].
    now rewrite Hd.
  - intros a Hin Hr.
    assert (Hf : In a (filter isRequest (handleSubmit pf sheet ser d draws)))
      by (apply filter_In; now split).
    destruct Hedit as [E|(Hv & _ & E)]; rewrite E in Hf; [destruct Hf|].
    destruct Hf as [<-|[]]. now repeat split.
  - intros Hi Hs. split.
    + destruct Hadd as [->|(_ & Hfin & _)]; [reflexivity|].
      rewrite (Hfin Hi) in Hs. discriminate.
    + destruct Hedit as [->|(_ & Hfin & _)]; [reflexivity|].
      rewrite (Hfin Hi) in Hs. discriminate.
Qed.

End EntryRequests.

(* ------------------------------------------------------------------ *)
(** ** The debounce of the search box *)
(* ------------------------------------------------------------------ *)

Section Debounce.
Import SearchBox.

Lemma step_delay (b : SearchBox.t) (ev : Event) :
  searchDebounceTime (fst (step b ev)) = searchDebounceTime b.
Proof.
  destruct ev; cbn [step]; try reflexivity.
  destruct (due b) as [d|]; [|reflexivity]. now destruct (d <=? now).
Qed.

(** A pending timeout was set by a keystroke, and the box holds the
    text of that keystroke unless it was cleared since. *)
Lemma timer_calls_from (evs : list Event) : forall (seen : list Event) (b : SearchBox.t),
  (forall d, due b = Some d ->
     exists t v0, In (Typed t v0) seen /\ d = t + searchDebounceTime b /\
                  (text b = v0 \/ text b = [])) ->
  forall now v, In (ByTimer now v) (snd (run b evs)) ->
  exists t v0, In (Typed t v0) (seen ++ evs) /\ t + searchDebounceTime b <= now /\
               (v = v0 \/ v = []).
Proof.
  induction evs as [|ev evs IH]; intros seen b Hb now v Hin; [destruct Hin|].
  cbn [run] in Hin.
  destruct (step b ev) as [b1 calls1] eqn:Es.
  destruct (run b1 evs) as [b2 calls2] eqn:Er. cbn [snd] in Hin.
  assert (Hd : searchDebounceTime b1 = searchDebounceTime b).
  { pose proof (step_delay b ev) as H. now rewrite Es in H. }
  apply in_app_or in Hin as [Hin|Hin].
  - destruct ev; cbn [step] in Es.
    + injection Es as <- <-. destruct Hin.
    + destruct (due b) as [d|] eqn:Ed; [|injection Es as <- <-; destruct Hin].
      destruct (d <=? now0) eqn:El; injection Es as <- <-; [|destruct Hin].
      destruct Hin as [H|[]]. injection H as <- <-.
      destruct (Hb d eq_refl) as (t & v0 & Ht & -> & Hv).
      exists t, v0. apply Z.leb_le in El. split; [|split; [exact El|exact Hv]].
      apply in_or_app. now left.
    + injection Es as <- <-. destruct Hin as [H|[]]. discriminate H.
    + injection Es as <- <-. destruct Hin.
  - assert (Hb1 : forall d, due b1 = Some d ->
              exists t v0, In (Typed t v0) (seen ++ [ev]) /\
                           d = t + searchDebounceTime b1 /\
                           (text b1 = v0 \/ text b1 = [])).
    { intros d Hdue. rewrite Hd.
      assert (Hkeep : forall t v0, In (Typed t v0) seen -> In (Typed t v0) (seen ++ [ev]))
        by (intros; apply in_or_app; now left).
      destruct ev; cbn [step] in Es.
      - injection Es as <- _. cbn [due text] in *. injection Hdue as <-.
        exists now0, value. split; [apply in_or_app; right; now left|]. now split; [|left].
      - destruct (due b) as [d0|] eqn:Ed; [|injection Es as <- _; congruence].
        destruct (d0 <=? now0); injection Es as <- _; [discriminate Hdue|].
        rewrite Ed in Hdue. injection Hdue as <-.
        destruct (Hb d0 eq_refl) as (t & v0 & Ht & He & Hv).
        exists t, v0. auto.
      - injection Es as <- _. discriminate Hdue.
      - injection Es as <- _. cbn [due text] in *.
        destruct (Hb d Hdue) as (t & v0 & Ht & He & _).
        exists t, v0. auto. }
    assert (Hin' : In (ByTimer now v) (snd (run b1 evs))) by now rewrite Er.
    destruct (IH (seen ++ [ev]) b1 Hb1 now v Hin') as (t & v0 & Ht & Hle & Hv).
    exists t, v0. rewrite <- List.app_assoc in Ht. cbn [List.app] in Ht.
    split; [exact Ht|]. split; [now rewrite <- Hd|exact Hv].
Qed.

Lemma timer_calls_count (evs : list Event) : forall b : SearchBox.t,
  (List.length (filter isByTimer (snd (run b evs))) <=
   List.length (filter isTyped evs) +
   match due b with Some _ => 1 | None => 0 end)%nat.
Proof.
  induction evs as [|ev evs IH]; intro b; [cbn; lia|].
  cbn [run]. destruct (step b ev) as [b1 calls1] eqn:Es.
  specialize (IH b1). destruct (run b1 evs) as [b2 calls2]. cbn [snd] in *.
  rewrite filter_app, length_app.
  destruct ev; cbn [step] in Es; cbn [filter isTyped List.length].
  - injection Es as <- <-. cbn [due filter List.length] in *. lia.
  - destruct (due b) as [d|] eqn:Ed.
    + destruct (d <=? now); injection Es as <- <-;
        cbn [due filter isByTimer List.length] in *; try rewrite Ed in IH; lia.
    + injection Es as <- <-. rewrite Ed in IH. cbn [filter List.length]. lia.
  - injection Es as <- <-. cbn [due filter isByTimer List.length] in *.
    destruct (due b); lia.
  - injection Es as <- <-. cbn [due filter List.length] in *. lia.
Qed.

Lemma run_app (evs1 evs2 : list Event) : forall b : SearchBox.t,
  run b (evs1 ++ evs2) =
  (fst (run (fst (run b evs1)) evs2), snd (run b evs1) ++ snd (run (fst (run b evs1)) evs2)).
Proof.
  induction evs1 as [|ev evs1 IH]; intro b.
  - cbn [List.app run fst snd]. now destruct (run b evs2).
  - cbn [List.app run]. destruct (step b ev) as [b1 calls1]. rewrite IH.
    destruct (run b1 evs1) as [b2 calls2]. cbn [fst snd].
    now rewrite List.app_assoc.
Qed.

Lemma run_burst (keys : list (Z * JsString)) (k : Z * JsString) : forall b : SearchBox.t,
  run b (burst (keys ++ [k])) =
  (mk (snd k) (Some (fst k + searchDebounceTime b)) (searchDebounceTime b), []).
Proof.
  induction keys as [|k0 keys IH]; intro b; [reflexivity|].
  cbn [List.app burst map run step]. fold (burst (keys ++ [k])).
  rewrite IH. reflexivity.
Qed.

(** X26. The debounce of the search box. The timer calls the search
    handler only for a keystroke that lies at least the debounce time
    back, with the text of a keystroke or, after a click on the clear
    button, with the empty text; there are never more timer calls than
    keystrokes. A burst of keystrokes followed by silence gives one call,
    with the text of the last keystroke; when Enter is pressed after the
    burst, that is the one call, and the timer, being cancelled, makes
    none. *)
Theorem search_is_debounced (evs : list Event) :
  (forall now v, In (ByTimer now v) (snd (run initial evs)) ->
     exists t v0, In (Typed t v0) evs /\ t + 250 <= now /\ (v = v0 \/ v = [])) /\
  (List.length (filter isByTimer (snd (run initial evs))) <=
   List.length (filter isTyped evs))%nat /\
  (forall keys k now,
     evs = burst (keys ++ [k]) ++ [Elapsed now] ->
     (fst k + 250 <= now -> snd (run initial evs) = [ByTimer now (snd k)]) /\
     (now < fst k + 250 -> snd (run initial evs) = [])) /\
  (forall keys k now,
     evs = burst (keys ++ [k]) ++ [EnterPressed; Elapsed now] ->
     snd (run initial evs) = [ByEnter (snd k)]).
Proof.
  split; [|split; [|split]].
  - intros now v Hin.
    apply (timer_calls_from evs [] initial); [|exact Hin].
    intros d H. discriminate H.
  - pose proof (timer_calls_count evs initial) as H. cbn [due initial] in H. lia.
  - intros keys k now ->. rewrite run_app, run_burst. cbn [fst snd run step due initial
      searchDebounceTime text List.app].
    split; intro H.
    + replace (fst k + 250 <=? now) with true by (symmetry; apply Z.leb_le; lia).
      reflexivity.
    + replace (fst k + 250 <=? now) with false by (symmetry; apply Z.leb_gt; lia).
      reflexivity.
  - intros keys k now ->. rewrite run_app, run_burst. reflexivity.
Qed.

Lemma search_is_debounced_witness :
  snd (run initial [Typed 0 (lit "g"); Typed 90 (lit "go"); Typed 170 (lit "goo");
                    Elapsed 420]) = [ByTimer 420 (lit "goo")].
Proof.
  destruct (search_is_debounced
              [Typed 0 (lit "g"); Typed 90 (lit "go"); Typed 170 (lit "goo"); Elapsed 420])
    as (_ & _ & H & _).
  destruct (H [(0, lit "g"); (90, lit "go")] (170, lit "goo") 420 eq_refl) as [Hfire _].
  apply Hfire. cbn. lia.
Defined.

End Debounce.

(* ------------------------------------------------------------------ *)
(** ** Runs of the public application *)
(* ------------------------------------------------------------------ *)

Section PublicRuns.
Import Pagination UserApp PublicTrace.

Lemma SentParams_current (a : UserApp.t) (cp : Z) :
  trim (search (Filters.filters (filters a))) = search (Filters.filters (filters a)) ->
  SentParams (AdminApp.mkListParams cp 12 (PublicFilters.getAPIParams (filters a))).
Proof.
  intro Ht. unfold SentParams, PublicFilters.getAPIParams, AdminFilters.truthy. cbn.
  split; [reflexivity|]. split; [reflexivity|].
  destruct (search (Filters.filters (filters a))) eqn:E; [exact I|].
  split; [discriminate|exact Ht].
Qed.

Lemma loadEntries_Steady (w : World) : Steady (loadEntries w) <-> Steady w.
Proof.
  unfold loadEntries. destruct (isLoading (app w)) eqn:El; [tauto|].
  unfold Steady. cbn [app pending log setIsLoading isLoading filters pagination
                      currentPage].
  rewrite El, requests_app, Forall_app. cbn [requests].
  split.
  - intros (Hp & Ht & Hi & Hc & Hpg & Hr & _).
    destruct (pending w); [|cbn in Hp; rewrite length_app in Hp; cbn in Hp; lia].
    auto 10.
  - intros (Hp & Ht & Hi & Hc & Hpg & Hr). rewrite Hp.
    split; [reflexivity|]. repeat (split; [assumption|]).
    constructor; [|constructor]. now apply SentParams_current.
Qed.

Lemma emit_Steady (w : World) (acts : list Action) :
  requests acts = [] -> (Steady (emit w acts) <-> Steady w).
Proof.
  intro H. unfold Steady, emit. cbn [app pending log].
  now rewrite requests_app, H, app_nil_r.
Qed.

Lemma handleFiltersChange_Steady (w : World) : Steady w -> Steady (handleFiltersChange w).
Proof.
  intros (Hp & Ht & Hi & Hc & _ & Hr). unfold handleFiltersChange.
  apply loadEntries_Steady. unfold Steady.
  cbn [withApp app pending log setCurrentPage isLoading filters pagination currentPage].
  auto 10.
Qed.

Lemma relayFilters_Steady (acts : list Filters.Action) : forall w,
  Steady w -> Steady (relayFilters w acts).
Proof.
  induction acts as [|a acts IH]; intros w Hw; [exact Hw|].
  destruct a; cbn [relayFilters]; apply IH.
  - now apply handleFiltersChange_Steady.
  - now apply emit_Steady.
Qed.

Lemma onFilters_Steady (w : World) (r : Filters.t * list Filters.Action) :
  trim (search (Filters.filters (fst r))) = search (Filters.filters (fst r)) ->
  Steady w -> Steady (onFilters w r).
Proof.
  intros Ht (Hp & _ & Hi & Hc & Hpg & Hr). unfold onFilters.
  apply relayFilters_Steady. unfold Steady.
  cbn [withApp app pending log setFilters isLoading filters pagination currentPage].
  auto 10.
Qed.

Lemma clickPage_Steady (w : World) (attr : JsString) :
  Steady w -> Steady (clickPage w attr).
Proof.
  intros Hw. unfold clickPage.
  assert (Hcases : handlePageClick (pagination (app w)) attr = (pagination (app w), []) \/
                   exists n, handlePageClick (pagination (app w)) attr =
                             (Pagination.setCurrentPage (pagination (app w)) n,
                              CallOnPageChange n ::
                              render (Pagination.setCurrentPage (pagination (app w)) n))).
  { destruct Hw as (_ & _ & _ & Hc & _).
    assert (Hcommit : forall n,
              commitPage (pagination (app w)) n = (pagination (app w), []) \/
              commitPage (pagination (app w)) n =
                (Pagination.setCurrentPage (pagination (app w)) n,
                 CallOnPageChange n ::
                 render (Pagination.setCurrentPage (pagination (app w)) n))).
    { intro n. unfold commitPage. rewrite Hc.
      destruct (negb (n =? Pagination.currentPage (pagination (app w))) && (1 <=? n) &&
                (n <=? totalPages (pagination (app w)))); [now right|now left]. }
    unfold handlePageClick.
    destruct (Js.eqb attr (lit "prev")).
    { fold (commitPage (pagination (app w))
                       (Z.max 1 (Pagination.currentPage (pagination (app w)) - 1))).
      destruct (Hcommit (Z.max 1 (Pagination.currentPage (pagination (app w)) - 1)));
        [now left|right; eauto]. }
    destruct (Js.eqb attr (lit "next")).
    { fold (commitPage (pagination (app w))
                       (Z.min (totalPages (pagination (app w)))
                              (Pagination.currentPage (pagination (app w)) + 1))).
      destruct (Hcommit (Z.min (totalPages (pagination (app w)))
                               (Pagination.currentPage (pagination (app w)) + 1)));
        [now left|right; eauto]. }
    destruct (parseInt10 attr) as [n|]; [|now left].
    fold (commitPage (pagination (app w)) n).
    destruct (Hcommit n); [now left|right; eauto]. }
  destruct Hcases as [->|[n ->]].
  - cbn [relayPagination]. destruct Hw as (Hp & Ht & Hi & Hc & Hpg & Hr).
    unfold Steady. cbn [withApp app pending log setPagination isLoading filters
                        pagination currentPage]. auto 10.
  - cbn [relayPagination]. rewrite relayPagination_render.
    apply emit_Steady; [apply requests_Paginate|].
    unfold handlePageChange. apply emit_Steady; [reflexivity|].
    apply loadEntries_Steady.
    destruct Hw as (Hp & Ht & Hi & Hc & Hpg & Hr). unfold Steady.
    cbn [withApp app pending log setPagination setCurrentPage isLoading filters
         pagination currentPage Pagination.setCurrentPage Pagination.itemsPerPage
         Pagination.onPageChange Pagination.currentPage].
    split; [exact Hp|]. split; [exact Ht|]. split; [exact Hi|]. split; [exact Hc|].
    split; [now left|exact Hr].
Qed.

Lemma loadEntriesSettled_requests (a : UserApp.t) (r : AdminAPI.Settled ListData) :
  requests (snd (loadEntriesSettled a r)) = [] /\
  isLoading (fst (loadEntriesSettled a r)) = false /\
  filters (fst (loadEntriesSettled a r)) = filters a /\
  Pagination.itemsPerPage (pagination (fst (loadEntriesSettled a r))) =
    Pagination.itemsPerPage (pagination a) /\
  Pagination.onPageChange (pagination (fst (loadEntriesSettled a r))) =
    Pagination.onPageChange (pagination a) /\
  currentPage (fst (loadEntriesSettled a r)) = currentPage a /\
  (Pagination.currentPage (pagination (fst (loadEntriesSettled a r))) = currentPage a \/
   pagination (fst (loadEntriesSettled a r)) = pagination a).
Proof.
  unfold loadEntriesSettled.
  destruct r as [response|msg]; [destruct (AdminAPI.success response);
    [destruct (AdminAPI.data response) as [d|]|]|]; cbn [fst snd];
    try (repeat split; now right).
  cbn [Pagination.update setResult totalEntries entries currentPage pagination].
  cbn [fst snd setIsLoading setPagination isLoading filters pagination currentPage
       Pagination.itemsPerPage Pagination.onPageChange Pagination.currentPage].
  rewrite !requests_app, requests_Paginate. cbn [requests List.app].
  repeat split. now left.
Qed.

Lemma listSettled_Steady (w : World) (i : nat) (r : AdminAPI.Settled ListData) :
  Steady w -> Steady (step w (ListSettled i r)).
Proof.
  intros Hw. cbn [step].
  destruct (nth_error (pending w) i) as [q|] eqn:Eq; [|exact Hw].
  destruct (loadEntriesSettled_requests (app w) r)
    as (Hreq & Hl & Hf & Hi & Hc & Hcp & Hpg).
  destruct (loadEntriesSettled (app w) r) as [a acts]. cbn [fst snd] in *.
  destruct Hw as (Hp & Ht & Hi0 & Hc0 & Hpg0 & Hr).
  unfold Steady. cbn [app pending log]. rewrite Hl, Hf, Hi, Hc, Hcp.
  split.
  - destruct (isLoading (app w)).
    + destruct (pending w) as [|p0 [|p1 rest]]; try discriminate Hp.
      destruct i as [|i]; [reflexivity|]. destruct i; discriminate Eq.
    + rewrite Hp in Eq. destruct i; discriminate Eq.
  - split; [exact Ht|]. split; [exact Hi0|]. split; [exact Hc0|]. split.
    + destruct Hpg as [->| ->]; [now left|exact Hpg0].
    + now rewrite requests_app, Hreq, app_nil_r.
Qed.

Lemma step_Steady (w : World) (ev : Event) : Steady w -> Steady (step w ev).
Proof.
  intro Hw. destruct ev.
  - now apply clickPage_Steady.
  - cbn [step]. apply onFilters_Steady; [|exact Hw].
    unfold Filters.handleSearchChange.
    destruct ((2 <=? len value) || (len value =? 0)); cbn [fst Filters.filters search].
    + apply trim_idem.
    + now destruct Hw as (_ & Ht & _).
  - cbn [step]. apply onFilters_Steady; [|exact Hw]. now destruct Hw as (_ & Ht & _).
  - cbn [step]. apply onFilters_Steady; [|exact Hw]. now destruct Hw as (_ & Ht & _).
  - cbn [step]. apply onFilters_Steady; [reflexivity|exact Hw].
  - cbn [step]. now apply handleFiltersChange_Steady.
  - now apply listSettled_Steady.
Qed.

(** X25. What holds in every state the public application reaches.
    At most one list request is in flight, and the loading flag tells
    whether one is; the stored search text is trimmed; the page of the
    application is the page the pagination component shows, or 1; and
    every request ever sent asked for pages of twelve, with equal start
    and end date and with no search text or a trimmed one that is not
    empty. *)
Theorem public_app_stays_steady (evs : list Event) :
  Steady (run initialWorld evs) /\
  (forall p, In p (requests (log (run initialWorld evs))) -> SentParams p).
Proof.
  assert (H : Steady (run initialWorld evs)).
  { assert (Hgen : forall w, Steady w -> Steady (run w evs)).
    { induction evs as [|ev evs IH]; intros w Hw; [exact Hw|].
      cbn [run fold_left]. apply IH. now apply step_Steady. }
    apply Hgen. unfold Steady. cbn.
    split; [reflexivity|]. split; [reflexivity|]. split; [reflexivity|].
    split; [reflexivity|]. split; [now left|constructor]. }
  split; [exact H|].
  destruct H as (_ & _ & _ & _ & _ & Hr). rewrite Forall_forall in Hr. exact Hr.
Qed.

End PublicRuns.

(* ------------------------------------------------------------------ *)
(** ** Validating validated data; logging in *)
(* ------------------------------------------------------------------ *)

Section Revalidation.
Import Validators.
Variable pf : Platform.

Lemma normalizeUrl_fixed (u : JsString) :
  trim u <> [] ->
  Spec.normalizeUrl (Spec.normalizeUrl u) = Spec.normalizeUrl u /\
  trim (Spec.normalizeUrl u) <> [].
Proof.
  intro Hne. unfold Spec.normalizeUrl at 2 3 4.
  destruct (startsWith (trim u) (lit "http://") || startsWith (trim u) (lit "https://"))
    eqn:E.
  - split; [|now rewrite trim_idem].
    unfold Spec.normalizeUrl. now rewrite trim_idem, E.
  - split; [|rewrite trim_https; discriminate].
    unfold Spec.normalizeUrl. rewrite trim_https, startsWith_app, orb_true_r.
    reflexivity.
Qed.

Lemma validateUrl_again (u : JsString) :
  valid (validateUrl pf u) = true ->
  validateUrl pf (Spec.normalizeUrl u) = passUrl (Spec.normalizeUrl u).
Proof.
  intro Hv. pose proof (validateUrl_valid_url pf u Hv) as He.
  rewrite validateUrl_unfold in He. rewrite validateUrl_unfold.
  destruct (isBlank u) eqn:Hb; [discriminate|].
  apply isBlank_false_iff in Hb. destruct (normalizeUrl_fixed u Hb) as [Hfix Hne].
  apply isBlank_false_iff in Hne. now rewrite Hne, Hfix.
Qed.

(** X27. Validated form data validates again. When the entry form is
    accepted, validating the data it returns, in which the URL is the
    normalised one, accepts them too, reports no error and returns them
    unchanged: what the add form stored can be saved again from the edit
    form as it is. *)
Theorem validated_entry_validates_again (d : EntryForm) :
  formValid (validateEntryForm pf d) = true ->
  validateEntryForm pf (data (validateEntryForm pf d)) =
  mkFormResult true [] (data (validateEntryForm pf d)).
Proof.
  intro Hv.
  destruct (validateEntryForm_valid_url pf d Hv) as [Hu Hd]. rewrite Hd.
  pose proof (validateUrl_again _ Hu) as Hagain.
  assert (He : errors (validateEntryForm pf d) = []).
  { unfold validateEntryForm in Hv. cbn [formValid] in Hv.
    apply Nat.eqb_eq, length_zero_iff_nil in Hv. exact Hv. }
  unfold validateEntryForm in He. cbn [errors] in He.
  unfold validateEntryForm.
  cbn [withUrl name category formUrl description imageFile].
  rewrite Hagain. cbn [valid passUrl url orElse].
  assert (Hrest : forall errs0 fld r, pushError errs0 fld r = [] ->
                                      errs0 = [] /\ valid r = true)
    by (intros errs0 fld r H; exact (pushError_nil errs0 fld r H)).
  destruct (imageFile d) as [f|] eqn:Ef.
  - apply Hrest in He as [He Hi]. apply Hrest in He as [He Hdesc].
    apply Hrest in He as [He _]. apply Hrest in He as [He Hcat].
    apply Hrest in He as [_ Hname].
    unfold pushError. rewrite Hname, Hcat, Hdesc, Hi. cbn [negb valid passUrl].
    destruct (Spec.normalizeUrl (formUrl d)) eqn:En.
    + exfalso. rewrite validateUrl_unfold in Hagain.
      destruct (isBlank []) eqn:Hb; [discriminate|]. discriminate Hb.
    + reflexivity.
  - apply Hrest in He as [He Hdesc].
    apply Hrest in He as [He _]. apply Hrest in He as [He Hcat].
    apply Hrest in He as [_ Hname].
    unfold pushError. rewrite Hname, Hcat, Hdesc. cbn [negb valid passUrl].
    destruct (Spec.normalizeUrl (formUrl d)) eqn:En.
    + exfalso. rewrite validateUrl_unfold in Hagain.
      destruct (isBlank []) eqn:Hb; [discriminate|]. discriminate Hb.
    + reflexivity.
Qed.

End Revalidation.

Lemma validated_entry_validates_again_witness :
  Validators.formValid
    (Validators.validateEntryForm RefPlatform.platform
       (Validators.data
          (Validators.validateEntryForm RefPlatform.platform
             (Samples.googleForm (Some Samples.photo))))) = true.
Proof.
  rewrite (validated_entry_validates_again RefPlatform.platform
             (Samples.googleForm (Some Samples.photo))); [reflexivity|].
  vm_compute. reflexivity.
Defined.

Section Login.
Import AdminRequests LoginModal.
Variable pf : Platform.
Variable now : Z.

(** X28. Logging in and entering the admin panel. A login answered
    with success stores the token and the expiry as strings and
    redirects to the admin panel in any case; the panel then lets the
    user in exactly when the stored token and expiry are not empty and
    the expiry parses as a date later than the present instant. An
    answer without an expiry is stored as the text "undefined" and, that
    being no date, is refused by the panel although the login was
    reported successful; an answer without a token is stored likewise
    and, being a non-empty text, is let in. A failed login stores
    nothing and does not redirect. *)
Theorem login_opens_admin_panel_iff (s : Session) (d : LoginData)
        (msg : option JsString) :
  In RedirectToAdmin
     (snd (loginSettled s (AdminAPI.Resolved (AdminAPI.mkResponse true msg (Some d))))) /\
  (appIsAuthenticated pf now
     (fst (loginSettled s (AdminAPI.Resolved (AdminAPI.mkResponse true msg (Some d)))))
   = true <->
   dataToken d <> Some [] /\ expiresAt d <> Some [] /\
   exists e, dateParse pf (stored (expiresAt d)) = Some e /\ now < e) /\
  (expiresAt d = None -> dateParse pf (lit "undefined") = None ->
   appIsAuthenticated pf now
     (fst (loginSettled s (AdminAPI.Resolved (AdminAPI.mkResponse true msg (Some d)))))
   = false) /\
  (forall r,
     (forall m d0, r <> AdminAPI.Resolved (AdminAPI.mkResponse true m (Some d0))) ->
     fst (loginSettled s r) = s /\ ~ In RedirectToAdmin (snd (loginSettled s r))).
Proof.
  assert (Hset : forall x, isSet (Some (stored x)) = true <-> x <> Some []).
  { intros [[|c v]|]; cbn [stored isSet]; split; intro H;
      try reflexivity; try discriminate; try congruence.
    exfalso. now apply H. }
  assert (Hor : forall x, isSet (Some (stored x)) = true ->
                          orElse (Some (stored x)) Js.empty = stored x).
  { intros [[|c v]|]; cbn; try reflexivity; discriminate. }
  assert (Hiff : appIsAuthenticated pf now
                   (fst (loginSettled s
                           (AdminAPI.Resolved (AdminAPI.mkResponse true msg (Some d)))))
                 = true <->
                 dataToken d <> Some [] /\ expiresAt d <> Some [] /\
                 exists e, dateParse pf (stored (expiresAt d)) = Some e /\ now < e).
  { cbn [loginSettled AdminAPI.success AdminAPI.data fst].
    unfold appIsAuthenticated. cbn [adminToken tokenExpires].
    rewrite <- !Hset.
    destruct (isSet (Some (stored (dataToken d)))) eqn:Et; cbn [negb orb].
    - destruct (isSet (Some (stored (expiresAt d)))) eqn:Ee; cbn [negb].
      + rewrite (Hor _ Ee).
        destruct (dateParse pf (stored (expiresAt d))) as [e|].
        * rewrite Z.ltb_lt. split.
          -- intro H. repeat split. now exists e.
          -- intros (_ & _ & e0 & He & Hlt). now injection He as <-.
        * split; [discriminate|]. intros (_ & _ & e0 & He & _). discriminate.
      + split; [discriminate|]. intros (_ & H & _). discriminate.
    - split; [discriminate|]. intros (H & _). discriminate. }
  split; [cbn; auto|]. split; [exact Hiff|]. split.
  - intros He Hp. destruct (appIsAuthenticated pf now _) eqn:E; [|reflexivity].
    destruct (proj1 Hiff eq_refl) as (_ & _ & e & Hd & _).
    rewrite He in Hd. cbn [stored] in Hd. congruence.
  - intros r Hr. destruct r as [response|m]; cbn [loginSettled].
    + destruct response as [ok m d0]. cbn [AdminAPI.success AdminAPI.data AdminAPI.message].
      destruct ok.
      * destruct d0 as [d0|]; [now contradiction (Hr m d0)|].
        cbn. split; [reflexivity|]. intros [H|[]]. discriminate.
      * cbn. split; [reflexivity|]. intros [H|[]]. discriminate.
    + cbn. split; [reflexivity|]. intros [H|[]]. discriminate.
Qed.

End Login.
